(** * Fullprop: invoice lifecycle engine

    A shallow embedding of the server side of the property-management
    application (invoiceService.ts, notificationService.ts, pdfService.ts,
    emailService.ts, storage.ts, routes.ts and shared/schema.ts), of the
    lease helpers of the client (date-utils.ts, property-utils.ts), and the
    properties of the invoice lifecycle proved about them.

    Conventions of the embedding:
    - a JavaScript [Date] is its time value, a [Z] counting milliseconds
      since the epoch; calendar getters follow ECMAScript's definitions
      (Day, DayFromYear, YearFromTime, MonthFromTime, DateFromTime, MakeDay)
      in the time zone [tza] of the host, a standard offset with or
      without daylight saving time of one hour;
    - integers ([id], year, month) are [Z]; a string is a [string]
      holding its UTF-8 encoding, one [ascii] for each byte (the functions
      that count characters are only applied to strings of digits);
    - a JavaScript number that is not an integer counter is a [jsnum], a
      binary64 value with the arithmetic of IEEE 754 (the Standard
      Library's [SpecFloat] at precision 53);
    - asynchronous methods that read or write the database, the clock or the
      mail transport are computations in the monad [M], which threads a
      [World] and may throw;
    - a database call fails only where the schema refuses the row (the
      unique invoice number, the foreign keys on the property id), a value
      read back from a table is the value that was written, the wall clock
      stands still while one request or job runs, and what is written to
      the console is left out. *)

From Stdlib Require Import ZArith List String Ascii Bool Lia SpecFloat.
From Stdlib Require Import DecimalString.
From Stdlib Require Import Permutation Sorted.
From Stdlib Require DecimalPos DecimalZ DecimalFacts.
Import ListNotations.
Local Open Scope string_scope.
Local Open Scope Z_scope.

(** ** JavaScript strings *)

Module JsString.

(** [Number.prototype.toString] on an integer value. *)
Definition toString (z : Z) : string :=
  NilZero.string_of_int (Z.to_int z).

Fixpoint repeat_char (c : ascii) (n : nat) : string :=
  match n with
  | O => EmptyString
  | S k => String c (repeat_char c k)
  end.

(** [s.padStart(n, c)] for a one-character filler. *)
Definition padStart (n : nat) (c : ascii) (s : string) : string :=
  repeat_char c (n - String.length s) ++ s.

(** [s.slice(-n)]: the last [n] characters, the whole string when shorter. *)
Definition sliceLast (n : nat) (s : string) : string :=
  substring (String.length s - n) n s.

(** Truthiness of a string: only the empty string is falsy. *)
Definition truthy (s : string) : bool :=
  match s with
  | EmptyString => false
  | String _ _ => true
  end.

(** [a || b] on strings. *)
Definition or (a b : string) : string :=
  if truthy a then a else b.

(** White space removed by [trim] and skipped by [parseFloat]: the
    WhiteSpace and LineTerminator code points of ECMAScript, as the
    strings hold them, in UTF-8.  One byte: TAB, LF, VT, FF, CR, SP. *)
Definition isWhite (c : ascii) : bool :=
  let n := nat_of_ascii c in
  (Nat.eqb n 32 || Nat.eqb n 9 || Nat.eqb n 10 || Nat.eqb n 11
   || Nat.eqb n 12 || Nat.eqb n 13)%bool.

Definition isByte (c : ascii) (n : nat) : bool := Nat.eqb (nat_of_ascii c) n.

(** Two bytes: U+00A0 (C2 A0). *)
Definition isWhite2 (c1 c2 : ascii) : bool :=
  (isByte c1 194 && isByte c2 160)%bool.

(** Three bytes: U+1680 (E1 9A 80), U+2000 to U+200A (E2 80 80 to
    E2 80 8A), U+2028 and U+2029 (E2 80 A8, E2 80 A9), U+202F (E2 80 AF),
    U+205F (E2 81 9F), U+3000 (E3 80 80) and U+FEFF (EF BB BF). *)
Definition isWhite3 (c1 c2 c3 : ascii) : bool :=
  let n3 := nat_of_ascii c3 in
  ((isByte c1 225 && isByte c2 154 && isByte c3 128)
   || (isByte c1 226 && isByte c2 128
       && ((Nat.leb 128 n3 && Nat.leb n3 138)
           || isByte c3 168 || isByte c3 169 || isByte c3 175))
   || (isByte c1 226 && isByte c2 129 && isByte c3 159)
   || (isByte c1 227 && isByte c2 128 && isByte c3 128)
   || (isByte c1 239 && isByte c2 187 && isByte c3 191))%bool.

Fixpoint trimStart (s : string) : string :=
  match s with
  | EmptyString => EmptyString
  | String c1 r1 =>
      if isWhite c1 then trimStart r1
      else
        match r1 with
        | EmptyString => s
        | String c2 r2 =>
            if isWhite2 c1 c2 then trimStart r2
            else
              match r2 with
              | EmptyString => s
              | String c3 r3 =>
                  if isWhite3 c1 c2 c3 then trimStart r3 else s
              end
        end
  end.

(** The bytes of [s] up to the white space it ends with: a byte is kept
    unless white space is all that follows from it on. *)
Fixpoint trimEnd (s : string) : string :=
  match s with
  | EmptyString => EmptyString
  | String c r =>
      match trimStart s with
      | EmptyString => EmptyString
      | String _ _ => String c (trimEnd r)
      end
  end.

Definition trim (s : string) : string := trimEnd (trimStart s).

(** Truthiness of a nullable string. *)
Definition truthyOpt (o : option string) : bool :=
  match o with
  | Some s => truthy s
  | None => false
  end.

(** [o || d] for a nullable string [o]. *)
Definition orOpt (o : option string) (d : string) : string :=
  match o with
  | Some s => or s d
  | None => d
  end.

(** [l.join(sep)]. *)
Definition join (sep : string) (l : list string) : string := String.concat sep l.

End JsString.

(** ** JavaScript dates (ECMAScript, Date objects) *)

Module JsDate.

Definition msPerDay : Z := 86400000.

Definition Day (t : Z) : Z := t / msPerDay.
Definition TimeWithinDay (t : Z) : Z := t mod msPerDay.

Definition isLeap (y : Z) : bool :=
  if negb (y mod 4 =? 0) then false
  else if negb (y mod 100 =? 0) then true
  else if negb (y mod 400 =? 0) then false
  else true.

Definition DaysInYear (y : Z) : Z := if isLeap y then 366 else 365.

Definition DayFromYear (y : Z) : Z :=
  365 * (y - 1970) + (y - 1969) / 4 - (y - 1901) / 100 + (y - 1601) / 400.

(** The largest [y] with [DayFromYear y <= d]: an estimate from the mean
    year length, corrected by at most one year. *)
Definition YearFromDay (d : Z) : Z :=
  let y0 := 1970 + (400 * d) / 146097 in
  if d <? DayFromYear y0 then y0 - 1
  else if DayFromYear (y0 + 1) <=? d then y0 + 1
  else y0.

Definition YearFromTime (t : Z) : Z := YearFromDay (Day t).

Definition DayWithinYear (t : Z) : Z :=
  Day t - DayFromYear (YearFromTime t).

Definition InLeapYear (t : Z) : Z :=
  if isLeap (YearFromTime t) then 1 else 0.

(** Number of days of the year before month [m] (0 = January). *)
Definition daysBeforeMonth (leap : Z) (m : Z) : Z :=
  if m <=? 0 then 0
  else if m =? 1 then 31
  else if m =? 2 then 59 + leap
  else if m =? 3 then 90 + leap
  else if m =? 4 then 120 + leap
  else if m =? 5 then 151 + leap
  else if m =? 6 then 181 + leap
  else if m =? 7 then 212 + leap
  else if m =? 8 then 243 + leap
  else if m =? 9 then 273 + leap
  else if m =? 10 then 304 + leap
  else if m =? 11 then 334 + leap
  else 365 + leap.

Definition MonthFromTime (t : Z) : Z :=
  let d := DayWithinYear t in
  let l := InLeapYear t in
  if d <? 31 then 0
  else if d <? 59 + l then 1
  else if d <? 90 + l then 2
  else if d <? 120 + l then 3
  else if d <? 151 + l then 4
  else if d <? 181 + l then 5
  else if d <? 212 + l then 6
  else if d <? 243 + l then 7
  else if d <? 273 + l then 8
  else if d <? 304 + l then 9
  else if d <? 334 + l then 10
  else 11.

Definition DateFromTime (t : Z) : Z :=
  DayWithinYear t - daysBeforeMonth (InLeapYear t) (MonthFromTime t) + 1.

Definition MakeDay (year month date : Z) : Z :=
  let ym := year + month / 12 in
  let mn := month mod 12 in
  DayFromYear ym + daysBeforeMonth (if isLeap ym then 1 else 0) mn + date - 1.

Definition MakeDate (day time : Z) : Z := day * msPerDay + time.

Definition msPerHour : Z := 3600000.

(** The time zone of the host: its standard offset from UTC and, for
    every instant, whether daylight saving time is in effect then, which
    moves the local clock on by one hour. *)
Record Zone : Type := {
  LocalTZA : Z;
  inDaylightTime : Z -> bool
}.

Bind Scope Z_scope with Zone.

(** A zone without daylight saving time is its offset. *)
Definition fixedOffset (offset : Z) : Zone :=
  {| LocalTZA := offset; inDaylightTime := fun _ => false |}.

Coercion fixedOffset : Z >-> Zone.

Definition DaylightSavingTA (tza : Zone) (t : Z) : Z :=
  if inDaylightTime tza t then msPerHour else 0.

Definition LocalTime (tza : Zone) (t : Z) : Z :=
  t + LocalTZA tza + DaylightSavingTA tza t.

(** The instant of a local time: the earlier one when the local time
    occurs twice (at the end of daylight saving time), and when it is
    skipped (at its start) the local time read with the offset in effect
    before the change. *)
Definition UTC (tza : Zone) (t : Z) : Z :=
  let daylight := t - LocalTZA tza - msPerHour in
  if inDaylightTime tza daylight then daylight else t - LocalTZA tza.

(** [new Date(year, month, date)]: local midnight of that day; a year in
    0..99 means 1900 + year. *)
Definition mkDate (tza : Zone) (year month date : Z) : Z :=
  let yr := if ((0 <=? year) && (year <=? 99))%bool then 1900 + year else year in
  UTC tza (MakeDate (MakeDay yr month date) 0).

Definition getFullYear (tza : Zone) (t : Z) : Z := YearFromTime (LocalTime tza t).
Definition getMonth (tza : Zone) (t : Z) : Z := MonthFromTime (LocalTime tza t).
Definition getDate (tza : Zone) (t : Z) : Z := DateFromTime (LocalTime tza t).

(** Number of days of month [m] (0 = January) of year [y]. *)
Definition daysInMonth (y m : Z) : Z :=
  let l := if isLeap y then 1 else 0 in
  daysBeforeMonth l (m + 1) - daysBeforeMonth l m.

Definition monthName (m : Z) : string :=
  if m =? 0 then "January" else if m =? 1 then "February"
  else if m =? 2 then "March" else if m =? 3 then "April"
  else if m =? 4 then "May" else if m =? 5 then "June"
  else if m =? 6 then "July" else if m =? 7 then "August"
  else if m =? 8 then "September" else if m =? 9 then "October"
  else if m =? 10 then "November" else "December".

(** [d.toLocaleDateString('en-ZA', { month: 'long', year: 'numeric' })]. *)
Definition toLocaleMonthYear (tza : Zone) (t : Z) : string :=
  monthName (getMonth tza t) ++ " " ++ JsString.toString (getFullYear tza t).

End JsDate.

Import JsDate.


(** ** JavaScript numbers *)

Module JsNumber.

(** A number is a binary64 value: a signed zero, a signed infinity
    ([true] is the negative sign), NaN, or a finite [m * 2^e] with a
    53-bit mantissa.  The operations round to nearest, ties to even. *)
Definition jsnum : Type := spec_float.

Definition prec : Z := 53.
Definition emax : Z := 1024.

Definition NaN : jsnum := S754_nan.

(** The Number value of an integer. *)
Definition ofZ (z : Z) : jsnum := binary_normalize prec emax z 0 false.

Definition neg (a : jsnum) : jsnum := SFopp a.
Definition add (a b : jsnum) : jsnum := SFadd prec emax a b.
Definition sub (a b : jsnum) : jsnum := SFsub prec emax a b.
Definition div (a b : jsnum) : jsnum := SFdiv prec emax a b.

(** The Number value of the decimal [m * 10^k] with [0 <= m]: the
    binary64 value nearest to it, by one rounding. *)
Definition ofDecimal (negative : bool) (m k : Z) : jsnum :=
  match m with
  | Zpos p =>
      if 0 <=? k then binary_round prec emax negative (Z.to_pos (m * 10 ^ k)) 0
      else
        SFdiv prec emax (S754_finite negative p 0)
          (S754_finite false (Z.to_pos (10 ^ (- k))) 0)
  | _ => S754_zero negative
  end.

Definition digitOf (c : ascii) : option Z :=
  let n := nat_of_ascii c in
  if (Nat.leb 48 n && Nat.leb n 57)%bool then Some (Z.of_nat n - 48) else None.

(** Reads the longest run of decimal digits at the head of [s]: the value
    accumulated onto [acc], the number of digits read and the rest. *)
Fixpoint takeDigits (s : string) (acc : Z) (cnt : Z) : Z * Z * string :=
  match s with
  | EmptyString => (acc, cnt, s)
  | String c r =>
      match digitOf c with
      | Some d => takeDigits r (10 * acc + d) (cnt + 1)
      | None => (acc, cnt, s)
      end
  end.

Definition takeSign (s : string) : bool * string :=
  match s with
  | String "-"%char r => (true, r)
  | String "+"%char r => (false, r)
  | _ => (false, s)
  end.

(** The exponent part [e[+-]digits], read only when a digit follows. *)
Definition takeExponent (s : string) : Z :=
  match s with
  | String c r =>
      if (Ascii.eqb c "e" || Ascii.eqb c "E")%bool then
        let '(sg, r1) := takeSign r in
        let '(e, n, _) := takeDigits r1 0 0 in
        if n =? 0 then 0 else if sg then - e else e
      else 0
  | EmptyString => 0
  end.

(** [parseFloat]: leading white space is skipped, then the longest prefix
    that is a decimal literal is converted; NaN when there is none.  (A
    literal of more than 20 significant digits is rounded from all its
    digits, as the engines do.) *)
Definition parseFloat (s : string) : jsnum :=
  let '(sg, s1) := takeSign (JsString.trimStart s) in
  if String.prefix "Infinity" s1 then S754_infinity sg
  else
    let '(ip, n1, s2) := takeDigits s1 0 0 in
    let '(m, n2, s3) :=
      match s2 with
      | String "."%char r => takeDigits r ip 0
      | _ => (ip, 0, s2)
      end in
    if n1 + n2 =? 0 then NaN
    else
      let e := takeExponent s3 in
      ofDecimal sg m (e - n2).

(** [Math.ceil (a / b)] for integers [a] and [b > 0] (the quotient of two
    integers of this size rounds to an integer only when it is one). *)
Definition ceilDiv (a b : Z) : Z := - ((- a) / b).

End JsNumber.

Export JsNumber(jsnum).

(** ** shared/schema.ts *)

Module Schema.

Record Property : Type := {
  p_id : Z;
  p_name : string;
  p_address : string;
  p_propertyType : string;
  p_rentExcludingVat : string;
  p_rentIncludingVat : string;
  p_isVatExempt : bool;
  p_tenantName : option string;
  p_tenantPhone : option string;
  p_tenantEmail : option string;
  p_leaseStartDate : option Z;
  p_leaseEndDate : option Z;
  p_isOccupied : bool;
  p_rentalAgreementPath : option string;
  p_agreementTemplatePath : option string;
  p_createdAt : Z;
  p_updatedAt : Z
}.

Record Notification : Type := {
  n_id : Z;
  n_propertyId : Z;
  n_type : string;
  n_message : string;
  n_isRead : bool;
  n_createdAt : Z
}.

Record InsertNotification : Type := {
  in_propertyId : Z;
  in_type : string;
  in_message : string;
  in_isRead : option bool
}.

Record Invoice : Type := {
  id : Z;
  propertyId : Z;
  invoiceNumber : string;
  amount : string;
  invoiceDate : Z;
  rentPeriodStart : Z;
  rentPeriodEnd : Z;
  dueDate : Z;
  sentDate : option Z;
  ccEmails : option (list string);
  status : string;
  description : option string;
  isNew : bool;
  createdAt : Z
}.

Record InsertInvoice : Type := {
  i_propertyId : Z;
  i_invoiceNumber : string;
  i_amount : string;
  i_invoiceDate : Z;
  i_rentPeriodStart : Z;
  i_rentPeriodEnd : Z;
  i_dueDate : Z;
  i_sentDate : option Z;
  i_ccEmails : option (list string);
  i_status : option string;
  i_description : option string;
  i_isNew : option bool
}.

(** [Partial<InsertInvoice>]: a field left out is [None]. *)
Record InvoiceUpdates : Type := {
  u_propertyId : option Z;
  u_invoiceNumber : option string;
  u_amount : option string;
  u_invoiceDate : option Z;
  u_rentPeriodStart : option Z;
  u_rentPeriodEnd : option Z;
  u_dueDate : option Z;
  u_sentDate : option (option Z);
  u_ccEmails : option (option (list string));
  u_status : option string;
  u_description : option (option string);
  u_isNew : option bool
}.

Record CompanySettings : Type := {
  cs_id : Z;
  cs_companyName : string;
  cs_registrationNumber : string;
  cs_vatNumber : string;
  cs_addressLine1 : string;
  cs_addressLine2 : string;
  cs_contactPerson : string;
  cs_phone : string;
  cs_email : string;
  cs_vatRate : string;
  cs_notifyLeaseExpiry : bool;
  cs_notifyInvoiceGeneration : bool;
  cs_notificationEmail : string;
  cs_updatedAt : Z
}.

End Schema.

Export Schema.


(** ** The world: database tables, sequences, clock and mail transport *)

(** The labels of the lines of the amount section of a document. *)
Inductive AmountLabel : Type :=
| LAmount
| LRentExcludingVat
| LVat (rate : jsnum)
| LAmountIncludingVat.

(** The rendered document, by what it prints. *)
Record PdfDoc : Type := {
  pdf_header : list string;
  pdf_invoiceNumber : string;
  pdf_invoiceDate : Z;
  pdf_dueDate : Z;
  pdf_billTo : list string;
  pdf_period : Z * Z;
  pdf_amountLines : list (AmountLabel * jsnum);
  pdf_total : jsnum
}.

(** One line of the monthly summary mail. *)
Record SummaryLine : Type := {
  sl_property : string;
  sl_invoiceNumber : string;
  sl_amount : string;
  sl_tenant : option string
}.

(** The HTML bodies are fixed templates; a body is the template and the
    values put into it. *)
Inductive MailBody : Type :=
| InvoiceMail (inv : Invoice) (prop : Property) (attachment : PdfDoc)
| LeaseExpiryAlert (prop : Property) (daysUntilExpiry : Z)
| InvoiceGenerated (prop : Property) (invoiceNumber : string)
| MonthlySummary (invoicesCreated : Z) (lines : list SummaryLine).

Record Mail : Type := {
  m_to : string;
  m_cc : option string;
  m_subject : string;
  m_body : MailBody
}.

Record World : Type := {
  db_properties : list Property;
  db_invoices : list Invoice;
  db_notifications : list Notification;
  db_companySettings : list CompanySettings;
  seq_invoices : Z;
  seq_notifications : Z;
  clock : Z;
  tza : Zone;
  smtp : Mail -> bool;
  outbox : list Mail
}.

Definition setInvoices (l : list Invoice) (s : Z) (w : World) : World :=
  {| db_properties := db_properties w; db_invoices := l;
     db_notifications := db_notifications w;
     db_companySettings := db_companySettings w;
     seq_invoices := s; seq_notifications := seq_notifications w;
     clock := clock w; tza := tza w; smtp := smtp w; outbox := outbox w |}.

Definition setNotifications (l : list Notification) (s : Z) (w : World) : World :=
  {| db_properties := db_properties w; db_invoices := db_invoices w;
     db_notifications := l;
     db_companySettings := db_companySettings w;
     seq_invoices := seq_invoices w; seq_notifications := s;
     clock := clock w; tza := tza w; smtp := smtp w; outbox := outbox w |}.

Definition setOutbox (l : list Mail) (w : World) : World :=
  {| db_properties := db_properties w; db_invoices := db_invoices w;
     db_notifications := db_notifications w;
     db_companySettings := db_companySettings w;
     seq_invoices := seq_invoices w; seq_notifications := seq_notifications w;
     clock := clock w; tza := tza w; smtp := smtp w; outbox := l |}.

(** The environment moving the wall clock between two requests. *)
Definition setClock (t : Z) (w : World) : World :=
  {| db_properties := db_properties w; db_invoices := db_invoices w;
     db_notifications := db_notifications w;
     db_companySettings := db_companySettings w;
     seq_invoices := seq_invoices w; seq_notifications := seq_notifications w;
     clock := t; tza := tza w; smtp := smtp w; outbox := outbox w |}.

(** ** Asynchronous computations: state and exceptions *)

Inductive outcome (A : Type) : Type :=
| Ok (a : A)
| Throw (e : string).

Arguments Ok {A} a.
Arguments Throw {A} e.

Definition M (A : Type) : Type := World -> outcome A * World.

Definition ret {A} (a : A) : M A := fun w => (Ok a, w).

Definition throw {A} (e : string) : M A := fun w => (Throw e, w).

Definition bind {A B} (m : M A) (k : A -> M B) : M B :=
  fun w =>
    match m w with
    | (Ok a, w') => k a w'
    | (Throw e, w') => (Throw e, w')
    end.

(** [try { m } catch (error) { h error }]. *)
Definition tryCatch {A} (m : M A) (h : string -> M A) : M A :=
  fun w =>
    match m w with
    | (Ok a, w') => (Ok a, w')
    | (Throw e, w') => h e w'
    end.

Declare Scope async_scope.
Delimit Scope async_scope with async.

Notation "x <- c1 ;; c2" := (bind c1 (fun x => c2))
  (at level 100, c1 at next level, right associativity) : async_scope.
Notation "c1 ;;; c2" := (bind c1 (fun _ => c2))
  (at level 100, right associativity) : async_scope.

Local Open Scope async_scope.

(** [new Date()] and [Date.now()]: the wall clock, which stands still while
    one request or job runs. *)
Definition now : M Z := fun w => (Ok (clock w), w).

Definition localTza : M Zone := fun w => (Ok (tza w), w).

(** [for (const x of l) { body x }]. *)
Fixpoint forOf {A} (l : list A) (body : A -> M unit) : M unit :=
  match l with
  | [] => ret tt
  | x :: r => body x ;;; forOf r body
  end.

(** A [for ... of] loop that updates local variables [s]. *)
Fixpoint foldOf {A S} (l : list A) (s : S) (body : S -> A -> M S) : M S :=
  match l with
  | [] => ret s
  | x :: r => s' <- body s x ;; foldOf r s' body
  end.

(** ** storage.ts: DatabaseStorage *)

Module Storage.

Definition getProperties : M (list Property) :=
  fun w => (Ok (db_properties w), w).

Definition getProperty (pid : Z) : M (option Property) :=
  fun w => (Ok (find (fun p => p_id p =? pid) (db_properties w)), w).

Definition getInvoicesByProperty (pid : Z) : M (list Invoice) :=
  fun w => (Ok (filter (fun i => propertyId i =? pid) (db_invoices w)), w).

Definition getInvoice (iid : Z) : M (option Invoice) :=
  fun w => (Ok (find (fun i => id i =? iid) (db_invoices w)), w).

Definition propertyExists (pid : Z) (w : World) : bool :=
  existsb (fun p => p_id p =? pid) (db_properties w).

Definition invoiceNumberTaken (n : string) (l : list Invoice) : bool :=
  existsb (fun i => String.eqb (invoiceNumber i) n) l.

(** The row an insert builds from the values of [createInvoice]. *)
Definition invoiceRow (newId : Z) (created : Z) (ins : InsertInvoice) : Invoice :=
  {| id := newId;
     propertyId := i_propertyId ins;
     invoiceNumber := i_invoiceNumber ins;
     amount := i_amount ins;
     invoiceDate := i_invoiceDate ins;
     rentPeriodStart := i_rentPeriodStart ins;
     rentPeriodEnd := i_rentPeriodEnd ins;
     dueDate := i_dueDate ins;
     sentDate := i_sentDate ins;
     ccEmails := Some (match i_ccEmails ins with Some l => l | None => [] end);
     status := JsString.or (match i_status ins with Some s => s | None => "" end) "draft";
     description :=
       match i_description ins with
       | Some d => if JsString.truthy d then Some d else None
       | None => None
       end;
     isNew := match i_isNew ins with Some b => b | None => true end;
     createdAt := created |}.

(** [createInvoice]: the insert takes the next value of the id sequence
    (consumed also when the insert fails) and is refused by the foreign key
    on [property_id] and by the unique constraint on [invoice_number]. *)
Definition createInvoice (ins : InsertInvoice) : M Invoice :=
  fun w =>
    let newId := seq_invoices w + 1 in
    if negb (propertyExists (i_propertyId ins) w) then
      (Throw "violates foreign key constraint invoices_property_id",
       setInvoices (db_invoices w) newId w)
    else if invoiceNumberTaken (i_invoiceNumber ins) (db_invoices w) then
      (Throw "duplicate key value violates unique constraint invoices_invoice_number_unique",
       setInvoices (db_invoices w) newId w)
    else
      let row := invoiceRow newId (clock w) ins in
      (Ok row, setInvoices (db_invoices w ++ [row]) newId w).

Definition setField {A} (u : option A) (old : A) : A :=
  match u with
  | Some v => v
  | None => old
  end.

Definition applyUpdates (u : InvoiceUpdates) (i : Invoice) : Invoice :=
  {| id := id i;
     propertyId := setField (u_propertyId u) (propertyId i);
     invoiceNumber := setField (u_invoiceNumber u) (invoiceNumber i);
     amount := setField (u_amount u) (amount i);
     invoiceDate := setField (u_invoiceDate u) (invoiceDate i);
     rentPeriodStart := setField (u_rentPeriodStart u) (rentPeriodStart i);
     rentPeriodEnd := setField (u_rentPeriodEnd u) (rentPeriodEnd i);
     dueDate := setField (u_dueDate u) (dueDate i);
     sentDate := setField (u_sentDate u) (sentDate i);
     ccEmails := setField (u_ccEmails u) (ccEmails i);
     status := setField (u_status u) (status i);
     description := setField (u_description u) (description i);
     isNew := setField (u_isNew u) (isNew i);
     createdAt := createdAt i |}.

Definition updateWhere (iid : Z) (f : Invoice -> Invoice) (l : list Invoice) : list Invoice :=
  map (fun i => if id i =? iid then f i else i) l.

(** [updateInvoice]: an update that changes [invoice_number] to one held by
    another row, or [property_id] to a missing property, is refused. *)
Definition updateInvoice (iid : Z) (u : InvoiceUpdates) : M (option Invoice) :=
  fun w =>
    match find (fun i => id i =? iid) (db_invoices w) with
    | None => (Ok None, w)
    | Some old =>
        let fkBad :=
          match u_propertyId u with
          | Some pid => negb (propertyExists pid w)
          | None => false
          end in
        let uniqueBad :=
          match u_invoiceNumber u with
          | Some n =>
              invoiceNumberTaken n
                (filter (fun i => negb (id i =? iid)) (db_invoices w))
          | None => false
          end in
        if fkBad then
          (Throw "violates foreign key constraint invoices_property_id", w)
        else if uniqueBad then
          (Throw "duplicate key value violates unique constraint invoices_invoice_number_unique", w)
        else
          (Ok (Some (applyUpdates u old)),
           setInvoices (updateWhere iid (applyUpdates u) (db_invoices w))
             (seq_invoices w) w)
    end.

Definition withStatus (st : string) (i : Invoice) : Invoice :=
  {| id := id i;
     propertyId := propertyId i;
     invoiceNumber := invoiceNumber i;
     amount := amount i;
     invoiceDate := invoiceDate i;
     rentPeriodStart := rentPeriodStart i;
     rentPeriodEnd := rentPeriodEnd i;
     dueDate := dueDate i;
     sentDate := sentDate i;
     ccEmails := ccEmails i;
     status := st;
     description := description i;
     isNew := isNew i;
     createdAt := createdAt i |}.

Definition updateInvoiceStatus (iid : Z) (st : string) : M (option Invoice) :=
  fun w =>
    match find (fun i => id i =? iid) (db_invoices w) with
    | None => (Ok None, w)
    | Some old =>
        (Ok (Some (withStatus st old)),
         setInvoices (updateWhere iid (withStatus st) (db_invoices w))
           (seq_invoices w) w)
    end.

Definition createNotification (ins : InsertNotification) : M Notification :=
  fun w =>
    let newId := seq_notifications w + 1 in
    if negb (propertyExists (in_propertyId ins) w) then
      (Throw "violates foreign key constraint notifications_property_id",
       setNotifications (db_notifications w) newId w)
    else
      let row :=
        {| n_id := newId;
           n_propertyId := in_propertyId ins;
           n_type := in_type ins;
           n_message := in_message ins;
           n_isRead := match in_isRead ins with Some b => b | None => false end;
           n_createdAt := clock w |} in
      (Ok row, setNotifications (db_notifications w ++ [row]) newId w).

Definition getCompanySettings : M (option CompanySettings) :=
  fun w => (Ok (hd_error (db_companySettings w)), w).

End Storage.

(** ** pdfService.ts *)

Module PdfService.

(** [companySettings?.field || dflt]. *)
Definition settingOr (cs : option CompanySettings)
  (field : CompanySettings -> string) (dflt : string) : string :=
  match cs with
  | Some c => JsString.or (field c) dflt
  | None => dflt
  end.

(** [parseFloat(companySettings?.vatRate || '15.00')]. *)
Definition vatRate (cs : option CompanySettings) : jsnum :=
  JsNumber.parseFloat (settingOr cs cs_vatRate "15.00").

(** The amount breakdown of the document (the text put at y = 190 and
    below), each line with the number it prints. *)
Definition amountBreakdown (cs : option CompanySettings) (invoice : Invoice)
  (property : Property) : list (AmountLabel * jsnum) :=
  let invoiceAmount := JsNumber.parseFloat (amount invoice) in
  if p_isVatExempt property then
    [(LAmount, invoiceAmount)]
  else
    let vatRate := vatRate cs in
    let vatMultiplier := JsNumber.add (JsNumber.ofZ 1) (JsNumber.div vatRate (JsNumber.ofZ 100)) in
    let rentExcludingVat := JsNumber.div invoiceAmount vatMultiplier in
    let vatAmount := JsNumber.sub invoiceAmount rentExcludingVat in
    [(LRentExcludingVat, rentExcludingVat);
     (LVat vatRate, vatAmount);
     (LAmountIncludingVat, invoiceAmount)].

(** The document that [generateInvoicePDF] lays out. *)
Definition document (companySettings : option CompanySettings)
  (invoice : Invoice) (property : Property) : PdfDoc :=
  {| pdf_header :=
       [settingOr companySettings cs_companyName "NEWALD FULLARD TRUST";
        settingOr companySettings cs_registrationNumber "IT3469/1996";
        "VAT REG NO: " ++ settingOr companySettings cs_vatNumber "4820187534";
        settingOr companySettings cs_addressLine1 "P.O. Box 3016";
        settingOr companySettings cs_addressLine2 "Paarl, 7646";
        "Trustee: " ++ settingOr companySettings cs_contactPerson "Newald Fullard";
        "Tel: " ++ settingOr companySettings cs_phone "0711426452";
        "Email: " ++ settingOr companySettings cs_email "fullardpropertymgmt@gmail.com"];
     pdf_invoiceNumber := invoiceNumber invoice;
     pdf_invoiceDate := invoiceDate invoice;
     pdf_dueDate := dueDate invoice;
     pdf_billTo :=
       [JsString.orOpt (p_tenantName property) "N/A";
        p_name property;
        p_address property;
        "Email: " ++ JsString.orOpt (p_tenantEmail property) "N/A";
        "Phone: " ++ JsString.orOpt (p_tenantPhone property) "N/A"];
     pdf_period := (rentPeriodStart invoice, rentPeriodEnd invoice);
     pdf_amountLines := amountBreakdown companySettings invoice property;
     pdf_total := JsNumber.parseFloat (amount invoice) |}.

Definition generateInvoicePDF (invoice : Invoice) (property : Property) : M PdfDoc :=
  companySettings <- Storage.getCompanySettings ;;
  ret (document companySettings invoice property).

End PdfService.

(** ** The property form of the client (add/edit property modal) *)

Module Client.

Definition getVatMultiplier (companySettings : option CompanySettings) : jsnum :=
  let vatRate := JsNumber.parseFloat (PdfService.settingOr companySettings cs_vatRate "15.00") in
  JsNumber.add (JsNumber.ofZ 1) (JsNumber.div vatRate (JsNumber.ofZ 100)).

End Client.

(** ** emailService.ts *)

Module EmailService.

(** [transporter.sendMail]: the transport accepts the mail or fails. *)
Definition sendMail (m : Mail) : M unit :=
  fun w =>
    if smtp w m then (Ok tt, setOutbox (outbox w ++ [m]) w)
    else (Throw "sendMail failed", w).

(** The object literal [mailOptions] of [sendInvoice]. *)
Definition mailOptions (invoice : Invoice) (property : Property)
  (ccEmails : list string) (pdfBuffer : PdfDoc) : Mail :=
  {| m_to := JsString.orOpt (p_tenantEmail property) "";
     m_cc := if (0 <? Z.of_nat (List.length ccEmails))
             then Some (JsString.join ", " ccEmails) else None;
     m_subject := "Invoice " ++ invoiceNumber invoice ++ " - " ++ p_name property;
     m_body := InvoiceMail invoice property pdfBuffer |}.

Definition sendInvoice (invoice : Invoice) (property : Property)
  (ccEmails : list string) : M bool :=
  tryCatch
    (pdfBuffer <- PdfService.generateInvoicePDF invoice property ;;
     if negb (JsString.truthyOpt (p_tenantEmail property)) then
       throw "Tenant email is required to send invoice"
     else
       sendMail (mailOptions invoice property ccEmails pdfBuffer) ;;;
       ret true)
    (fun _ => ret false).

Definition sendNotificationEmail (to subject : string) (htmlContent : MailBody) : M bool :=
  tryCatch
    (sendMail {| m_to := to; m_cc := None; m_subject := subject;
                 m_body := htmlContent |} ;;;
     ret true)
    (fun _ => ret false).

End EmailService.

(** ** notificationService.ts *)

Module NotificationService.

Definition settingOn (cs : option CompanySettings)
  (flag : CompanySettings -> bool) : bool :=
  match cs with
  | Some c => flag c
  | None => false
  end.

Definition sendLeaseExpiryNotification (property : Property)
  (daysUntilExpiry : Z) : M bool :=
  tryCatch
    (companySettings <- Storage.getCompanySettings ;;
     if negb (settingOn companySettings cs_notifyLeaseExpiry) then ret false
     else
       let notificationEmail :=
         PdfService.settingOr companySettings cs_notificationEmail
           "fullardpropertymgmt@gmail.com" in
       EmailService.sendNotificationEmail notificationEmail
         ("Lease Expiry Alert - " ++ p_name property)
         (LeaseExpiryAlert property daysUntilExpiry))
    (fun _ => ret false).

Definition sendInvoiceGenerationNotification (property : Property)
  (invoiceNumber : string) : M bool :=
  tryCatch
    (companySettings <- Storage.getCompanySettings ;;
     if negb (settingOn companySettings cs_notifyInvoiceGeneration) then ret false
     else
       let notificationEmail :=
         PdfService.settingOr companySettings cs_notificationEmail
           "fullardpropertymgmt@gmail.com" in
       EmailService.sendNotificationEmail notificationEmail
         ("Invoice Generated - " ++ invoiceNumber)
         (InvoiceGenerated property invoiceNumber))
    (fun _ => ret false).

(** [Math.ceil(timeDiff / (1000 * 3600 * 24))]. *)
Definition daysUntilExpiry (leaseEndDate currentDate : Z) : Z :=
  let timeDiff := leaseEndDate - currentDate in
  JsNumber.ceilDiv timeDiff (1000 * 3600 * 24).

Definition isTriggerDay (d : Z) : bool :=
  ((d =? 30) || (d =? 7) || (d =? 1))%bool.

(** The body of the loop over the properties. *)
Definition checkProperty (currentDate : Z) (property : Property) : M unit :=
  if p_isOccupied property then
    match p_leaseEndDate property with
    | Some leaseEndDate =>
        let d := daysUntilExpiry leaseEndDate currentDate in
        if isTriggerDay d then
          sendLeaseExpiryNotification property d ;;; ret tt
        else ret tt
    | None => ret tt
    end
  else ret tt.

Definition checkAndSendLeaseExpiryNotifications : M unit :=
  tryCatch
    (properties <- Storage.getProperties ;;
     currentDate <- now ;;
     forOf properties (checkProperty currentDate))
    (fun _ => ret tt).

End NotificationService.

(** ** invoiceService.ts *)

Module InvoiceService.

(** The argument [property: any] of the invoice builders: a row of the
    properties table, and the [ccEmails] the builders read from the object
    (the table has no such column). *)
Record AnyProperty : Type := {
  row : Property;
  any_ccEmails : option (list string)
}.

Definition ofRow (p : Property) : AnyProperty :=
  {| row := p; any_ccEmails := None |}.

(** [`INV-${year}${(month + 1).toString().padStart(2, '0')}-${id.toString().padStart(3, '0')}`]. *)
Definition scheduledNumber (currentYear currentMonth pid : Z) : string :=
  "INV-" ++ JsString.toString currentYear
    ++ JsString.padStart 2 "0" (JsString.toString (currentMonth + 1))
    ++ "-" ++ JsString.padStart 3 "0" (JsString.toString pid).

(** The object literal [newInvoice] of both builders. *)
Definition newInvoice (z : Zone) (currentYear currentMonth : Z) (number : string)
  (property : AnyProperty) : InsertInvoice :=
  let invoiceDate := mkDate z currentYear currentMonth 1 in
  let dueDate := mkDate z currentYear currentMonth 7 in
  let rentPeriodEndDate := mkDate z currentYear (currentMonth + 1) 0 in
  {| i_propertyId := p_id (row property);
     i_invoiceNumber := number;
     i_amount :=
       JsString.or (p_rentIncludingVat (row property))
         (JsString.or (p_rentExcludingVat (row property)) "0");
     i_invoiceDate := invoiceDate;
     i_rentPeriodStart := invoiceDate;
     i_rentPeriodEnd := rentPeriodEndDate;
     i_dueDate := dueDate;
     i_sentDate := None;
     i_ccEmails :=
       Some (match any_ccEmails property with Some l => l | None => [] end);
     i_status := Some "draft";
     i_description :=
       Some ("Rental for " ++ p_propertyType (row property) ++ " - "
             ++ toLocaleMonthYear z invoiceDate);
     i_isNew := None |}.

(** [invDate.getMonth() === currentMonth && invDate.getFullYear() === currentYear]. *)
Definition inMonth (z : Zone) (currentYear currentMonth : Z) (invoice : Invoice) : bool :=
  let invDate := invoiceDate invoice in
  ((getMonth z invDate =? currentMonth)
   && (getFullYear z invDate =? currentYear))%bool.

Definition createInvoiceForProperty (property : AnyProperty) : M (option Invoice) :=
  currentDate <- now ;;
  z <- localTza ;;
  let currentMonth := getMonth z currentDate in
  let currentYear := getFullYear z currentDate in
  existingInvoices <- Storage.getInvoicesByProperty (p_id (row property)) ;;
  let monthInvoiceExists :=
    existsb (inMonth z currentYear currentMonth) existingInvoices in
  if monthInvoiceExists then ret None
  else
    let invoiceNumber :=
      scheduledNumber currentYear currentMonth (p_id (row property)) in
    createdInvoice <-
      Storage.createInvoice
        (newInvoice z currentYear currentMonth invoiceNumber property) ;;
    ret (Some createdInvoice).

Definition sendInvoiceCreationSummary (invoicesCreated : Z)
  (createdInvoices : list SummaryLine) : M bool :=
  tryCatch
    (companySettings <- Storage.getCompanySettings ;;
     if negb (NotificationService.settingOn companySettings cs_notifyInvoiceGeneration)
     then ret false
     else
       let notificationEmail :=
         PdfService.settingOr companySettings cs_notificationEmail
           "fullardpropertymgmt@gmail.com" in
       currentDate <- now ;;
       z <- localTza ;;
       let monthName := toLocaleMonthYear z currentDate in
       EmailService.sendNotificationEmail notificationEmail
         ("Monthly Invoices Created - " ++ monthName)
         (MonthlySummary invoicesCreated createdInvoices))
    (fun _ => ret false).

(** The filter of [generateMonthlyInvoices]. *)
Definition isBillable (currentDate : Z) (p : Property) : bool :=
  (JsString.truthyOpt (p_tenantName p)
   && negb (String.eqb (JsString.trim (JsString.orOpt (p_tenantName p) "")) "")
   && match p_leaseStartDate p with Some _ => true | None => false end
   && match p_leaseEndDate p with
      | Some leaseEndDate => currentDate <? leaseEndDate
      | None => false
      end)%bool.

(** The body of the loop of [generateMonthlyInvoices]; the loop variables
    are [invoicesCreated] and [createdInvoices]. *)
Definition monthlyStep (acc : Z * list SummaryLine) (property : Property)
  : M (Z * list SummaryLine) :=
  invoice <- createInvoiceForProperty (ofRow property) ;;
  match invoice with
  | Some inv =>
      ret (fst acc + 1,
           (snd acc ++ [{| sl_property := p_name property;
                           sl_invoiceNumber := invoiceNumber inv;
                           sl_amount := amount inv;
                           sl_tenant := p_tenantName property |}])%list)
  | None => ret acc
  end.

Definition generateMonthlyInvoices : M unit :=
  tryCatch
    (properties <- Storage.getProperties ;;
     currentDate <- now ;;
     let occupiedProperties := filter (isBillable currentDate) properties in
     acc <- foldOf occupiedProperties (0, []) monthlyStep ;;
     if 0 <? fst acc then
       sendInvoiceCreationSummary (fst acc) (snd acc) ;;; ret tt
     else ret tt)
    (fun _ => ret tt).

(** [`INV-...-${Date.now().toString().slice(-4)}`]. *)
Definition manualNumber (currentYear currentMonth pid nowMs : Z) : string :=
  scheduledNumber currentYear currentMonth pid
    ++ "-" ++ JsString.sliceLast 4 (JsString.toString nowMs).

Definition createManualInvoiceForProperty (property : AnyProperty) : M unit :=
  currentDate <- now ;;
  z <- localTza ;;
  let currentMonth := getMonth z currentDate in
  let currentYear := getFullYear z currentDate in
  nowMs <- now ;;
  let invoiceNumber :=
    manualNumber currentYear currentMonth (p_id (row property)) nowMs in
  tryCatch
    (Storage.createInvoice
       (newInvoice z currentYear currentMonth invoiceNumber property) ;;;
     NotificationService.sendInvoiceGenerationNotification
       (row property) invoiceNumber ;;;
     ret tt)
    (fun error => throw error).

Definition manualGenerateInvoice (pid : Z) : M bool :=
  property <- Storage.getProperty pid ;;
  match property with
  | None => throw "Property not found"
  | Some p =>
      createManualInvoiceForProperty (ofRow p) ;;;
      ret true
  end.

End InvoiceService.

(** ** routes.ts *)

Module Json.

(** A value of a request body; [JObject] stands for any array or object. *)
Inductive value : Type :=
| JUndefined
| JNull
| JBool (b : bool)
| JNumber (n : jsnum)
| JString (s : string)
| JObject.

Definition truthy (v : value) : bool :=
  match v with
  | JUndefined => false
  | JNull => false
  | JBool b => b
  | JNumber S754_nan => false
  | JNumber (S754_zero _) => false
  | JNumber _ => true
  | JString s => JsString.truthy s
  | JObject => true
  end.

(** [l.includes(v)] for an array [l] of strings. *)
Definition includes (l : list string) (v : value) : bool :=
  match v with
  | JString s => existsb (String.eqb s) l
  | _ => false
  end.

(** The text a string value is written as. *)
Definition text (v : value) : string :=
  match v with
  | JString s => s
  | _ => ""
  end.

End Json.

Module Routes.

Inductive Body : Type :=
| Message (message : string)
| InvoiceJson (invoice : Invoice)
| SentJson (message sentTo : string) (ccEmails : list string).

Record Response : Type := {
  res_status : Z;
  res_body : Body
}.

(** [res.status(code).json({ message })]; [res.json] alone answers 200. *)
Definition respond (code : Z) (b : Body) : M Response :=
  ret {| res_status := code; res_body := b |}.

(** POST /api/properties/:id/invoice *)
Definition postPropertyInvoice (pid : Z) : M Response :=
  tryCatch
    (success <- InvoiceService.manualGenerateInvoice pid ;;
     if negb success then
       respond 400 (Message "Cannot generate invoice for this property")
     else respond 200 (Message "Invoice generated successfully"))
    (fun _ => respond 500 (Message "Failed to generate invoice")).

(** POST /api/properties/:id/generate-invoice *)
Definition postPropertyGenerateInvoice (pid : Z) : M Response :=
  tryCatch
    (success <- InvoiceService.manualGenerateInvoice pid ;;
     if negb success then
       respond 400 (Message "Cannot generate invoice for this property")
     else respond 200 (Message "Invoice generated successfully"))
    (fun _ => respond 500 (Message "Failed to generate invoice")).

(** The update of the send route:
    [{ ccEmails, status: 'sent', sentDate: new Date(), isNew: false }]. *)
Definition sentUpdates (ccEmails : list string) (sent : Z) : InvoiceUpdates :=
  {| u_propertyId := None; u_invoiceNumber := None; u_amount := None;
     u_invoiceDate := None; u_rentPeriodStart := None;
     u_rentPeriodEnd := None; u_dueDate := None;
     u_sentDate := Some (Some sent);
     u_ccEmails := Some (Some ccEmails);
     u_status := Some "sent";
     u_description := None;
     u_isNew := Some false |}.

(** POST /api/invoices/:id/send; [bodyCcEmails] is [req.body.ccEmails],
    [None] when the body has none. *)
Definition postInvoiceSend (iid : Z) (bodyCcEmails : option (list string)) : M Response :=
  tryCatch
    (let ccEmails := match bodyCcEmails with Some l => l | None => [] end in
     invoice <- Storage.getInvoice iid ;;
     match invoice with
     | None => respond 404 (Message "Invoice not found")
     | Some invoice =>
         property <- Storage.getProperty (propertyId invoice) ;;
         match property with
         | None => respond 404 (Message "Property not found")
         | Some property =>
             if negb (JsString.truthyOpt (p_tenantEmail property)) then
               respond 400 (Message "Tenant email not found")
             else
               emailSent <- EmailService.sendInvoice invoice property ccEmails ;;
               if negb emailSent then
                 respond 500 (Message "Failed to send invoice email")
               else
                 sent <- now ;;
                 Storage.updateInvoice iid (sentUpdates ccEmails sent) ;;;
                 Storage.createNotification
                   {| in_propertyId := p_id property;
                      in_type := "invoice_sent";
                      in_message :=
                        "Invoice " ++ invoiceNumber invoice ++ " sent to "
                          ++ JsString.orOpt (p_tenantEmail property) "";
                      in_isRead := Some false |} ;;;
                 respond 200
                   (SentJson "Invoice sent successfully"
                      (JsString.orOpt (p_tenantEmail property) "") ccEmails)
         end
     end)
    (fun _ => respond 500 (Message "Failed to send invoice")).

(** PUT /api/invoices/:id/status; [status] is [req.body.status]. *)
Definition putInvoiceStatus (iid : Z) (status : Json.value) : M Response :=
  tryCatch
    (if (negb (Json.truthy status)
         || negb (Json.includes ["draft"; "sent"; "paid"] status))%bool then
       respond 400 (Message "Invalid status")
     else
       invoice <- Storage.updateInvoiceStatus iid (Json.text status) ;;
       match invoice with
       | None => respond 404 (Message "Invoice not found")
       | Some invoice => respond 200 (InvoiceJson invoice)
       end)
    (fun _ => respond 500 (Message "Failed to update invoice")).

End Routes.

(** ** storage.ts: deleting rows and marking notifications *)

Module DatabaseStorage.

Definition setProperties (l : list Property) (w : World) : World :=
  {| db_properties := l; db_invoices := db_invoices w;
     db_notifications := db_notifications w;
     db_companySettings := db_companySettings w;
     seq_invoices := seq_invoices w; seq_notifications := seq_notifications w;
     clock := clock w; tza := tza w; smtp := smtp w; outbox := outbox w |}.

(** [db.delete(invoices).where(eq(invoices.id, id))]; the answer is
    [rowCount > 0]. *)
Definition deleteInvoice (iid : Z) : M bool :=
  fun w =>
    (Ok (existsb (fun i => id i =? iid) (db_invoices w)),
     setInvoices (filter (fun i => negb (id i =? iid)) (db_invoices w))
       (seq_invoices w) w).

Definition markRead (n : Notification) : Notification :=
  {| n_id := n_id n;
     n_propertyId := n_propertyId n;
     n_type := n_type n;
     n_message := n_message n;
     n_isRead := true;
     n_createdAt := n_createdAt n |}.

(** [db.update(notifications).set({ isRead: true }).where(eq(notifications.id, id))]. *)
Definition markNotificationAsRead (nid : Z) : M bool :=
  fun w =>
    (Ok (existsb (fun n => n_id n =? nid) (db_notifications w)),
     setNotifications
       (map (fun n => if n_id n =? nid then markRead n else n)
          (db_notifications w))
       (seq_notifications w) w).

(** [db.delete(notifications)]: every row goes, the sequence stays. *)
Definition clearAllNotifications : M bool :=
  fun w =>
    (Ok (0 <? Z.of_nat (List.length (db_notifications w))),
     setNotifications [] (seq_notifications w) w).

(** [deleteProperty]: the invoices and the notifications of the property
    are deleted before the property, so that the foreign keys never refuse
    the last delete. *)
Definition deleteProperty (pid : Z) : M bool :=
  tryCatch
    (fun w =>
       let property := filter (fun p => p_id p =? pid) (db_properties w) in
       if (Z.of_nat (List.length property) =? 0) then (Ok false, w)
       else
         let w1 :=
           setInvoices
             (filter (fun i => negb (propertyId i =? pid)) (db_invoices w))
             (seq_invoices w) w in
         let w2 :=
           setNotifications
             (filter (fun n => negb (n_propertyId n =? pid))
                (db_notifications w1))
             (seq_notifications w1) w1 in
         (Ok (existsb (fun p => p_id p =? pid) (db_properties w2)),
          setProperties
            (filter (fun p => negb (p_id p =? pid)) (db_properties w2)) w2))
    (fun _ => ret false).

End DatabaseStorage.

(** ** routes.ts: the routes that delete, mark, preview and count *)

Module Api.

(** The object the dashboard route answers with. *)
Record Stats : Type := {
  totalProperties : Z;
  occupiedProperties : Z;
  monthlyRevenue : jsnum;
  expiringSoon : Z;
  expiringCritical : Z
}.

(** What a route sends: a JSON message, an empty body, the PDF shown
    inline under a file name, or the dashboard numbers. *)
Inductive Payload : Type :=
| MessageJson (message : string)
| NoBody
| InlinePdf (filename : string) (pdfBuffer : PdfDoc)
| StatsJson (stats : Stats).

Record Answer : Type := {
  ans_status : Z;
  ans_payload : Payload
}.

Definition answer (code : Z) (p : Payload) : M Answer :=
  ret {| ans_status := code; ans_payload := p |}.

(** DELETE /api/invoices/:id *)
Definition deleteInvoice (iid : Z) : M Routes.Response :=
  tryCatch
    (success <- DatabaseStorage.deleteInvoice iid ;;
     if negb success then
       Routes.respond 404 (Routes.Message "Invoice not found")
     else Routes.respond 200 (Routes.Message "Invoice deleted successfully"))
    (fun _ => Routes.respond 500 (Routes.Message "Failed to delete invoice")).

(** PUT /api/notifications/:id/read *)
Definition putNotificationRead (nid : Z) : M Routes.Response :=
  tryCatch
    (success <- DatabaseStorage.markNotificationAsRead nid ;;
     if negb success then
       Routes.respond 404 (Routes.Message "Notification not found")
     else Routes.respond 200 (Routes.Message "Notification marked as read"))
    (fun _ => Routes.respond 500 (Routes.Message "Failed to update notification")).

(** DELETE /api/notifications *)
Definition deleteNotifications : M Routes.Response :=
  tryCatch
    (success <- DatabaseStorage.clearAllNotifications ;;
     if negb success then
       Routes.respond 404 (Routes.Message "No notifications to clear")
     else
       Routes.respond 200 (Routes.Message "All notifications cleared successfully"))
    (fun _ => Routes.respond 500 (Routes.Message "Failed to clear notifications")).

(** DELETE /api/properties/:id *)
Definition deleteProperty (pid : Z) : M Answer :=
  tryCatch
    (deleted <- DatabaseStorage.deleteProperty pid ;;
     if negb deleted then answer 404 (MessageJson "Property not found")
     else answer 204 NoBody)
    (fun _ => answer 500 (MessageJson "Failed to delete property")).

(** GET /api/invoices/:id/pdf *)
Definition getInvoicePdf (iid : Z) : M Answer :=
  tryCatch
    (invoice <- Storage.getInvoice iid ;;
     match invoice with
     | None => answer 404 (MessageJson "Invoice not found")
     | Some invoice =>
         property <- Storage.getProperty (propertyId invoice) ;;
         match property with
         | None => answer 404 (MessageJson "Property not found")
         | Some property =>
             pdfBuffer <- PdfService.generateInvoicePDF invoice property ;;
             answer 200
               (InlinePdf ("invoice-" ++ invoiceNumber invoice ++ ".pdf")
                  pdfBuffer)
         end
     end)
    (fun _ => answer 500 (MessageJson "Failed to generate invoice PDF")).

(** The filter of [expiringSoon] (limit 60) and [expiringCritical]
    (limit 30). *)
Definition expiresWithin (limit nowMs : Z) (p : Property) : bool :=
  match p_leaseEndDate p with
  | None => false
  | Some leaseEndDate =>
      let daysUntilExpiry :=
        JsNumber.ceilDiv (leaseEndDate - nowMs) (1000 * 60 * 60 * 24) in
      ((daysUntilExpiry <=? limit) && (0 <? daysUntilExpiry))%bool
  end.

Definition stats (properties : list Property) (nowMs : Z) : Stats :=
  {| totalProperties := Z.of_nat (List.length properties);
     occupiedProperties :=
       Z.of_nat (List.length (filter p_isOccupied properties));
     monthlyRevenue :=
       fold_left
         (fun sum p => JsNumber.add sum (JsNumber.parseFloat (p_rentIncludingVat p)))
         (filter p_isOccupied properties) (JsNumber.ofZ 0);
     expiringSoon :=
       Z.of_nat (List.length (filter (expiresWithin 60 nowMs) properties));
     expiringCritical :=
       Z.of_nat (List.length (filter (expiresWithin 30 nowMs) properties)) |}.


End Api.

(** ** client/src/lib: date-utils.ts and property-utils.ts *)

(** The functions of the client read the clock with [new Date()]; its
    value, the same wherever one call reads it, is the argument [nowMs].
    A date is given as a [Date] (the branch that parses a string first is
    left out). *)

Module DateUtils.

Definition getDaysUntilExpiry (nowMs endDate : Z) : Z :=
  let timeDiff := endDate - nowMs in
  JsNumber.ceilDiv timeDiff (1000 * 60 * 60 * 24).

Inductive LeaseStatus : Type :=
| LeaseActive
| LeaseExpiringSoon
| LeaseCritical
| LeaseExpired
| LeaseNotStarted.

Definition getLeaseStatus (nowMs : Z) (startDate endDate : option Z) : LeaseStatus :=
  match startDate, endDate with
  | Some startDate, Some endDate =>
      let daysUntilExpiry := getDaysUntilExpiry nowMs endDate in
      if nowMs <? startDate then LeaseNotStarted
      else if daysUntilExpiry <? 0 then LeaseExpired
      else if daysUntilExpiry <=? 30 then LeaseCritical
      else if daysUntilExpiry <=? 60 then LeaseExpiringSoon
      else LeaseActive
  | _, _ => LeaseActive
  end.

End DateUtils.

Module PropertyUtils.

Inductive PropertyStatus : Type :=
| Leased
| ExpiringSoon
| Critical
| Available.

Definition getPropertyStatus (nowMs : Z) (property : Property) : PropertyStatus :=
  if negb (p_isOccupied property) then Available
  else
    match p_leaseEndDate property with
    | None => Leased
    | Some leaseEndDate =>
        let daysUntilExpiry := DateUtils.getDaysUntilExpiry nowMs leaseEndDate in
        if daysUntilExpiry <=? 30 then Critical
        else if daysUntilExpiry <=? 60 then ExpiringSoon
        else Leased
    end.

Definition statusEqb (a b : PropertyStatus) : bool :=
  match a, b with
  | Leased, Leased => true
  | ExpiringSoon, ExpiringSoon => true
  | Critical, Critical => true
  | Available, Available => true
  | _, _ => false
  end.

(** The object literal [statusPriority]. *)
Definition statusPriority (s : PropertyStatus) : Z :=
  match s with
  | Critical => 0
  | ExpiringSoon => 1
  | Leased => 2
  | Available => 3
  end.

(** [Array.prototype.sort] with a comparator that is the difference of a
    key: the sort is stable, so the result is the stable sort by the key.
    Insertion from the right puts an element before the first one whose key
    is not smaller. *)
Fixpoint insertByKey {A} (key : A -> Z) (x : A) (l : list A) : list A :=
  match l with
  | [] => [x]
  | y :: r => if key x <=? key y then x :: l else y :: insertByKey key x r
  end.

Definition sortByKey {A} (key : A -> Z) (l : list A) : list A :=
  fold_right (insertByKey key) [] l.

Definition sortPropertiesByStatus (nowMs : Z) (properties : list Property)
  : list Property :=
  sortByKey (fun p => statusPriority (getPropertyStatus nowMs p)) properties.

(** [status] is [None] for ["all"]. *)
Definition filterPropertiesByStatus (nowMs : Z) (properties : list Property)
  (status : option PropertyStatus) : list Property :=
  match status with
  | None => properties
  | Some s =>
      filter (fun property => statusEqb (getPropertyStatus nowMs property) s)
        properties
  end.

End PropertyUtils.

(** ** Vocabulary of the statements *)

(** Number of invoices of property [pid] whose invoice date falls in month
    [mo] of year [y] (local time). *)
Definition monthCount (z : Zone) (y mo pid : Z) (l : list Invoice) : nat :=
  List.length
    (filter (InvoiceService.inMonth z y mo)
       (filter (fun i => propertyId i =? pid) l)).

(** The stored state of an invoice that the send operation may touch. *)
Definition sendState (i : Invoice) : string * option Z * bool * option (list string) :=
  (status i, sentDate i, isNew i, ccEmails i).

(** The fields of an invoice that the send operation must leave alone. *)
Definition sendFrame (i : Invoice) :=
  (id i, propertyId i, invoiceNumber i, amount i, invoiceDate i,
   rentPeriodStart i, rentPeriodEnd i, dueDate i, description i, createdAt i).

(** Every field of an invoice but its status. *)
Definition statusFrame (i : Invoice) :=
  (id i, propertyId i, invoiceNumber i, amount i, invoiceDate i,
   rentPeriodStart i, rentPeriodEnd i, dueDate i, sentDate i, ccEmails i,
   description i, isNew i, createdAt i).

(** The notifier is due for a property: occupied, with a lease end date
    that is 30, 7 or 1 days away. *)
Definition leaseAlertDue (currentDate : Z) (p : Property) : bool :=
  (p_isOccupied p
   && match p_leaseEndDate p with
      | Some e =>
          NotificationService.isTriggerDay
            (NotificationService.daysUntilExpiry e currentDate)
      | None => false
      end)%bool.

(** The address notifications go to: the one stored in the settings, or
    the default when no settings are stored or the stored address is the
    empty string. *)
Definition operatorAddress (cs : option CompanySettings) : string :=
  match cs with
  | Some c =>
      if String.eqb (cs_notificationEmail c) ""
      then "fullardpropertymgmt@gmail.com" else cs_notificationEmail c
  | None => "fullardpropertymgmt@gmail.com"
  end.

(** The lease-expiry mail of a property, addressed from the settings. *)
Definition leaseAlertMail (cs : option CompanySettings) (currentDate : Z)
  (p : Property) : Mail :=
  {| m_to := operatorAddress cs;
     m_cc := None;
     m_subject := "Lease Expiry Alert - " ++ p_name p;
     m_body :=
       LeaseExpiryAlert p
         (match p_leaseEndDate p with
          | Some e => NotificationService.daysUntilExpiry e currentDate
          | None => 0
          end) |}.

(** The world after the transport delivered the mails [l], nothing else
    having changed. *)
Definition deliver (l : list Mail) (w : World) : World :=
  match l with
  | [] => w
  | _ :: _ => setOutbox (outbox w ++ l) w
  end.

(** ** Sample data *)

(** A let flat in Paarl, rent 1000.00 before and 1150.00 after VAT. *)
Definition sampleProperty : Property :=
  {| p_id := 1;
     p_name := "Flat 1";
     p_address := "1 Main Road, Paarl";
     p_propertyType := "apartment";
     p_rentExcludingVat := "1000.00";
     p_rentIncludingVat := "1150.00";
     p_isVatExempt := false;
     p_tenantName := Some "Jo Soap";
     p_tenantPhone := None;
     p_tenantEmail := Some "jo@example.com";
     p_leaseStartDate := Some 1767225600000;
     p_leaseEndDate := Some 1794211200000;
     p_isOccupied := true;
     p_rentalAgreementPath := None;
     p_agreementTemplatePath := None;
     p_createdAt := 1767225600000;
     p_updatedAt := 1767225600000 |}.

(** A VAT-exempt property whose two stored rents differ, and whose tenant
    has no email address. *)
Definition exemptProperty : Property :=
  {| p_id := 2;
     p_name := "Flat 2";
     p_address := "2 Main Road, Paarl";
     p_propertyType := "apartment";
     p_rentExcludingVat := "1000.00";
     p_rentIncludingVat := "1150.00";
     p_isVatExempt := true;
     p_tenantName := Some "Thandi Nkosi";
     p_tenantPhone := None;
     p_tenantEmail := None;
     p_leaseStartDate := Some 1767225600000;
     p_leaseEndDate := Some 1830297600000;
     p_isOccupied := true;
     p_rentalAgreementPath := None;
     p_agreementTemplatePath := None;
     p_createdAt := 1767225600000;
     p_updatedAt := 1767225600000 |}.

Definition settingsWithRate (rate : string) : CompanySettings :=
  {| cs_id := 1;
     cs_companyName := "NEWALD FULLARD TRUST";
     cs_registrationNumber := "IT3469/1996";
     cs_vatNumber := "4820187534";
     cs_addressLine1 := "P.O. Box 3016";
     cs_addressLine2 := "Paarl, 7646";
     cs_contactPerson := "Newald Fullard";
     cs_phone := "0711426452";
     cs_email := "fullardpropertymgmt@gmail.com";
     cs_vatRate := rate;
     cs_notifyLeaseExpiry := true;
     cs_notifyInvoiceGeneration := true;
     cs_notificationEmail := "fullardpropertymgmt@gmail.com";
     cs_updatedAt := 1767225600000 |}.

(** Settings with both notification toggles off, a notification address
    of their own and a VAT rate of 14%. *)
Definition quietSettings : CompanySettings :=
  {| cs_id := 1;
     cs_companyName := "NEWALD FULLARD TRUST";
     cs_registrationNumber := "IT3469/1996";
     cs_vatNumber := "4820187534";
     cs_addressLine1 := "P.O. Box 3016";
     cs_addressLine2 := "Paarl, 7646";
     cs_contactPerson := "Newald Fullard";
     cs_phone := "0711426452";
     cs_email := "fullardpropertymgmt@gmail.com";
     cs_vatRate := "14.00";
     cs_notifyLeaseExpiry := false;
     cs_notifyInvoiceGeneration := false;
     cs_notificationEmail := "office@example.com";
     cs_updatedAt := 1767225600000 |}.

(** The same with both toggles on. *)
Definition officeSettings : CompanySettings :=
  {| cs_id := 1;
     cs_companyName := "NEWALD FULLARD TRUST";
     cs_registrationNumber := "IT3469/1996";
     cs_vatNumber := "4820187534";
     cs_addressLine1 := "P.O. Box 3016";
     cs_addressLine2 := "Paarl, 7646";
     cs_contactPerson := "Newald Fullard";
     cs_phone := "0711426452";
     cs_email := "fullardpropertymgmt@gmail.com";
     cs_vatRate := "14.00";
     cs_notifyLeaseExpiry := true;
     cs_notifyInvoiceGeneration := true;
     cs_notificationEmail := "office@example.com";
     cs_updatedAt := 1767225600000 |}.

(** 2 November 2026, 10:00 in South Africa (UTC+2), no invoice yet, a
    transport that accepts every mail. *)
Definition sampleWorld : World :=
  {| db_properties := [sampleProperty; exemptProperty];
     db_invoices := [];
     db_notifications := [];
     db_companySettings := [settingsWithRate "15.00"];
     seq_invoices := 0;
     seq_notifications := 0;
     clock := 1793606400000;
     tza := 7200000;
     smtp := fun _ => true;
     outbox := [] |}.

(** The same world with a transport that is down. *)
Definition offlineWorld (w : World) : World :=
  {| db_properties := db_properties w; db_invoices := db_invoices w;
     db_notifications := db_notifications w;
     db_companySettings := db_companySettings w;
     seq_invoices := seq_invoices w; seq_notifications := seq_notifications w;
     clock := clock w; tza := tza w; smtp := fun _ => false;
     outbox := outbox w |}.

(** The world with [c] as its one row of company settings. *)
Definition withSettings (c : CompanySettings) (w : World) : World :=
  {| db_properties := db_properties w; db_invoices := db_invoices w;
     db_notifications := db_notifications w;
     db_companySettings := [c];
     seq_invoices := seq_invoices w; seq_notifications := seq_notifications w;
     clock := clock w; tza := tza w; smtp := smtp w; outbox := outbox w |}.

(** The world with no company settings stored. *)
Definition withoutSettings (w : World) : World :=
  {| db_properties := db_properties w; db_invoices := db_invoices w;
     db_notifications := db_notifications w;
     db_companySettings := [];
     seq_invoices := seq_invoices w; seq_notifications := seq_notifications w;
     clock := clock w; tza := tza w; smtp := smtp w; outbox := outbox w |}.

(** The invoice the scheduled generator builds for [p] in the sample world. *)
Definition scheduledInvoice (p : Property) (newId : Z) : Invoice :=
  {| id := newId;
     propertyId := p_id p;
     invoiceNumber := InvoiceService.scheduledNumber 2026 10 (p_id p);
     amount := "1150.00";
     invoiceDate := 1793484000000;
     rentPeriodStart := 1793484000000;
     rentPeriodEnd := 1795989600000;
     dueDate := 1794002400000;
     sentDate := None;
     ccEmails := Some [];
     status := "draft";
     description := Some "Rental for apartment - November 2026";
     isNew := true;
     createdAt := 1793606400000 |}.

(** The sample world after the monthly job billed both properties. *)
Definition billedWorld : World :=
  setInvoices
    [scheduledInvoice sampleProperty 1; scheduledInvoice exemptProperty 2] 2
    sampleWorld.

(** The November invoice of Flat 1 after an edit moved its invoice date to
    1 October: it keeps the scheduled number of November. *)
Definition redatedInvoice : Invoice :=
  Storage.applyUpdates
    {| u_propertyId := None; u_invoiceNumber := None; u_amount := None;
       u_invoiceDate := Some 1790805600000; u_rentPeriodStart := None;
       u_rentPeriodEnd := None; u_dueDate := None; u_sentDate := None;
       u_ccEmails := None; u_status := None; u_description := None;
       u_isNew := None |}
    (scheduledInvoice sampleProperty 1).

(** The sample world holding that invoice and no other. *)
Definition redatedWorld : World :=
  setInvoices [redatedInvoice] 1 sampleWorld.

(** A flat whose tenant name is a no-break space (U+00A0, the bytes C2 A0)
    followed by a space: blank after [trim]. *)
Definition blankTenantProperty : Property :=
  {| p_id := 4;
     p_name := "Flat 4";
     p_address := "4 Main Road, Paarl";
     p_propertyType := "apartment";
     p_rentExcludingVat := "1000.00";
     p_rentIncludingVat := "1150.00";
     p_isVatExempt := false;
     p_tenantName :=
       Some (String (ascii_of_nat 194) (String (ascii_of_nat 160) " "));
     p_tenantPhone := None;
     p_tenantEmail := None;
     p_leaseStartDate := Some 1767225600000;
     p_leaseEndDate := Some 1830297600000;
     p_isOccupied := true;
     p_rentalAgreementPath := None;
     p_agreementTemplatePath := None;
     p_createdAt := 1767225600000;
     p_updatedAt := 1767225600000 |}.

(** The sample world with that flat between the two others. *)
Definition blankTenantWorld : World :=
  {| db_properties := [sampleProperty; blankTenantProperty; exemptProperty];
     db_invoices := [];
     db_notifications := [];
     db_companySettings := [settingsWithRate "15.00"];
     seq_invoices := 0;
     seq_notifications := 0;
     clock := 1793606400000;
     tza := 7200000;
     smtp := fun _ => true;
     outbox := [] |}.

(** A VAT-exempt cottage in Potsdam, its two stored rents equal. *)
Definition exemptCottage : Property :=
  {| p_id := 3;
     p_name := "Cottage";
     p_address := "3 Seestrasse, Potsdam";
     p_propertyType := "house";
     p_rentExcludingVat := "800.00";
     p_rentIncludingVat := "800.00";
     p_isVatExempt := true;
     p_tenantName := Some "Ada Berg";
     p_tenantPhone := None;
     p_tenantEmail := Some "ada@example.com";
     p_leaseStartDate := Some 1767225600000;
     p_leaseEndDate := Some 1830297600000;
     p_isOccupied := true;
     p_rentalAgreementPath := None;
     p_agreementTemplatePath := None;
     p_createdAt := 1767225600000;
     p_updatedAt := 1767225600000 |}.

(** Central European time in 2026: UTC+1, and one hour more from
    29 March 01:00 UTC to 25 October 01:00 UTC. *)
Definition centralEurope2026 : Zone :=
  {| LocalTZA := 3600000;
     inDaylightTime :=
       fun t => (1774746000000 <=? t) && negb (1792890000000 <=? t) |}.

(** 30 March 2026, 10:00 in Potsdam (summer time since the day before),
    the cottage not yet billed. *)
Definition springWorld : World :=
  {| db_properties := [exemptCottage];
     db_invoices := [];
     db_notifications := [];
     db_companySettings := [settingsWithRate "15.00"];
     seq_invoices := 0;
     seq_notifications := 0;
     clock := 1774857600000;
     tza := centralEurope2026;
     smtp := fun _ => true;
     outbox := [] |}.

(** The invoice the scheduled generator builds for the cottage then: dated
    1 March 00:00 winter time, period end 31 March 00:00 summer time. *)
Definition springInvoice : Invoice :=
  {| id := 1;
     propertyId := 3;
     invoiceNumber := "INV-202603-003";
     amount := "800.00";
     invoiceDate := 1772319600000;
     rentPeriodStart := 1772319600000;
     rentPeriodEnd := 1774908000000;
     dueDate := 1772838000000;
     sentDate := None;
     ccEmails := Some [];
     status := "draft";
     description := Some "Rental for house - March 2026";
     isNew := true;
     createdAt := 1774857600000 |}.

(** What a step of the monthly job may do to the invoices of month [mo] of
    year [y]: per property it adds none, or the first one. *)
Definition monthStep (z : Zone) (y mo : Z) (w w' : World) : Prop :=
  tza w' = tza w /\ clock w' = clock w
  /\ forall pid,
       (monthCount z y mo pid (db_invoices w)
        <= monthCount z y mo pid (db_invoices w')
        <= Nat.max 1 (monthCount z y mo pid (db_invoices w)))%nat.

(** The invoice numbers fit the properties: a stored invoice that carries
    the scheduled number of a property for month [mo] of year [y] is an
    invoice of that property dated in that month. *)
Definition numbersConsistent (z : Zone) (y mo : Z) (props : list Property)
  (invs : list Invoice) : Prop :=
  forall i q,
    In i invs -> In q props ->
    invoiceNumber i = InvoiceService.scheduledNumber y mo (p_id q) ->
    propertyId i = p_id q /\ InvoiceService.inMonth z y mo i = true.

(** The line of the monthly summary for an invoice [snd b] created for the
    property [fst b]. *)
Definition summaryLine (b : Property * Invoice) : SummaryLine :=
  {| sl_property := p_name (fst b);
     sl_invoiceNumber := invoiceNumber (snd b);
     sl_amount := amount (snd b);
     sl_tenant := p_tenantName (fst b) |}.

(** The summary mail of a run of the monthly job at time [t] that billed
    [billed], addressed from the settings. *)
Definition summaryMail (cs : option CompanySettings) (z : Zone) (t : Z)
  (billed : list (Property * Invoice)) : Mail :=
  {| m_to := operatorAddress cs;
     m_cc := None;
     m_subject := "Monthly Invoices Created - " ++ toLocaleMonthYear z t;
     m_body :=
       MonthlySummary (Z.of_nat (List.length billed)) (map summaryLine billed) |}.

(** The invoices a run of the monthly job at time [t] inserts for the
    properties [due], each with its property, the first with id [next]. *)
Fixpoint billedRows (z : Zone) (y mo t next : Z) (due : list Property)
  : list (Property * Invoice) :=
  match due with
  | [] => []
  | p :: rest =>
      (p, Storage.invoiceRow next t
            (InvoiceService.newInvoice z y mo
               (InvoiceService.scheduledNumber y mo (p_id p))
               (InvoiceService.ofRow p)))
      :: billedRows z y mo t (next + 1) rest
  end.

(** Everything of the world that creating invoices leaves alone. *)
Definition besidesInvoices (w : World) :=
  (db_properties w, db_notifications w, db_companySettings w,
   seq_notifications w, clock w, tza w, smtp w, outbox w).

(** Everything of the world that the mail transport leaves alone. *)
Definition besidesOutbox (w : World) :=
  (db_properties w, db_invoices w, db_notifications w, db_companySettings w,
   seq_invoices w, seq_notifications w, clock w, tza w, smtp w).

(** The string has a hyphen in it. *)
Fixpoint hasDash (s : string) : bool :=
  match s with
  | EmptyString => false
  | String c r => (Ascii.eqb c "-" || hasDash r)%bool
  end.

(** Every invoice and every notification points at a stored property. *)
Definition referencesHold (w : World) : Prop :=
  (forall i, In i (db_invoices w) ->
     Storage.propertyExists (propertyId i) w = true)
  /\ (forall n, In n (db_notifications w) ->
        Storage.propertyExists (n_propertyId n) w = true).

(** The tables respect the keys of the schema: invoice ids, invoice
    numbers and notification ids are unique, every id was given out by its
    sequence, and the references to properties hold. *)
Definition tablesSound (w : World) : Prop :=
  NoDup (map id (db_invoices w))
  /\ NoDup (map invoiceNumber (db_invoices w))
  /\ (forall i, In i (db_invoices w) -> id i <= seq_invoices w)
  /\ NoDup (map n_id (db_notifications w))
  /\ (forall n, In n (db_notifications w) -> n_id n <= seq_notifications w)
  /\ referencesHold w.

(** The computation leaves sound tables sound, whatever it answers. *)
Definition keeps {A} (m : M A) : Prop :=
  forall w, tablesSound w -> tablesSound (snd (m w)).

(** * Properties *)

Lemma DayFromYear_succ y : DayFromYear (y + 1) = DayFromYear y + DaysInYear y.
Proof.
  unfold DayFromYear, DaysInYear, isLeap.
  destruct (Z.eqb_spec (y mod 4) 0), (Z.eqb_spec (y mod 100) 0),
    (Z.eqb_spec (y mod 400) 0); cbn [negb];
    Z.to_euclidean_division_equations; lia.
Qed.

Lemma YearFromDay_spec d :
  DayFromYear (YearFromDay d) <= d < DayFromYear (YearFromDay d + 1).
Proof.
  unfold YearFromDay.
  set (y0 := 1970 + 400 * d / 146097).
  assert (H1 : DayFromYear (y0 - 1) <= d).
  { unfold DayFromYear, y0. Z.to_euclidean_division_equations. lia. }
  assert (H2 : d < DayFromYear (y0 + 2)).
  { unfold DayFromYear, y0. Z.to_euclidean_division_equations. lia. }
  destruct (Z.ltb_spec d (DayFromYear y0)).
  - replace (y0 - 1 + 1) with y0 by lia. lia.
  - destruct (Z.leb_spec (DayFromYear (y0 + 1)) d).
    + replace (y0 + 1 + 1) with (y0 + 2) by lia. lia.
    + lia.
Qed.

(** ** Calendar arithmetic *)

Lemma DayFromYear_le a b : a <= b -> DayFromYear a <= DayFromYear b.
Proof.
  intros H. unfold DayFromYear. Z.to_euclidean_division_equations. lia.
Qed.

Lemma YearFromDay_unique y d :
  DayFromYear y <= d < DayFromYear (y + 1) -> YearFromDay d = y.
Proof.
  intros [Hlo Hhi].
  pose proof (YearFromDay_spec d) as [Slo Shi].
  destruct (Z.lt_trichotomy (YearFromDay d) y) as [Hlt | [Heq | Hgt]].
  - pose proof (DayFromYear_le (YearFromDay d + 1) y ltac:(lia)). lia.
  - exact Heq.
  - pose proof (DayFromYear_le (y + 1) (YearFromDay d) ltac:(lia)). lia.
Qed.

Lemma Day_MakeDate d : Day (MakeDate d 0) = d.
Proof.
  unfold Day, MakeDate. rewrite Z.add_0_r. apply Z.div_mul. discriminate.
Qed.

Lemma TimeWithinDay_MakeDate d : TimeWithinDay (MakeDate d 0) = 0.
Proof.
  unfold TimeWithinDay, MakeDate. rewrite Z.add_0_r. apply Z.mod_mul. discriminate.
Qed.

(** A local time read back from its instant is that local time, or one
    hour later when it was skipped by the start of daylight saving time. *)
Lemma LocalTime_UTC z t :
  LocalTime z (UTC z t) = t \/ LocalTime z (UTC z t) = t + msPerHour.
Proof.
  unfold LocalTime, UTC, DaylightSavingTA. cbv zeta.
  destruct (inDaylightTime z (t - LocalTZA z - msPerHour)) eqn:E.
  - rewrite E. left. lia.
  - destruct (inDaylightTime z (t - LocalTZA z)); [right | left]; lia.
Qed.

Lemma Day_within d s : 0 <= s < msPerDay -> Day (MakeDate d 0 + s) = d.
Proof.
  intros H. unfold Day, MakeDate, msPerDay in *.
  Z.to_euclidean_division_equations. lia.
Qed.

(** The calendar getters read the day of a time only. *)
Lemma civil_same_day t1 t2 :
  Day t1 = Day t2 ->
  YearFromTime t1 = YearFromTime t2
  /\ MonthFromTime t1 = MonthFromTime t2
  /\ DateFromTime t1 = DateFromTime t2.
Proof.
  intros H.
  assert (HY : YearFromTime t1 = YearFromTime t2)
    by (unfold YearFromTime; rewrite H; reflexivity).
  assert (HM : MonthFromTime t1 = MonthFromTime t2)
    by (unfold MonthFromTime, DayWithinYear, InLeapYear; rewrite H, HY; reflexivity).
  split; [exact HY | split; [exact HM |]].
  unfold DateFromTime, DayWithinYear, InLeapYear. rewrite H, HY, HM. reflexivity.
Qed.

Lemma MonthFromTime_range t : 0 <= MonthFromTime t <= 11.
Proof.
  unfold MonthFromTime.
  repeat match goal with
         | |- context [if ?b then _ else _] => destruct b
         end; lia.
Qed.

Lemma month_cases m :
  0 <= m <= 11 ->
  m = 0 \/ m = 1 \/ m = 2 \/ m = 3 \/ m = 4 \/ m = 5 \/ m = 6 \/ m = 7
  \/ m = 8 \/ m = 9 \/ m = 10 \/ m = 11.
Proof. lia. Qed.

Ltac each_month H :=
  apply month_cases in H;
  repeat match type of H with
         | _ \/ _ => destruct H as [H | H]
         end; subst.

Lemma daysInMonth_pos y m : 0 <= m <= 11 -> 28 <= daysInMonth y m <= 31.
Proof.
  intros H. unfold daysInMonth. destruct (isLeap y); each_month H; cbn; lia.
Qed.

Lemma MakeDay_in_year y m dt :
  0 <= m <= 11 ->
  MakeDay y m dt =
  DayFromYear y + daysBeforeMonth (if isLeap y then 1 else 0) m + dt - 1.
Proof.
  intros H. unfold MakeDay.
  rewrite (Z.div_small m 12), (Z.mod_small m 12) by lia.
  rewrite Z.add_0_r. reflexivity.
Qed.

(** The calendar getters invert [MakeDay] on a valid civil date. *)
Lemma civil_of_MakeDay y m dt :
  0 <= m <= 11 -> 1 <= dt <= daysInMonth y m ->
  YearFromTime (MakeDate (MakeDay y m dt) 0) = y
  /\ MonthFromTime (MakeDate (MakeDay y m dt) 0) = m
  /\ DateFromTime (MakeDate (MakeDay y m dt) 0) = dt.
Proof.
  intros Hm Hd.
  assert (HY : YearFromTime (MakeDate (MakeDay y m dt) 0) = y).
  { unfold YearFromTime. rewrite Day_MakeDate, MakeDay_in_year by exact Hm.
    apply YearFromDay_unique. rewrite DayFromYear_succ.
    unfold daysInMonth, DaysInYear in *.
    destruct (isLeap y); each_month Hm; cbn in *; lia. }
  assert (HM : MonthFromTime (MakeDate (MakeDay y m dt) 0) = m).
  { unfold MonthFromTime, DayWithinYear, InLeapYear. rewrite HY.
    rewrite Day_MakeDate, MakeDay_in_year by exact Hm.
    unfold daysInMonth in *.
    destruct (isLeap y); each_month Hm; cbn in *;
      repeat match goal with
             | |- context [?a <? ?b] => destruct (Z.ltb_spec a b); try lia
             end. }
  split; [exact HY | split; [exact HM |]].
  unfold DateFromTime, DayWithinYear, InLeapYear. rewrite HM, HY.
  rewrite Day_MakeDate, MakeDay_in_year by exact Hm. lia.
Qed.

(** Day 0 of the next month is the last day of the month. *)
Lemma MakeDay_last_day y m :
  0 <= m <= 11 -> MakeDay y (m + 1) 0 = MakeDay y m (daysInMonth y m).
Proof.
  intros Hm. rewrite (MakeDay_in_year y m) by exact Hm.
  destruct (Z.eq_dec m 11) as [-> | Hne].
  - unfold MakeDay. change ((11 + 1) / 12) with 1. change ((11 + 1) mod 12) with 0.
    rewrite DayFromYear_succ. unfold DaysInYear, daysInMonth.
    destruct (isLeap y), (isLeap (y + 1)); cbn; lia.
  - rewrite MakeDay_in_year by lia. unfold daysInMonth. lia.
Qed.

Lemma mkDate_year z y m dt :
  ~ (0 <= y <= 99) ->
  mkDate z y m dt = UTC z (MakeDate (MakeDay y m dt) 0).
Proof.
  intros H. unfold mkDate.
  destruct (Z.leb_spec 0 y), (Z.leb_spec y 99); cbn [andb]; try reflexivity; lia.
Qed.

(** The getters read back the fields given to [new Date(y, m, dt)]; the
    time of day is midnight, or 01:00 where midnight is skipped. *)
Lemma getters_of_mkDate z y m dt :
  ~ (0 <= y <= 99) -> 0 <= m <= 11 -> 1 <= dt <= daysInMonth y m ->
  getFullYear z (mkDate z y m dt) = y
  /\ getMonth z (mkDate z y m dt) = m
  /\ getDate z (mkDate z y m dt) = dt
  /\ (TimeWithinDay (LocalTime z (mkDate z y m dt)) = 0
      \/ TimeWithinDay (LocalTime z (mkDate z y m dt)) = msPerHour).
Proof.
  intros Hy Hm Hd. unfold getFullYear, getMonth, getDate.
  rewrite mkDate_year by exact Hy.
  pose proof (civil_of_MakeDay y m dt Hm Hd) as (A & B & C).
  set (tl := MakeDate (MakeDay y m dt) 0) in *.
  assert (Hs : exists s, (s = 0 \/ s = msPerHour) /\ LocalTime z (UTC z tl) = tl + s).
  { destruct (LocalTime_UTC z tl) as [E | E]; rewrite E;
      [exists 0 | exists msPerHour]; (split; [auto | lia]). }
  destruct Hs as (s & Hs & E). rewrite E.
  assert (Hr : 0 <= s < msPerDay) by (unfold msPerHour, msPerDay in *; lia).
  destruct (civil_same_day (tl + s) tl) as (A' & B' & C').
  { unfold tl. rewrite Day_within by exact Hr. symmetry. apply Day_MakeDate. }
  rewrite A', B', C'. repeat split; try assumption.
  assert (Ht : TimeWithinDay (tl + s) = s).
  { unfold TimeWithinDay, tl, MakeDate, msPerDay in *.
    Z.to_euclidean_division_equations. lia. }
  rewrite Ht. exact Hs.
Qed.

Lemma mkDate_last_day z y m :
  ~ (0 <= y <= 99) -> 0 <= m <= 11 ->
  mkDate z y (m + 1) 0 = mkDate z y m (daysInMonth y m).
Proof.
  intros Hy Hm. rewrite !mkDate_year by exact Hy.
  rewrite MakeDay_last_day by exact Hm. reflexivity.
Qed.

(** ** Strings of the invoice number *)

Import InvoiceService.

Lemma repeat_char_length c n : String.length (JsString.repeat_char c n) = n.
Proof. induction n; cbn; congruence. Qed.

Lemma append_length a b :
  String.length (a ++ b) = (String.length a + String.length b)%nat.
Proof. induction a; cbn; congruence. Qed.

Lemma padStart_length n c s :
  String.length (JsString.padStart n c s) = Nat.max n (String.length s).
Proof.
  unfold JsString.padStart. rewrite append_length, repeat_char_length. lia.
Qed.

Lemma month_field_length mo :
  0 <= mo <= 11 ->
  String.length (JsString.padStart 2 "0" (JsString.toString (mo + 1))) = 2%nat.
Proof. intros H. each_month H; reflexivity. Qed.

(** A positive integer prints without a leading zero, so padding it
    with zeros loses nothing. *)
Lemma to_uint_head p :
  match Pos.to_uint p with
  | Decimal.Nil => False
  | Decimal.D0 _ => False
  | _ => True
  end.
Proof.
  pose proof (DecimalPos.Unsigned.to_uint_nonnil p) as Hnil.
  pose proof (DecimalPos.Unsigned.to_uint_nonzero p) as Hnz.
  pose proof (DecimalPos.Unsigned.to_of (Pos.to_uint p)) as Hn.
  rewrite DecimalPos.Unsigned.of_to in Hn. cbn [N.to_uint] in Hn.
  destruct (Pos.to_uint p) as [| u | u | u | u | u | u | u | u | u | u]; try exact I.
  - congruence.
  - rewrite DecimalFacts.unorm_D0 in Hn.
    destruct u as [| u | u | u | u | u | u | u | u | u | u];
      try congruence;
      match type of Hn with
      | _ = Decimal.unorm ?v =>
          pose proof (DecimalFacts.nb_digits_unorm v ltac:(discriminate)) as Hd;
          rewrite <- Hn in Hd; cbn in Hd; lia
      end.
Qed.

Lemma toString_pos_head z :
  0 < z ->
  exists c r, JsString.toString z = String c r /\ c <> "0"%char.
Proof.
  intros Hz. destruct z as [| p | p]; try lia.
  unfold JsString.toString. cbn [Z.to_int Pos.to_int NilZero.string_of_int].
  pose proof (to_uint_head p) as H.
  destruct (Pos.to_uint p) as [| u | u | u | u | u | u | u | u | u | u];
    try contradiction; cbn; eexists; eexists; (split; [reflexivity | discriminate]).
Qed.

Lemma toString_inj_pos a b :
  0 < a -> 0 < b -> JsString.toString a = JsString.toString b -> a = b.
Proof.
  intros Ha Hb H. unfold JsString.toString in H.
  apply DecimalZ.to_int_inj.
  assert (Hi : forall z, 0 < z ->
             NilZero.int_of_string (NilZero.string_of_int (Z.to_int z))
             = Some (Z.to_int z)).
  { intros z Hz. apply NilZero.isi; destruct z as [| p | p]; try lia; cbn;
      intros E; inversion E as [E']; exact (DecimalPos.Unsigned.to_uint_nonnil p E'). }
  pose proof (Hi a Ha) as A. pose proof (Hi b Hb) as B.
  rewrite H in A. congruence.
Qed.

Lemma append_inv_head p s t : p ++ s = p ++ t -> s = t.
Proof. induction p as [| c p IH]; cbn; intros H; [exact H | inversion H; auto]. Qed.

Lemma zeros_inv k : forall j c r c' r',
  c <> "0"%char -> c' <> "0"%char ->
  JsString.repeat_char "0" k ++ String c r
  = JsString.repeat_char "0" j ++ String c' r' ->
  String c r = String c' r'.
Proof.
  induction k as [| k IH]; intros [| j] c r c' r' Hc Hc' H; cbn in H.
  - exact H.
  - inversion H. congruence.
  - inversion H. congruence.
  - inversion H. eauto.
Qed.

Lemma padStart_toString_inj n a b :
  0 < a -> 0 < b ->
  JsString.padStart n "0" (JsString.toString a)
  = JsString.padStart n "0" (JsString.toString b) ->
  a = b.
Proof.
  intros Ha Hb H. apply toString_inj_pos; try assumption.
  destruct (toString_pos_head a Ha) as (c & r & Ea & Hc).
  destruct (toString_pos_head b Hb) as (c' & r' & Eb & Hc').
  unfold JsString.padStart in H. rewrite Ea, Eb in *.
  eapply zeros_inv; eauto.
Qed.

Lemma scheduledNumber_inj y mo a b :
  0 < a -> 0 < b -> scheduledNumber y mo a = scheduledNumber y mo b -> a = b.
Proof.
  intros Ha Hb H. unfold scheduledNumber in H.
  do 4 apply append_inv_head in H.
  exact (padStart_toString_inj 3 a b Ha Hb H).
Qed.

(** ** The scheduled generator, step by step *)

Lemma createInvoiceForProperty_unfold p w :
  createInvoiceForProperty p w =
  let z := tza w in
  let y := getFullYear z (clock w) in
  let mo := getMonth z (clock w) in
  if existsb (inMonth z y mo)
       (filter (fun i => propertyId i =? p_id (row p)) (db_invoices w))
  then (Ok None, w)
  else
    match Storage.createInvoice
            (newInvoice z y mo (scheduledNumber y mo (p_id (row p))) p) w with
    | (Ok a, w') => (Ok (Some a), w')
    | (Throw e, w') => (Throw e, w')
    end.
Proof.
  unfold createInvoiceForProperty, bind, now, localTza, Storage.getInvoicesByProperty, ret.
  cbn. destruct (existsb _ _); [reflexivity |].
  destruct (Storage.createInvoice _ w) as [[a | e] w']; reflexivity.
Qed.

Lemma createInvoice_ok ins w row w' :
  Storage.createInvoice ins w = (Ok row, w') ->
  Storage.propertyExists (i_propertyId ins) w = true
  /\ Storage.invoiceNumberTaken (i_invoiceNumber ins) (db_invoices w) = false
  /\ row = Storage.invoiceRow (seq_invoices w + 1) (clock w) ins
  /\ w' = setInvoices (db_invoices w ++ [row]) (seq_invoices w + 1) w.
Proof.
  unfold Storage.createInvoice.
  destruct (Storage.propertyExists _ w); cbn [negb]; [| discriminate].
  destruct (Storage.invoiceNumberTaken _ _); [discriminate |].
  intros H. inversion H; subst. auto.
Qed.

Lemma createInvoice_throw ins w e w' :
  Storage.createInvoice ins w = (Throw e, w') ->
  (Storage.propertyExists (i_propertyId ins) w = false
   \/ Storage.invoiceNumberTaken (i_invoiceNumber ins) (db_invoices w) = true)
  /\ w' = setInvoices (db_invoices w) (seq_invoices w + 1) w.
Proof.
  unfold Storage.createInvoice.
  destruct (Storage.propertyExists _ w); cbn [negb].
  - destruct (Storage.invoiceNumberTaken _ _); [| discriminate].
    intros H. inversion H; subst. auto.
  - intros H. inversion H; subst. auto.
Qed.

(** C4.  An invoice built by the scheduled generator for a stored
    property (a rent that is not the empty string; equal rents when the
    property is VAT-exempt, as the data model requires) has its invoice
    date and rent period start on the first day of the current month, at
    local midnight or at 01:00 where daylight saving time skips midnight,
    its due date on the 7th, its rent period end on the last day of the
    month, status draft, the CC list read from the property object or the
    empty list, as amount the inclusive rent of the property, or the
    exclusive rent when the property is VAT-exempt, and the number
    INV-{year}{month:02}-{propertyId:03}, the month field two characters
    long and the property field at least three. *)
Theorem scheduled_invoice_fields (w w' : World) (p : AnyProperty) (inv : Invoice) :
  99 < getFullYear (tza w) (clock w) ->
  p_rentIncludingVat (row p) <> "" ->
  (p_isVatExempt (row p) = true ->
   p_rentExcludingVat (row p) = p_rentIncludingVat (row p)) ->
  createInvoiceForProperty p w = (Ok (Some inv), w') ->
  let z := tza w in
  let y := getFullYear z (clock w) in
  let mo := getMonth z (clock w) in
  let monthField := JsString.padStart 2 "0" (JsString.toString (mo + 1)) in
  let idField := JsString.padStart 3 "0" (JsString.toString (p_id (row p))) in
  propertyId inv = p_id (row p)
  /\ invoiceDate inv = rentPeriodStart inv
  /\ (getFullYear z (invoiceDate inv), getMonth z (invoiceDate inv),
      getDate z (invoiceDate inv)) = (y, mo, 1)
  /\ (TimeWithinDay (LocalTime z (invoiceDate inv)) = 0
      \/ TimeWithinDay (LocalTime z (invoiceDate inv)) = msPerHour)
  /\ (getFullYear z (dueDate inv), getMonth z (dueDate inv),
      getDate z (dueDate inv)) = (y, mo, 7)
  /\ (getFullYear z (rentPeriodEnd inv), getMonth z (rentPeriodEnd inv),
      getDate z (rentPeriodEnd inv)) = (y, mo, daysInMonth y mo)
  /\ status inv = "draft"
  /\ ccEmails inv = Some (match any_ccEmails p with Some l => l | None => [] end)
  /\ amount inv =
     (if p_isVatExempt (row p) then p_rentExcludingVat (row p)
      else p_rentIncludingVat (row p))
  /\ invoiceNumber inv =
     "INV-" ++ JsString.toString y ++ monthField ++ "-" ++ idField
  /\ String.length monthField = 2%nat
  /\ (3 <= String.length idField)%nat
  /\ idField =
     JsString.repeat_char "0"
       (3 - String.length (JsString.toString (p_id (row p))))
     ++ JsString.toString (p_id (row p)).
Proof.
  intros Hy Hrent Hexempt Hrun z y mo monthField idField.
  rewrite createInvoiceForProperty_unfold in Hrun. cbn zeta in Hrun.
  fold z y mo in Hrun.
  destruct (existsb _ _); [discriminate |].
  destruct (Storage.createInvoice _ w) as [[a | e] w1] eqn:Hc; [| discriminate].
  inversion Hrun; subst a w1; clear Hrun.
  apply createInvoice_ok in Hc. destruct Hc as (_ & _ & Hrow & _).
  assert (Hmo : 0 <= mo <= 11) by apply MonthFromTime_range.
  assert (Hny : ~ (0 <= y <= 99)) by (unfold y, z; lia).
  pose proof (daysInMonth_pos y mo Hmo) as Hdim.
  pose proof (getters_of_mkDate z y mo 1 Hny Hmo ltac:(lia)) as (A1 & A2 & A3 & A4).
  pose proof (getters_of_mkDate z y mo 7 Hny Hmo ltac:(lia)) as (B1 & B2 & B3 & _).
  pose proof (getters_of_mkDate z y mo (daysInMonth y mo) Hny Hmo ltac:(lia))
    as (C1 & C2 & C3 & _).
  rewrite <- (mkDate_last_day z y mo Hny Hmo) in C1, C2, C3.
  assert (Hamt : JsString.or (p_rentIncludingVat (row p))
                   (JsString.or (p_rentExcludingVat (row p)) "0")
                 = if p_isVatExempt (row p) then p_rentExcludingVat (row p)
                   else p_rentIncludingVat (row p)).
  { unfold JsString.or at 1.
    destruct (p_rentIncludingVat (row p)) eqn:E; [congruence |]. cbn [JsString.truthy].
    destruct (p_isVatExempt (row p)); [symmetry; apply Hexempt |]; reflexivity. }
  subst inv.
  cbn [Storage.invoiceRow newInvoice propertyId invoiceDate rentPeriodStart
       rentPeriodEnd dueDate status ccEmails amount invoiceNumber
       i_propertyId i_invoiceNumber i_amount i_invoiceDate i_rentPeriodStart
       i_rentPeriodEnd i_dueDate i_ccEmails i_status].
  rewrite A1, A2, A3, B1, B2, B3, C1, C2, C3, Hamt.
  repeat match goal with |- _ /\ _ => split end; try reflexivity.
  - exact A4.
  - exact (month_field_length mo Hmo).
  - change (3 <= String.length
                   (JsString.padStart 3 "0" (JsString.toString (p_id (row p)))))%nat.
    rewrite padStart_length. lia.
Qed.

Lemma existsb_filter_length {A} (f : A -> bool) (l : list A) :
  existsb f l = negb (Nat.eqb (List.length (filter f l)) 0).
Proof.
  induction l as [| a l IH]; cbn; [reflexivity |].
  destruct (f a); cbn; [reflexivity | exact IH].
Qed.

Lemma monthCount_app z y mo pid l l' :
  monthCount z y mo pid (l ++ l') =
  (monthCount z y mo pid l + monthCount z y mo pid l')%nat.
Proof.
  unfold monthCount. rewrite !filter_app, length_app. reflexivity.
Qed.

(** The row inserted by the scheduled generator is an invoice of the
    property dated in the current month. *)
Lemma new_row_in_month z y mo n p newId created :
  ~ (0 <= y <= 99) -> 0 <= mo <= 11 ->
  inMonth z y mo (Storage.invoiceRow newId created (newInvoice z y mo n p)) = true
  /\ propertyId (Storage.invoiceRow newId created (newInvoice z y mo n p))
     = p_id (row p).
Proof.
  intros Hy Hmo. split; [| reflexivity].
  pose proof (daysInMonth_pos y mo Hmo) as Hdim.
  pose proof (getters_of_mkDate z y mo 1 Hy Hmo ltac:(lia)) as (A1 & A2 & _).
  unfold inMonth. cbn. rewrite A1, A2, !Z.eqb_refl. reflexivity.
Qed.


(** ** The monthly job *)

Lemma monthStep_refl z y mo w : monthStep z y mo w w.
Proof. unfold monthStep. repeat split; lia. Qed.

Lemma monthStep_trans z y mo w1 w2 w3 :
  monthStep z y mo w1 w2 -> monthStep z y mo w2 w3 -> monthStep z y mo w1 w3.
Proof.
  intros (A1 & A2 & A3) (B1 & B2 & B3). unfold monthStep.
  split; [congruence | split; [congruence |]].
  intros pid. specialize (A3 pid). specialize (B3 pid). lia.
Qed.

Lemma monthStep_same_invoices z y mo w w' :
  tza w' = tza w -> clock w' = clock w -> db_invoices w' = db_invoices w ->
  monthStep z y mo w w'.
Proof.
  intros A B C. unfold monthStep. rewrite C. repeat split; auto; lia.
Qed.

Lemma createInvoiceForProperty_step p w :
  99 < getFullYear (tza w) (clock w) ->
  monthStep (tza w) (getFullYear (tza w) (clock w)) (getMonth (tza w) (clock w))
    w (snd (createInvoiceForProperty p w)).
Proof.
  intros Hy.
  set (z := tza w). set (y := getFullYear z (clock w)).
  set (mo := getMonth z (clock w)).
  assert (Hmo : 0 <= mo <= 11) by apply MonthFromTime_range.
  assert (Hny : ~ (0 <= y <= 99)) by (unfold y, z; lia).
  rewrite createInvoiceForProperty_unfold. cbn zeta. fold z y mo.
  rewrite existsb_filter_length.
  fold (monthCount z y mo (p_id (row p)) (db_invoices w)).
  destruct (Nat.eqb_spec (monthCount z y mo (p_id (row p)) (db_invoices w)) 0)
    as [H0 | H0]; cbn [negb]; [| apply monthStep_refl].
  destruct (Storage.createInvoice _ w) as [[a | e] w1] eqn:Hc; cbn [snd].
  - apply createInvoice_ok in Hc. destruct Hc as (_ & _ & Hrow & Hw1).
    destruct (new_row_in_month z y mo (scheduledNumber y mo (p_id (row p))) p
                (seq_invoices w + 1) (clock w) Hny Hmo) as [Hin Hpid].
    rewrite <- Hrow in Hin, Hpid.
    unfold monthStep. split; [subst w1; reflexivity |].
    split; [subst w1; reflexivity |]. intros pid.
    assert (Hinv1 : db_invoices w1 = (db_invoices w ++ [a])%list)
      by (subst w1; reflexivity).
    assert (Hone : monthCount z y mo pid [a] =
                   if p_id (row p) =? pid then 1%nat else 0%nat).
    { unfold monthCount. cbn [filter]. rewrite Hpid.
      destruct (p_id (row p) =? pid); cbn [filter]; [rewrite Hin |]; reflexivity. }
    rewrite Hinv1, monthCount_app, Hone.
    destruct (Z.eqb_spec (p_id (row p)) pid) as [<- | Hne]; [rewrite H0 |]; lia.
  - apply createInvoice_throw in Hc. destruct Hc as [_ Hw1].
    apply monthStep_same_invoices; subst w1; reflexivity.
Qed.

Lemma monthly_loop_step l : forall acc w,
  99 < getFullYear (tza w) (clock w) ->
  monthStep (tza w) (getFullYear (tza w) (clock w)) (getMonth (tza w) (clock w))
    w (snd (foldOf l acc monthlyStep w)).
Proof.
  induction l as [| p l IH]; intros acc w Hy; [apply monthStep_refl |].
  cbn [foldOf]. unfold bind at 1.
  pose proof (createInvoiceForProperty_step (ofRow p) w Hy) as Hs.
  assert (Hstep : exists r,
            monthlyStep acc p w = (r, snd (createInvoiceForProperty (ofRow p) w))).
  { unfold monthlyStep, bind, ret.
    destruct (createInvoiceForProperty (ofRow p) w) as [[[inv |] | e] w1];
      eexists; reflexivity. }
  destruct Hstep as [r Hr]. rewrite Hr.
  set (w1 := snd (createInvoiceForProperty (ofRow p) w)) in *.
  destruct r as [acc' | e]; [| exact Hs].
  destruct Hs as (Hz & Hc & Hcount).
  eapply monthStep_trans; [split; [exact Hz | split; [exact Hc | exact Hcount]] |].
  specialize (IH acc' w1). rewrite Hz, Hc in IH. apply IH. exact Hy.
Qed.

Lemma sendInvoiceCreationSummary_frame n l w :
  let w' := snd (sendInvoiceCreationSummary n l w) in
  tza w' = tza w /\ clock w' = clock w /\ db_invoices w' = db_invoices w.
Proof.
  cbv beta iota zeta delta
    [sendInvoiceCreationSummary tryCatch bind ret throw now localTza
     Storage.getCompanySettings EmailService.sendNotificationEmail
     EmailService.sendMail].
  destruct (NotificationService.settingOn _ _); cbn [negb]; [| auto].
  match goal with |- context [smtp w ?m] => destruct (smtp w m) end; auto.
Qed.

Lemma generateMonthlyInvoices_step w :
  99 < getFullYear (tza w) (clock w) ->
  monthStep (tza w) (getFullYear (tza w) (clock w)) (getMonth (tza w) (clock w))
    w (snd (generateMonthlyInvoices w)).
Proof.
  intros Hy.
  cbv beta iota zeta delta [generateMonthlyInvoices tryCatch bind ret now
    Storage.getProperties].
  pose proof (monthly_loop_step
                (filter (isBillable (clock w)) (db_properties w)) (0, []) w Hy) as Hs.
  destruct (foldOf _ _ monthlyStep w) as [[acc | e] w1]; cbn [snd] in *; [| exact Hs].
  destruct (0 <? fst acc); [| exact Hs].
  pose proof (sendInvoiceCreationSummary_frame (fst acc) (snd acc) w1) as (A & B & C).
  destruct (sendInvoiceCreationSummary (fst acc) (snd acc) w1) as [[b | e] w2];
    cbn [snd] in *;
    (eapply monthStep_trans; [exact Hs | apply monthStep_same_invoices; assumption]).
Qed.

(** X1.  The monthly job run twice in one calendar month leaves, for every
    property, at most one invoice of the month unless more existed before:
    a run adds the first invoice of the month of a property or none. *)
Lemma monthly_job_at_most_one_per_month (w : World) (t2 pid : Z) :
  99 < getFullYear (tza w) (clock w) ->
  getFullYear (tza w) t2 = getFullYear (tza w) (clock w) ->
  getMonth (tza w) t2 = getMonth (tza w) (clock w) ->
  let z := tza w in
  let y := getFullYear z (clock w) in
  let mo := getMonth z (clock w) in
  let w1 := snd (generateMonthlyInvoices w) in
  let w2 := snd (generateMonthlyInvoices (setClock t2 w1)) in
  (monthCount z y mo pid (db_invoices w)
   <= monthCount z y mo pid (db_invoices w2)
   <= Nat.max 1 (monthCount z y mo pid (db_invoices w)))%nat.
Proof.
  intros Hy Hy2 Hm2 z y mo w1 w2.
  pose proof (generateMonthlyInvoices_step w Hy) as (Hz & Hc & H1).
  fold z y mo w1 in Hz, Hc, H1.
  pose proof (generateMonthlyInvoices_step (setClock t2 w1)) as Hs2.
  change (tza (setClock t2 w1)) with (tza w1) in Hs2.
  change (clock (setClock t2 w1)) with t2 in Hs2.
  rewrite Hz in Hs2. fold z in Hy2, Hm2. rewrite Hy2, Hm2 in Hs2. fold y mo in Hs2.
  destruct (Hs2 Hy) as (_ & _ & H2). fold w2 in H2.
  change (db_invoices (setClock t2 w1)) with (db_invoices w1) in H2.
  specialize (H1 pid). specialize (H2 pid). lia.
Qed.

Lemma monthCount_pos_intro z y mo pid l i :
  In i l -> propertyId i = pid -> inMonth z y mo i = true ->
  (1 <= monthCount z y mo pid l)%nat.
Proof.
  intros Hin Hp Hm. unfold monthCount.
  assert (H : In i (filter (inMonth z y mo)
                      (filter (fun i => propertyId i =? pid) l))).
  { apply filter_In. split; [| exact Hm].
    apply filter_In. split; [exact Hin | apply Z.eqb_eq; exact Hp]. }
  destruct (filter _ _); [contradiction | cbn; lia].
Qed.

Lemma monthlyStep_bills acc q0 w :
  99 < getFullYear (tza w) (clock w) ->
  In q0 (db_properties w) ->
  (forall q, In q (db_properties w) -> 0 < p_id q) ->
  let z := tza w in
  let y := getFullYear z (clock w) in
  let mo := getMonth z (clock w) in
  numbersConsistent z y mo (db_properties w) (db_invoices w) ->
  exists acc' w1,
    monthlyStep acc q0 w = (Ok acc', w1)
    /\ db_properties w1 = db_properties w
    /\ tza w1 = tza w /\ clock w1 = clock w
    /\ numbersConsistent z y mo (db_properties w1) (db_invoices w1)
    /\ (1 <= monthCount z y mo (p_id q0) (db_invoices w1))%nat.
Proof.
  intros Hy Hq0 Hpos z y mo Hcons.
  assert (Hmo : 0 <= mo <= 11) by apply MonthFromTime_range.
  assert (Hny : ~ (0 <= y <= 99)) by (unfold y, z; lia).
  unfold monthlyStep, bind. rewrite createInvoiceForProperty_unfold. cbn zeta.
  fold z y mo. change (p_id (row (ofRow q0))) with (p_id q0).
  rewrite existsb_filter_length.
  fold (monthCount z y mo (p_id q0) (db_invoices w)).
  destruct (Nat.eqb_spec (monthCount z y mo (p_id q0) (db_invoices w)) 0)
    as [H0 | H0]; cbn [negb].
  - assert (Hex : Storage.propertyExists (p_id q0) w = true).
    { apply existsb_exists. exists q0. split; [exact Hq0 | apply Z.eqb_refl]. }
    assert (Hfree : Storage.invoiceNumberTaken
                      (scheduledNumber y mo (p_id q0)) (db_invoices w) = false).
    { destruct (Storage.invoiceNumberTaken _ _) eqn:E; [| reflexivity].
      apply existsb_exists in E. destruct E as (i & Hi & Hn).
      apply String.eqb_eq in Hn.
      destruct (Hcons i q0 Hi Hq0 Hn) as [Hp Hm].
      pose proof (monthCount_pos_intro z y mo (p_id q0) _ i Hi Hp Hm). lia. }
    unfold Storage.createInvoice.
    change (i_propertyId (newInvoice z y mo (scheduledNumber y mo (p_id q0)) (ofRow q0)))
      with (p_id q0).
    change (i_invoiceNumber (newInvoice z y mo (scheduledNumber y mo (p_id q0)) (ofRow q0)))
      with (scheduledNumber y mo (p_id q0)).
    rewrite Hex, Hfree. cbn [negb]. unfold ret.
    set (r := Storage.invoiceRow (seq_invoices w + 1) (clock w)
                (newInvoice z y mo (scheduledNumber y mo (p_id q0)) (ofRow q0))).
    destruct (new_row_in_month z y mo (scheduledNumber y mo (p_id q0)) (ofRow q0)
                (seq_invoices w + 1) (clock w) Hny Hmo) as [Hin Hpid].
    fold r in Hin, Hpid. change (p_id (row (ofRow q0))) with (p_id q0) in Hpid.
    eexists. eexists. split; [reflexivity |].
    split; [reflexivity |]. split; [reflexivity |]. split; [reflexivity |].
    cbn [db_invoices db_properties setInvoices]. split.
    + intros i q Hi Hq Hn. apply in_app_or in Hi. destruct Hi as [Hi | [<- | []]].
      * exact (Hcons i q Hi Hq Hn).
      * change (invoiceNumber r) with (scheduledNumber y mo (p_id q0)) in Hn.
        apply scheduledNumber_inj in Hn; [| apply Hpos; assumption ..].
        split; [congruence | exact Hin].
    + apply (monthCount_pos_intro z y mo (p_id q0) _ r);
        [apply in_or_app; right; left; reflexivity | exact Hpid | exact Hin].
  - unfold ret. eexists. eexists. split; [reflexivity |].
    split; [reflexivity |]. split; [reflexivity |]. split; [reflexivity |].
    split; [exact Hcons | lia].
Qed.

Lemma monthly_loop_bills l : forall acc w,
  99 < getFullYear (tza w) (clock w) ->
  (forall q, In q l -> In q (db_properties w)) ->
  (forall q, In q (db_properties w) -> 0 < p_id q) ->
  let z := tza w in
  let y := getFullYear z (clock w) in
  let mo := getMonth z (clock w) in
  numbersConsistent z y mo (db_properties w) (db_invoices w) ->
  exists acc' w',
    foldOf l acc monthlyStep w = (Ok acc', w')
    /\ forall q, In q l -> (1 <= monthCount z y mo (p_id q) (db_invoices w'))%nat.
Proof.
  induction l as [| q0 l IH]; intros acc w Hy Hl Hpos z y mo Hcons.
  - eexists. eexists. split; [reflexivity |]. intros q [].
  - destruct (monthlyStep_bills acc q0 w Hy (Hl q0 (or_introl eq_refl)) Hpos Hcons)
      as (acc1 & w1 & Hstep & Hp & Hz & Hc & Hcons1 & Hone).
    fold z y mo in Hcons1, Hone.
    cbn [foldOf]. unfold bind at 1. rewrite Hstep.
    assert (Hy1 : 99 < getFullYear (tza w1) (clock w1)) by (rewrite Hz, Hc; exact Hy).
    destruct (IH acc1 w1 Hy1) as (acc' & w' & Hrun & Hall).
    + intros q Hq. rewrite Hp. apply Hl. right. exact Hq.
    + rewrite Hp. exact Hpos.
    + rewrite Hz, Hc. exact Hcons1.
    + rewrite Hz, Hc in Hall. fold z y mo in Hall.
      exists acc', w'. split; [exact Hrun |].
      intros q [<- | Hq]; [| exact (Hall q Hq)].
      pose proof (monthly_loop_step l acc1 w1 Hy1) as (_ & _ & Hmono).
      rewrite Hrun in Hmono. cbn [snd] in Hmono. rewrite Hz, Hc in Hmono.
      fold z y mo in Hmono. specialize (Hmono (p_id q0)). lia.
Qed.

(** X2.  The monthly job run twice in one calendar month bills a billable
    property exactly once: when the ids of the table are positive, the
    invoice numbers fit the properties and the property has no invoice of
    the month, it has exactly one after the first run and after the
    second. *)
Lemma monthly_job_exactly_one (w : World) (t2 : Z) (p : Property) :
  99 < getFullYear (tza w) (clock w) ->
  getFullYear (tza w) t2 = getFullYear (tza w) (clock w) ->
  getMonth (tza w) t2 = getMonth (tza w) (clock w) ->
  let z := tza w in
  let y := getFullYear z (clock w) in
  let mo := getMonth z (clock w) in
  (forall q, In q (db_properties w) -> 0 < p_id q) ->
  numbersConsistent z y mo (db_properties w) (db_invoices w) ->
  In p (db_properties w) ->
  isBillable (clock w) p = true ->
  monthCount z y mo (p_id p) (db_invoices w) = 0%nat ->
  let w1 := snd (generateMonthlyInvoices w) in
  let w2 := snd (generateMonthlyInvoices (setClock t2 w1)) in
  monthCount z y mo (p_id p) (db_invoices w1) = 1%nat
  /\ monthCount z y mo (p_id p) (db_invoices w2) = 1%nat.
Proof.
  intros Hy Hy2 Hm2 z y mo Hpos Hcons Hp Hbill H0 w1 w2.
  assert (Hge : (1 <= monthCount z y mo (p_id p) (db_invoices w1))%nat).
  { unfold w1.
    cbv beta iota zeta delta [generateMonthlyInvoices tryCatch bind ret now
      Storage.getProperties].
    destruct (monthly_loop_bills (filter (isBillable (clock w)) (db_properties w))
                (0, []) w Hy) as (acc & w' & Hrun & Hall).
    - intros q Hq. apply filter_In in Hq. tauto.
    - exact Hpos.
    - exact Hcons.
    - fold z y mo in Hall. rewrite Hrun.
      assert (Hw' : (1 <= monthCount z y mo (p_id p) (db_invoices w'))%nat).
      { apply Hall. apply filter_In. split; assumption. }
      destruct (0 <? fst acc); [| exact Hw'].
      pose proof (sendInvoiceCreationSummary_frame (fst acc) (snd acc) w') as (_ & _ & C).
      destruct (sendInvoiceCreationSummary (fst acc) (snd acc) w') as [[b | e] w''];
        cbn [snd] in *; rewrite C; exact Hw'. }
  pose proof (generateMonthlyInvoices_step w Hy) as (_ & _ & H1).
  fold z y mo w1 in H1. specialize (H1 (p_id p)).
  rewrite H0 in H1. cbn in H1.
  assert (E1 : monthCount z y mo (p_id p) (db_invoices w1) = 1%nat) by lia.
  split; [exact E1 |].
  pose proof (generateMonthlyInvoices_step w Hy) as (Hz & Hc & _).
  fold w1 in Hz, Hc.
  pose proof (generateMonthlyInvoices_step (setClock t2 w1)) as Hs2.
  change (tza (setClock t2 w1)) with (tza w1) in Hs2.
  change (clock (setClock t2 w1)) with t2 in Hs2.
  rewrite Hz in Hs2. fold z in Hs2, Hy2, Hm2. rewrite Hy2, Hm2 in Hs2.
  fold y mo in Hs2.
  destruct (Hs2 Hy) as (_ & _ & H2). fold w2 in H2.
  change (db_invoices (setClock t2 w1)) with (db_invoices w1) in H2.
  specialize (H2 (p_id p)). lia.
Qed.

(** ** The send operation *)

Lemma find_property_id pid l prop :
  find (fun p => p_id p =? pid) l = Some prop ->
  p_id prop = pid /\ existsb (fun p => p_id p =? p_id prop) l = true.
Proof.
  intros H. pose proof (find_some _ _ H) as [Hin Heq].
  apply Z.eqb_eq in Heq. split; [exact Heq |].
  apply existsb_exists. exists prop. split; [exact Hin | apply Z.eqb_refl].
Qed.

Lemma find_updateWhere iid f l inv :
  find (fun i => id i =? iid) l = Some inv ->
  id (f inv) = id inv ->
  find (fun i => id i =? iid) (Storage.updateWhere iid f l) = Some (f inv).
Proof.
  intros H Hid. unfold Storage.updateWhere.
  induction l as [| a l IH]; cbn in *; [discriminate |].
  destruct (Z.eqb_spec (id a) iid) as [Ha | Ha].
  - inversion H; subst a. rewrite Hid, Ha, Z.eqb_refl. reflexivity.
  - destruct (Z.eqb_spec (id a) iid); [contradiction | auto].
Qed.

(** What [sendInvoice] does when the property has a tenant email: the
    outcome is the transport's verdict on the mail it builds. *)
Lemma sendInvoice_unfold inv prop cc w :
  JsString.truthyOpt (p_tenantEmail prop) = true ->
  EmailService.sendInvoice inv prop cc w =
  let mail :=
    EmailService.mailOptions inv prop cc
      (PdfService.document (hd_error (db_companySettings w)) inv prop) in
  if smtp w mail then (Ok true, setOutbox (outbox w ++ [mail]) w)
  else (Ok false, w).
Proof.
  intros He.
  cbv beta iota zeta delta [EmailService.sendInvoice tryCatch bind
    PdfService.generateInvoicePDF Storage.getCompanySettings ret throw
    EmailService.sendMail].
  rewrite He. cbn [negb].
  match goal with |- context [smtp w ?m] => destruct (smtp w m) end; reflexivity.
Qed.

Ltac run_route :=
  cbv beta iota zeta delta
    [Routes.postInvoiceSend Routes.putInvoiceStatus Routes.postPropertyInvoice
     Routes.postPropertyGenerateInvoice Routes.respond
     tryCatch bind ret throw now localTza
     Storage.getInvoice Storage.getProperty Storage.getProperties
     Storage.getCompanySettings Storage.getInvoicesByProperty].

(** C3.  Sending an invoice whose property has no tenant email answers 400
    "Tenant email not found" and changes nothing: the world after the
    request is the world before it, so the invoice is stored as it was (a
    draft stays a draft). *)
Theorem send_without_tenant_email (w : World) (iid : Z)
  (bodyCc : option (list string)) (inv : Invoice) (prop : Property) :
  find (fun i => id i =? iid) (db_invoices w) = Some inv ->
  find (fun p => p_id p =? propertyId inv) (db_properties w) = Some prop ->
  p_tenantEmail prop = None ->
  Routes.postInvoiceSend iid bodyCc w =
    (Ok {| Routes.res_status := 400;
           Routes.res_body := Routes.Message "Tenant email not found" |}, w)
  /\ find (fun i => id i =? iid)
       (db_invoices (snd (Routes.postInvoiceSend iid bodyCc w))) = Some inv
  /\ (status inv = "draft" ->
      forall inv',
        find (fun i => id i =? iid)
          (db_invoices (snd (Routes.postInvoiceSend iid bodyCc w))) = Some inv' ->
        status inv' = "draft").
Proof.
  intros Hinv Hprop Hmail.
  assert (Hrun : Routes.postInvoiceSend iid bodyCc w =
                 (Ok {| Routes.res_status := 400;
                        Routes.res_body := Routes.Message "Tenant email not found" |}, w)).
  { run_route. rewrite Hinv, Hprop, Hmail. reflexivity. }
  rewrite Hrun. cbn [snd].
  split; [reflexivity | split; [exact Hinv |]].
  intros Hd inv' Hf. congruence.
Qed.

(** C2.  For an invoice whose property has a tenant email: when the
    dispatch of the mail fails the request answers 500 and the world is
    unchanged (no invoice, notification or mail is touched); when it
    succeeds the invoice gets the request's CC list, status sent, the
    current time as sent date and isNew false, its other fields and the
    other invoices stay as they were, and one invoice_sent notification is
    appended. *)
Theorem send_invoice_all_or_nothing (w : World) (iid : Z)
  (bodyCc : option (list string)) (inv : Invoice) (prop : Property) :
  find (fun i => id i =? iid) (db_invoices w) = Some inv ->
  find (fun p => p_id p =? propertyId inv) (db_properties w) = Some prop ->
  JsString.truthyOpt (p_tenantEmail prop) = true ->
  let cc := match bodyCc with Some l => l | None => [] end in
  let dispatch := EmailService.sendInvoice inv prop cc w in
  let r := Routes.postInvoiceSend iid bodyCc w in
  (fst dispatch = Ok false \/ fst dispatch = Ok true)
  /\ (fst dispatch = Ok false ->
      fst r = Ok {| Routes.res_status := 500;
                    Routes.res_body := Routes.Message "Failed to send invoice email" |}
      /\ snd r = w)
  /\ (fst dispatch = Ok true ->
      fst r = Ok {| Routes.res_status := 200;
                    Routes.res_body :=
                      Routes.SentJson "Invoice sent successfully"
                        (JsString.orOpt (p_tenantEmail prop) "") cc |}
      /\ db_invoices (snd r) =
         map (fun i =>
                if id i =? iid
                then Storage.applyUpdates (Routes.sentUpdates cc (clock w)) i
                else i) (db_invoices w)
      /\ (exists inv',
            find (fun i => id i =? iid) (db_invoices (snd r)) = Some inv'
            /\ sendState inv' = ("sent", Some (clock w), false, Some cc)
            /\ sendFrame inv' = sendFrame inv)
      /\ (exists n,
            db_notifications (snd r) = (db_notifications w ++ [n])%list
            /\ n_type n = "invoice_sent"
            /\ n_propertyId n = p_id prop
            /\ n_isRead n = false)).
Proof.
  intros Hinv Hprop Hmail cc dispatch r.
  pose proof (find_property_id _ _ _ Hprop) as [Hpid Hex].
  unfold r, dispatch.
  rewrite (sendInvoice_unfold inv prop cc w Hmail). cbn zeta.
  set (mail := EmailService.mailOptions inv prop cc _).
  assert (Hroute : Routes.postInvoiceSend iid bodyCc w =
            match EmailService.sendInvoice inv prop cc w with
            | (Ok true, w1) =>
                match Storage.updateInvoice iid (Routes.sentUpdates cc (clock w1)) w1 with
                | (Ok _, w2) =>
                    match Storage.createNotification
                            {| in_propertyId := p_id prop;
                               in_type := "invoice_sent";
                               in_message :=
                                 "Invoice " ++ invoiceNumber inv ++ " sent to "
                                   ++ JsString.orOpt (p_tenantEmail prop) "";
                               in_isRead := Some false |} w2 with
                    | (Ok _, w3) =>
                        (Ok {| Routes.res_status := 200;
                               Routes.res_body :=
                                 Routes.SentJson "Invoice sent successfully"
                                   (JsString.orOpt (p_tenantEmail prop) "") cc |}, w3)
                    | (Throw _, w3) =>
                        (Ok {| Routes.res_status := 500;
                               Routes.res_body := Routes.Message "Failed to send invoice" |}, w3)
                    end
                | (Throw _, w2) =>
                    (Ok {| Routes.res_status := 500;
                           Routes.res_body := Routes.Message "Failed to send invoice" |}, w2)
                end
            | (Ok false, w1) =>
                (Ok {| Routes.res_status := 500;
                       Routes.res_body := Routes.Message "Failed to send invoice email" |}, w1)
            | (Throw _, w1) =>
                (Ok {| Routes.res_status := 500;
                       Routes.res_body := Routes.Message "Failed to send invoice" |}, w1)
            end).
  { run_route. rewrite Hinv, Hprop, Hmail. cbn [negb]. fold cc.
    destruct (EmailService.sendInvoice inv prop cc w) as [[[|] | e] w1];
      cbn [negb]; try reflexivity.
    destruct (Storage.updateInvoice _ _ w1) as [[u | e] w2]; try reflexivity.
    destruct (Storage.createNotification _ w2) as [[n | e] w3]; reflexivity. }
  rewrite Hroute, (sendInvoice_unfold inv prop cc w Hmail). cbn zeta. fold mail.
  destruct (smtp w mail) eqn:Hsmtp; cbn [fst snd].
  - (* the transport accepted the mail *)
    split; [right; reflexivity |]. split; [intros H; discriminate |]. intros _.
    unfold Storage.updateInvoice.
    change (db_invoices (setOutbox (outbox w ++ [mail]) w)) with (db_invoices w).
    rewrite Hinv. cbn [Routes.sentUpdates u_propertyId u_invoiceNumber].
    unfold Storage.createNotification.
    cbv beta iota zeta delta [in_propertyId Storage.propertyExists].
    change (db_properties (setInvoices _ _ (setOutbox _ w))) with (db_properties w).
    rewrite Hex. cbn [negb fst snd].
    split; [reflexivity |]. split; [reflexivity |]. split.
    + exists (Storage.applyUpdates (Routes.sentUpdates cc (clock w)) inv).
      split; [| split; reflexivity].
      apply (find_updateWhere iid _ (db_invoices w) inv Hinv). reflexivity.
    + eexists. split; [reflexivity |]. cbn. auto.
  - (* the transport failed *)
    split; [left; reflexivity |]. split; [intros _; split; reflexivity |].
    intros H; discriminate.
Qed.

(** ** The status update *)

Lemma includes_status v :
  Json.includes ["draft"; "sent"; "paid"] v = true <->
  v = Json.JString "draft" \/ v = Json.JString "sent" \/ v = Json.JString "paid".
Proof.
  split.
  - destruct v; cbn; try discriminate.
    destruct (String.eqb_spec s "draft") as [-> | _]; [auto |].
    destruct (String.eqb_spec s "sent") as [-> | _]; [auto |].
    destruct (String.eqb_spec s "paid") as [-> | _]; [auto |].
    discriminate.
  - intros [-> | [-> | ->]]; reflexivity.
Qed.

(** C10.  The status update accepts draft, sent and paid whatever the
    current status of the invoice: the stored invoice then differs from the
    old one in its status only, every other invoice and the rest of the
    world stay as they were.  Any other value of the status is answered 400
    "Invalid status" with no change at all. *)
Theorem status_update_frame (w : World) (iid : Z) (v : Json.value) :
  let r := Routes.putInvoiceStatus iid v w in
  let allowed :=
    v = Json.JString "draft" \/ v = Json.JString "sent" \/ v = Json.JString "paid" in
  (allowed ->
   forall inv,
     find (fun i => id i =? iid) (db_invoices w) = Some inv ->
     exists inv',
       fst r = Ok {| Routes.res_status := 200;
                     Routes.res_body := Routes.InvoiceJson inv' |}
       /\ Json.JString (status inv') = v
       /\ statusFrame inv' = statusFrame inv
       /\ find (fun i => id i =? iid) (db_invoices (snd r)) = Some inv'
       /\ snd r =
          setInvoices
            (map (fun i => if id i =? iid
                           then Storage.withStatus (Json.text v) i else i)
               (db_invoices w))
            (seq_invoices w) w
       /\ (forall i, statusFrame (Storage.withStatus (Json.text v) i) = statusFrame i))
  /\ (~ allowed ->
      r = (Ok {| Routes.res_status := 400;
                 Routes.res_body := Routes.Message "Invalid status" |}, w)).
Proof.
  intros r allowed. unfold r. split.
  - intros Hal inv Hinv.
    assert (Hinc : Json.includes ["draft"; "sent"; "paid"] v = true)
      by (apply includes_status; exact Hal).
    assert (Htr : Json.truthy v = true)
      by (destruct Hal as [-> | [-> | ->]]; reflexivity).
    assert (Htxt : Json.JString (Json.text v) = v)
      by (destruct Hal as [-> | [-> | ->]]; reflexivity).
    exists (Storage.withStatus (Json.text v) inv).
    run_route. rewrite Hinc, Htr. cbn [negb orb].
    unfold Storage.updateInvoiceStatus. rewrite Hinv. cbn [fst snd].
    repeat match goal with |- _ /\ _ => split end; try reflexivity.
    + exact Htxt.
    + apply (find_updateWhere iid _ (db_invoices w) inv Hinv). reflexivity.
  - intros Hnot.
    assert (Hinc : Json.includes ["draft"; "sent"; "paid"] v = false).
    { destruct (Json.includes _ v) eqn:E; [| reflexivity].
      apply includes_status in E. contradiction. }
    run_route. rewrite Hinc. rewrite orb_true_r. reflexivity.
Qed.

(** ** The lease-expiry notifier *)

Lemma ceilDiv_spec a b d :
  0 < b -> (JsNumber.ceilDiv a b = d <-> (d - 1) * b < a <= d * b).
Proof.
  intros Hb. unfold JsNumber.ceilDiv. split.
  - intros <-. Z.to_euclidean_division_equations. nia.
  - intros H. Z.to_euclidean_division_equations. nia.
Qed.

Lemma isTriggerDay_spec d :
  NotificationService.isTriggerDay d = true <-> d = 30 \/ d = 7 \/ d = 1.
Proof.
  unfold NotificationService.isTriggerDay.
  rewrite !orb_true_iff, !Z.eqb_eq. tauto.
Qed.

Lemma operatorAddress_spec cs :
  PdfService.settingOr cs cs_notificationEmail "fullardpropertymgmt@gmail.com"
  = operatorAddress cs.
Proof.
  destruct cs as [c |]; [| reflexivity].
  unfold PdfService.settingOr, operatorAddress, JsString.or.
  destruct (cs_notificationEmail c); reflexivity.
Qed.

Lemma sendLeaseExpiryNotification_unfold p d w :
  NotificationService.sendLeaseExpiryNotification p d w =
  let cs := hd_error (db_companySettings w) in
  let mail :=
    {| m_to := operatorAddress cs;
       m_cc := None;
       m_subject := "Lease Expiry Alert - " ++ p_name p;
       m_body := LeaseExpiryAlert p d |} in
  if NotificationService.settingOn cs cs_notifyLeaseExpiry then
    if smtp w mail then (Ok true, setOutbox (outbox w ++ [mail]) w)
    else (Ok false, w)
  else (Ok false, w).
Proof.
  cbv beta iota zeta delta
    [NotificationService.sendLeaseExpiryNotification tryCatch bind ret throw
     Storage.getCompanySettings EmailService.sendNotificationEmail
     EmailService.sendMail].
  rewrite operatorAddress_spec.
  destruct (NotificationService.settingOn _ _); cbn [negb]; [| reflexivity].
  match goal with |- context [smtp w ?m] => destruct (smtp w m) end; reflexivity.
Qed.

Lemma deliver_outbox l w : outbox (deliver l w) = (outbox w ++ l)%list.
Proof. destruct l; cbn; [rewrite app_nil_r |]; reflexivity. Qed.

Lemma deliver_app l1 l2 w :
  deliver l2 (deliver l1 w) = deliver (l1 ++ l2) w.
Proof.
  destruct l1 as [| a l1]; [reflexivity |].
  destruct l2 as [| b l2]; cbn.
  - rewrite app_nil_r. reflexivity.
  - rewrite <- app_assoc. reflexivity.
Qed.

(** The mails the loop of the notifier gets delivered. *)
Lemma notifier_loop t l : forall w,
  forOf l (NotificationService.checkProperty t) w =
  (Ok tt,
   deliver
     (if NotificationService.settingOn (hd_error (db_companySettings w))
           cs_notifyLeaseExpiry
      then filter (smtp w)
             (map (leaseAlertMail (hd_error (db_companySettings w)) t)
                (filter (leaseAlertDue t) l))
      else []) w).
Proof.
  induction l as [| p l IH]; intros w.
  - cbn. destruct (NotificationService.settingOn _ _); reflexivity.
  - cbn [forOf]. unfold bind at 1.
    assert (Hstep :
      NotificationService.checkProperty t p w =
      (Ok tt,
       deliver
         (if (leaseAlertDue t p
              && NotificationService.settingOn (hd_error (db_companySettings w))
                   cs_notifyLeaseExpiry
              && smtp w (leaseAlertMail (hd_error (db_companySettings w)) t p))%bool
          then [leaseAlertMail (hd_error (db_companySettings w)) t p]
          else []) w)).
    { unfold NotificationService.checkProperty, leaseAlertDue, leaseAlertMail.
      destruct (p_isOccupied p); cbn [andb]; [| reflexivity].
      destruct (p_leaseEndDate p) as [e |]; [| reflexivity].
      destruct (NotificationService.isTriggerDay _); cbn [andb]; [| reflexivity].
      unfold bind. rewrite sendLeaseExpiryNotification_unfold. cbn zeta.
      destruct (NotificationService.settingOn _ _); cbn [andb]; [| reflexivity].
      match goal with |- context [smtp w ?m] => destruct (smtp w m) end;
        reflexivity. }
    rewrite Hstep, IH.
    assert (Hcs : forall m, db_companySettings (deliver m w) = db_companySettings w)
      by (intros [| ? ?]; reflexivity).
    assert (Hsm : forall m, smtp (deliver m w) = smtp w)
      by (intros [| ? ?]; reflexivity).
    rewrite Hcs, Hsm, deliver_app. do 2 f_equal.
    cbn [filter map].
    destruct (leaseAlertDue t p); cbn [andb map filter]; [| reflexivity].
    destruct (NotificationService.settingOn _ _); cbn [andb]; [| reflexivity].
    destruct (smtp w (leaseAlertMail _ t p)); reflexivity.
Qed.

(** C6.  One run of the daily notifier delivers, when the stored settings
    have [notifyLeaseExpiry] on, exactly the lease-expiry mails of the
    properties that are occupied and whose lease end is 30, 7 or 1 days
    away (those the transport accepts), in the order of the properties and
    addressed to the notification address of the settings, and delivers
    nothing when the setting is off or no settings are stored; the days are
    the ceiling of (leaseEnd - now) / one day, so 6 or 8 days away never
    fires. *)
Theorem lease_expiry_notifier (w : World) :
  let cs := hd_error (db_companySettings w) in
  let t := clock w in
  let r := NotificationService.checkAndSendLeaseExpiryNotifications w in
  let enabled :=
    match cs with Some c => cs_notifyLeaseExpiry c | None => false end in
  let mails :=
    if enabled
    then filter (smtp w)
           (map (leaseAlertMail cs t) (filter (leaseAlertDue t) (db_properties w)))
    else [] in
  r = (Ok tt, deliver mails w)
  /\ outbox (snd r) = (outbox w ++ mails)%list
  /\ (forall p,
        leaseAlertDue t p = true <->
        p_isOccupied p = true
        /\ exists e,
             p_leaseEndDate p = Some e
             /\ (NotificationService.daysUntilExpiry e t = 30
                 \/ NotificationService.daysUntilExpiry e t = 7
                 \/ NotificationService.daysUntilExpiry e t = 1))
  /\ (forall e d,
        NotificationService.daysUntilExpiry e t = d <->
        (d - 1) * 86400000 < e - t <= d * 86400000)
  /\ (forall p e,
        p_leaseEndDate p = Some e ->
        NotificationService.daysUntilExpiry e t = 6
        \/ NotificationService.daysUntilExpiry e t = 8 ->
        leaseAlertDue t p = false).
Proof.
  intros cs t r enabled mails.
  assert (Hrun : r = (Ok tt, deliver mails w)).
  { unfold r.
    cbv beta iota zeta delta
      [NotificationService.checkAndSendLeaseExpiryNotifications tryCatch bind
       Storage.getProperties now].
    rewrite notifier_loop. reflexivity. }
  assert (Hdue : forall p,
        leaseAlertDue t p = true <->
        p_isOccupied p = true
        /\ exists e,
             p_leaseEndDate p = Some e
             /\ (NotificationService.daysUntilExpiry e t = 30
                 \/ NotificationService.daysUntilExpiry e t = 7
                 \/ NotificationService.daysUntilExpiry e t = 1)).
  { intros p. unfold leaseAlertDue. rewrite andb_true_iff.
    destruct (p_leaseEndDate p) as [e |].
    - rewrite isTriggerDay_spec. split.
      + intros [Ho Hd]. split; [exact Ho | exists e; auto].
      + intros [Ho (e' & He & Hd)]. inversion He; subst e'. auto.
    - split; [intros [_ H]; discriminate | intros [_ (e & He & _)]; discriminate]. }
  repeat match goal with |- _ /\ _ => split end.
  - exact Hrun.
  - rewrite Hrun. cbn [snd]. apply deliver_outbox.
  - exact Hdue.
  - intros e d. unfold NotificationService.daysUntilExpiry.
    change (1000 * 3600 * 24) with 86400000.
    apply ceilDiv_spec. lia.
  - intros p e He Hd.
    destruct (leaseAlertDue t p) eqn:E; [| reflexivity].
    apply Hdue in E. destruct E as [_ (e' & He' & Hd')].
    rewrite He in He'. inversion He'; subst e'. lia.
Qed.

(** ** The VAT rate and the amount breakdown of the document *)

(** C9.  Rendering always yields a document and changes nothing.  For a
    VAT-exempt property its amount section is the single line Amount with
    the invoice's stored amount; otherwise it is the three lines
    Rent (Excluding VAT) = amount / (1 + rate/100), VAT = amount minus
    that, and Amount (Including VAT) = amount, computed in binary64.  The
    rate is the rate string of the first row of the company settings as
    stored when the document is rendered ("15.00" when there is no row or
    the string is empty); the invoice records no rate. *)
Theorem pdf_amount_breakdown (w : World) (inv : Invoice) (prop : Property) :
  let rateText :=
    match db_companySettings w with
    | c :: _ => if String.eqb (cs_vatRate c) "" then "15.00" else cs_vatRate c
    | [] => "15.00"
    end in
  let a := JsNumber.parseFloat (amount inv) in
  let rate := JsNumber.parseFloat rateText in
  let excl :=
    JsNumber.div a
      (JsNumber.add (JsNumber.ofZ 1) (JsNumber.div rate (JsNumber.ofZ 100))) in
  exists doc,
    PdfService.generateInvoicePDF inv prop w = (Ok doc, w)
    /\ pdf_total doc = a
    /\ pdf_amountLines doc =
       (if p_isVatExempt prop then [(LAmount, a)]
        else [(LRentExcludingVat, excl);
              (LVat rate, JsNumber.sub a excl);
              (LAmountIncludingVat, a)]).
Proof.
  intros rateText a rate excl.
  exists (PdfService.document (hd_error (db_companySettings w)) inv prop).
  split; [reflexivity |]. split; [reflexivity |].
  assert (Hrate : PdfService.vatRate (hd_error (db_companySettings w)) = rate).
  { unfold rate, rateText, PdfService.vatRate, PdfService.settingOr, JsString.or.
    destruct (db_companySettings w) as [| c l]; [reflexivity |]. cbn [hd_error].
    destruct (cs_vatRate c); reflexivity. }
  unfold PdfService.document, PdfService.amountBreakdown. cbn [pdf_amountLines].
  rewrite Hrate. destruct (p_isVatExempt prop); reflexivity.
Qed.

(** C7 (amended).  The VAT rate read from the settings is 15 when there is
    no settings record or its rate string is empty; a rate string that is
    present is parsed by [parseFloat], whatever it holds.  The computation
    never fails: the multiplier is 1 + rate/100 of that number and the
    document is rendered; a rate that does not parse is NaN, and NaN is what
    the multiplier and the derived amounts then are. *)
Theorem vat_rate_fallback (cs : option CompanySettings) :
  let rate := PdfService.vatRate cs in
  (cs = None -> rate = JsNumber.ofZ 15)
  /\ (forall c, cs = Some c -> cs_vatRate c = "" -> rate = JsNumber.ofZ 15)
  /\ (forall c, cs = Some c -> cs_vatRate c <> "" ->
      rate = JsNumber.parseFloat (cs_vatRate c))
  /\ Client.getVatMultiplier cs =
     JsNumber.add (JsNumber.ofZ 1) (JsNumber.div rate (JsNumber.ofZ 100))
  /\ (rate = JsNumber.ofZ 15 ->
      Client.getVatMultiplier cs = S754_finite false 5179139571476070 (-52))
  /\ (rate = JsNumber.NaN ->
      Client.getVatMultiplier cs = JsNumber.NaN
      /\ forall inv prop,
           p_isVatExempt prop = false ->
           map snd (PdfService.amountBreakdown cs inv prop) =
           [JsNumber.NaN; JsNumber.NaN; JsNumber.parseFloat (amount inv)])
  /\ (forall w inv prop,
        hd_error (db_companySettings w) = cs ->
        exists doc, PdfService.generateInvoicePDF inv prop w = (Ok doc, w)).
Proof.
  intros rate. unfold rate, PdfService.vatRate, Client.getVatMultiplier.
  repeat match goal with |- _ /\ _ => split end.
  - intros ->. vm_compute. reflexivity.
  - intros c -> Hr. cbn [PdfService.settingOr]. rewrite Hr. vm_compute. reflexivity.
  - intros c -> Hr. cbn [PdfService.settingOr]. unfold JsString.or.
    destruct (cs_vatRate c); [congruence | reflexivity].
  - reflexivity.
  - intros ->. vm_compute. reflexivity.
  - intros Hnan. rewrite Hnan. split; [reflexivity |].
    intros inv prop Hex. unfold PdfService.amountBreakdown, PdfService.vatRate.
    rewrite Hex, Hnan. cbn [map snd].
    destruct (JsNumber.parseFloat (amount inv)); reflexivity.
  - intros w inv prop Hcs. eexists. reflexivity.
Qed.

(** C7, the claim as stated fails: a rate string that does not parse gives
    NaN, not 15, and the breakdown of a document is NaN with it. *)
Lemma vat_rate_unparseable_is_NaN :
  PdfService.vatRate (Some (settingsWithRate "abc")) = JsNumber.NaN
  /\ PdfService.vatRate (Some (settingsWithRate "abc")) <> JsNumber.ofZ 15
  /\ Client.getVatMultiplier (Some (settingsWithRate "abc")) = JsNumber.NaN
  /\ PdfService.amountBreakdown (Some (settingsWithRate "abc"))
       (scheduledInvoice sampleProperty 1) sampleProperty =
     [(LRentExcludingVat, JsNumber.NaN);
      (LVat JsNumber.NaN, JsNumber.NaN);
      (LAmountIncludingVat, JsNumber.ofZ 1150)].
Proof.
  repeat split; try (vm_compute; reflexivity). vm_compute. discriminate.
Qed.

(** ** Manual generation *)

Lemma sendInvoiceGenerationNotification_ok q n u :
  exists b, fst (NotificationService.sendInvoiceGenerationNotification q n u) = Ok b.
Proof.
  cbv beta iota zeta delta
    [NotificationService.sendInvoiceGenerationNotification tryCatch bind ret
     throw Storage.getCompanySettings EmailService.sendNotificationEmail
     EmailService.sendMail].
  destruct (NotificationService.settingOn _ _); cbn [negb];
    [| eexists; reflexivity].
  match goal with |- context [smtp u ?m] => destruct (smtp u m) end;
    eexists; reflexivity.
Qed.

Lemma sendInvoiceGenerationNotification_db q n u :
  db_invoices (snd (NotificationService.sendInvoiceGenerationNotification q n u))
  = db_invoices u.
Proof.
  cbv beta iota zeta delta
    [NotificationService.sendInvoiceGenerationNotification tryCatch bind ret
     throw Storage.getCompanySettings EmailService.sendNotificationEmail
     EmailService.sendMail].
  destruct (NotificationService.settingOn _ _); cbn [negb]; [| reflexivity].
  match goal with |- context [smtp u ?m] => destruct (smtp u m) end; reflexivity.
Qed.

(** What the manual builder does: it never looks at the invoices of the
    month; only the database can refuse the insert. *)
Lemma createManualInvoiceForProperty_unfold p w :
  createManualInvoiceForProperty p w =
  let z := tza w in
  let y := getFullYear z (clock w) in
  let mo := getMonth z (clock w) in
  let number := manualNumber y mo (p_id (row p)) (clock w) in
  match Storage.createInvoice (newInvoice z y mo number p) w with
  | (Ok _, w1) =>
      (Ok tt,
       snd (NotificationService.sendInvoiceGenerationNotification (row p) number w1))
  | (Throw e, w1) => (Throw e, w1)
  end.
Proof.
  cbv beta iota zeta delta [createManualInvoiceForProperty tryCatch bind ret throw
    now localTza].
  destruct (Storage.createInvoice _ w) as [[a | e] w1]; [| reflexivity].
  match goal with
  | |- context [NotificationService.sendInvoiceGenerationNotification ?q ?n w1] =>
      destruct (sendInvoiceGenerationNotification_ok q n w1) as [b Hb];
      destruct (NotificationService.sendInvoiceGenerationNotification q n w1)
        as [[b' | e] w2]
  end; [reflexivity | discriminate].
Qed.

(** X5.  Manual generation bypasses the check of the month: with the property in
    the table and the number free, an invoice is appended however many
    invoices of the month the property already has. *)
Lemma manual_generation_bypasses_month_check w pid prop :
  find (fun p => p_id p =? pid) (db_properties w) = Some prop ->
  let z := tza w in
  let y := getFullYear z (clock w) in
  let mo := getMonth z (clock w) in
  let number := manualNumber y mo (p_id prop) (clock w) in
  Storage.invoiceNumberTaken number (db_invoices w) = false ->
  fst (Routes.postPropertyInvoice pid w) =
    Ok {| Routes.res_status := 200;
          Routes.res_body := Routes.Message "Invoice generated successfully" |}
  /\ db_invoices (snd (Routes.postPropertyInvoice pid w)) =
     (db_invoices w
      ++ [Storage.invoiceRow (seq_invoices w + 1) (clock w)
            (newInvoice z y mo number (ofRow prop))])%list.
Proof.
  intros Hp z y mo number Hfree.
  pose proof (find_property_id _ _ _ Hp) as [Hid Hex].
  assert (Hm : createManualInvoiceForProperty (ofRow prop) w =
               (Ok tt,
                snd (NotificationService.sendInvoiceGenerationNotification prop number
                       (setInvoices
                          (db_invoices w
                           ++ [Storage.invoiceRow (seq_invoices w + 1) (clock w)
                                 (newInvoice z y mo number (ofRow prop))])
                          (seq_invoices w + 1) w)))).
  { rewrite createManualInvoiceForProperty_unfold. cbn zeta.
    fold z y mo. change (p_id (row (ofRow prop))) with (p_id prop). fold number.
    unfold Storage.createInvoice.
    change (i_propertyId (newInvoice z y mo number (ofRow prop))) with (p_id prop).
    change (i_invoiceNumber (newInvoice z y mo number (ofRow prop))) with number.
    unfold Storage.propertyExists. rewrite Hex, Hfree. reflexivity. }
  cbv beta iota zeta delta [Routes.postPropertyInvoice manualGenerateInvoice
    tryCatch bind ret throw Storage.getProperty Routes.respond].
  rewrite Hp, Hm. cbn [negb fst snd].
  split; [reflexivity |]. apply sendInvoiceGenerationNotification_db.
Qed.

(** X6.  When the number a manual generation builds is already stored, the
    insert is refused, the route answers 500 and no invoice is added. *)
Lemma manual_generation_same_number_refused w pid prop :
  find (fun p => p_id p =? pid) (db_properties w) = Some prop ->
  Storage.invoiceNumberTaken
    (manualNumber (getFullYear (tza w) (clock w)) (getMonth (tza w) (clock w))
       (p_id prop) (clock w))
    (db_invoices w) = true ->
  fst (Routes.postPropertyInvoice pid w) =
    Ok {| Routes.res_status := 500;
          Routes.res_body := Routes.Message "Failed to generate invoice" |}
  /\ db_invoices (snd (Routes.postPropertyInvoice pid w)) = db_invoices w.
Proof.
  intros Hp Htaken.
  pose proof (find_property_id _ _ _ Hp) as [Hid Hex].
  assert (Hm : exists e,
             createManualInvoiceForProperty (ofRow prop) w =
             (Throw e, setInvoices (db_invoices w) (seq_invoices w + 1) w)).
  { rewrite createManualInvoiceForProperty_unfold. cbn zeta.
    change (p_id (row (ofRow prop))) with (p_id prop).
    unfold Storage.createInvoice.
    match goal with
    | |- context [i_propertyId (newInvoice ?z ?y ?mo ?n ?p)] =>
        change (i_propertyId (newInvoice z y mo n p)) with (p_id prop);
        change (i_invoiceNumber (newInvoice z y mo n p)) with n
    end.
    unfold Storage.propertyExists. rewrite Hex, Htaken. cbn [negb].
    eexists. reflexivity. }
  destruct Hm as [e Hm].
  cbv beta iota zeta delta [Routes.postPropertyInvoice manualGenerateInvoice
    tryCatch bind ret throw Storage.getProperty Routes.respond].
  rewrite Hp, Hm. split; reflexivity.
Qed.

(** C8.  Manual generation for an id with no stored property: the service
    throws "Property not found" and creates nothing, and both routes answer
    that with 500 "Failed to generate invoice" (not with 404, and not with
    the 400 of their own failure branch, which the service never reaches). *)
Theorem manual_generation_unknown_property (w : World) (pid : Z) :
  find (fun p => p_id p =? pid) (db_properties w) = None ->
  manualGenerateInvoice pid w = (Throw "Property not found", w)
  /\ Routes.postPropertyInvoice pid w =
     (Ok {| Routes.res_status := 500;
            Routes.res_body := Routes.Message "Failed to generate invoice" |}, w)
  /\ Routes.postPropertyGenerateInvoice pid w =
     (Ok {| Routes.res_status := 500;
            Routes.res_body := Routes.Message "Failed to generate invoice" |}, w).
Proof.
  intros H.
  cbv beta iota zeta delta [Routes.postPropertyInvoice
    Routes.postPropertyGenerateInvoice manualGenerateInvoice
    tryCatch bind ret throw Storage.getProperty Routes.respond].
  rewrite H. repeat split.
Qed.

(** Property 999 does not exist in the sample world. *)
Lemma manual_generation_unknown_property_witness :
  Routes.res_status
    (match fst (Routes.postPropertyInvoice 999 sampleWorld) with
     | Ok r => r
     | Throw _ => {| Routes.res_status := 0; Routes.res_body := Routes.Message "" |}
     end) = 500
  /\ snd (Routes.postPropertyInvoice 999 sampleWorld) = sampleWorld.
Proof.
  destruct (manual_generation_unknown_property sampleWorld 999 eq_refl)
    as (_ & H & _).
  rewrite H. split; reflexivity.
Defined.

(** C5.  Two manual generations for property 1 in the sample world, ten
    seconds apart: both build the number INV-202611-001-0000, the second
    insert is refused by the unique constraint on the invoice number, the
    route answers 500 and one invoice exists, not two with distinct
    numbers. *)
Theorem manual_generation_suffix_collision :
  let first := Routes.postPropertyInvoice 1 sampleWorld in
  let second :=
    Routes.postPropertyInvoice 1 (setClock (1793606400000 + 10000) (snd first)) in
  manualNumber 2026 10 1 1793606400000 = "INV-202611-001-0000"
  /\ manualNumber 2026 10 1 (1793606400000 + 10000) = "INV-202611-001-0000"
  /\ fst first =
     Ok {| Routes.res_status := 200;
           Routes.res_body := Routes.Message "Invoice generated successfully" |}
  /\ fst second =
     Ok {| Routes.res_status := 500;
           Routes.res_body := Routes.Message "Failed to generate invoice" |}
  /\ map invoiceNumber (db_invoices (snd second)) = ["INV-202611-001-0000"].
Proof.
  vm_compute. repeat split.
Qed.

(** ** Examples *)

(** Outside the data model: a VAT-exempt property whose two stored rents
    differ is billed its inclusive rent. *)
Lemma unequal_rents_bill_inclusive :
  exists inv w',
    createInvoiceForProperty (ofRow exemptProperty) sampleWorld = (Ok (Some inv), w')
    /\ p_isVatExempt exemptProperty = true
    /\ p_rentExcludingVat exemptProperty = "1000.00"
    /\ amount inv = "1150.00".
Proof.
  eexists. eexists. split; [vm_compute; reflexivity |].
  repeat split.
Qed.

(** The invoice of Flat 1 for November 2026 in South Africa, and the
    invoice of the VAT-exempt cottage for March 2026 in a zone that changed
    to summer time during the month. *)
Lemma scheduled_invoice_fields_witness :
  (createInvoiceForProperty (ofRow sampleProperty) sampleWorld =
     (Ok (Some (scheduledInvoice sampleProperty 1)),
      setInvoices [scheduledInvoice sampleProperty 1] 1 sampleWorld)
   /\ invoiceNumber (scheduledInvoice sampleProperty 1) = "INV-202611-001"
   /\ getDate 7200000 (rentPeriodEnd (scheduledInvoice sampleProperty 1)) = 30
   /\ amount (scheduledInvoice sampleProperty 1) = "1150.00")
  /\ (createInvoiceForProperty (ofRow exemptCottage) springWorld =
        (Ok (Some springInvoice), setInvoices [springInvoice] 1 springWorld)
      /\ invoiceNumber springInvoice = "INV-202603-003"
      /\ (getFullYear centralEurope2026 (rentPeriodEnd springInvoice),
          getMonth centralEurope2026 (rentPeriodEnd springInvoice),
          getDate centralEurope2026 (rentPeriodEnd springInvoice)) = (2026, 2, 31)
      /\ LocalTime centralEurope2026 (invoiceDate springInvoice)
         = invoiceDate springInvoice + 3600000
      /\ LocalTime centralEurope2026 (rentPeriodEnd springInvoice)
         = rentPeriodEnd springInvoice + 7200000
      /\ p_isVatExempt exemptCottage = true
      /\ amount springInvoice = p_rentExcludingVat exemptCottage).
Proof.
  split.
  - assert (Hrun : createInvoiceForProperty (ofRow sampleProperty) sampleWorld =
                   (Ok (Some (scheduledInvoice sampleProperty 1)),
                    setInvoices [scheduledInvoice sampleProperty 1] 1 sampleWorld))
      by (vm_compute; reflexivity).
    assert (Hy : 99 < getFullYear (tza sampleWorld) (clock sampleWorld))
      by (vm_compute; reflexivity).
    assert (Hrent : p_rentIncludingVat (row (ofRow sampleProperty)) <> "")
      by discriminate.
    assert (Hexempt : p_isVatExempt (row (ofRow sampleProperty)) = true ->
                      p_rentExcludingVat (row (ofRow sampleProperty))
                      = p_rentIncludingVat (row (ofRow sampleProperty)))
      by discriminate.
    pose proof (scheduled_invoice_fields sampleWorld _ (ofRow sampleProperty) _
                  Hy Hrent Hexempt Hrun) as H.
    cbv zeta in H.
    destruct H as (_ & _ & _ & _ & _ & Hend & _ & _ & Hamt & Hnum & _).
    split; [exact Hrun |]. split; [rewrite Hnum; vm_compute; reflexivity |].
    split; [vm_compute; reflexivity | exact Hamt].
  - assert (Hrun : createInvoiceForProperty (ofRow exemptCottage) springWorld =
                   (Ok (Some springInvoice), setInvoices [springInvoice] 1 springWorld))
      by (vm_compute; reflexivity).
    assert (Hy : 99 < getFullYear (tza springWorld) (clock springWorld))
      by (vm_compute; reflexivity).
    assert (Hrent : p_rentIncludingVat (row (ofRow exemptCottage)) <> "")
      by discriminate.
    assert (Hexempt : p_isVatExempt (row (ofRow exemptCottage)) = true ->
                      p_rentExcludingVat (row (ofRow exemptCottage))
                      = p_rentIncludingVat (row (ofRow exemptCottage)))
      by reflexivity.
    pose proof (scheduled_invoice_fields springWorld _ (ofRow exemptCottage) _
                  Hy Hrent Hexempt Hrun) as H.
    cbv zeta in H.
    destruct H as (_ & _ & _ & _ & _ & Hend & _ & _ & Hamt & Hnum & _).
    split; [exact Hrun |]. split; [rewrite Hnum; vm_compute; reflexivity |].
    split; [exact Hend |].
    split; [vm_compute; reflexivity |]. split; [vm_compute; reflexivity |].
    split; [reflexivity | exact Hamt].
Defined.



(** Invoice 2 belongs to Flat 2, whose tenant has no email address. *)
Lemma send_without_tenant_email_witness :
  Routes.postInvoiceSend 2 (Some ["owner@example.com"]) billedWorld =
    (Ok {| Routes.res_status := 400;
           Routes.res_body := Routes.Message "Tenant email not found" |},
     billedWorld)
  /\ find (fun i => id i =? 2)
       (db_invoices (snd (Routes.postInvoiceSend 2 (Some ["owner@example.com"])
                            billedWorld)))
     = Some (scheduledInvoice exemptProperty 2).
Proof.
  destruct (send_without_tenant_email billedWorld 2 (Some ["owner@example.com"])
              (scheduledInvoice exemptProperty 2) exemptProperty
              eq_refl eq_refl eq_refl) as (H1 & H2 & _).
  split; [exact H1 | exact H2].
Defined.

(** Invoice 1 sent with one CC address, the transport down and up. *)
Lemma send_invoice_all_or_nothing_witness :
  snd (Routes.postInvoiceSend 1 (Some ["owner@example.com"]) (offlineWorld billedWorld))
    = offlineWorld billedWorld
  /\ (exists n,
        db_notifications
          (snd (Routes.postInvoiceSend 1 (Some ["owner@example.com"]) billedWorld))
        = [n] /\ n_type n = "invoice_sent")
  /\ map sendState
       (db_invoices
          (snd (Routes.postInvoiceSend 1 (Some ["owner@example.com"]) billedWorld)))
     = [("sent", Some 1793606400000, false, Some ["owner@example.com"]);
        ("draft", None, true, Some [])].
Proof.
  split; [| split].
  - destruct (send_invoice_all_or_nothing (offlineWorld billedWorld) 1
                (Some ["owner@example.com"]) (scheduledInvoice sampleProperty 1)
                sampleProperty eq_refl eq_refl eq_refl) as (_ & Hfail & _).
    apply Hfail. vm_compute. reflexivity.
  - destruct (send_invoice_all_or_nothing billedWorld 1
                (Some ["owner@example.com"]) (scheduledInvoice sampleProperty 1)
                sampleProperty eq_refl eq_refl eq_refl) as (_ & _ & Hok).
    destruct (Hok ltac:(vm_compute; reflexivity)) as (_ & _ & _ & n & Hn & Ht & _).
    exists n. split; [exact Hn | exact Ht].
  - destruct (send_invoice_all_or_nothing billedWorld 1
                (Some ["owner@example.com"]) (scheduledInvoice sampleProperty 1)
                sampleProperty eq_refl eq_refl eq_refl) as (_ & _ & Hok).
    destruct (Hok ltac:(vm_compute; reflexivity)) as (_ & Hdb & _).
    rewrite Hdb. vm_compute. reflexivity.
Defined.

(** Invoice 1 marked paid, and a status the route refuses. *)
Lemma status_update_frame_witness :
  (exists inv',
     fst (Routes.putInvoiceStatus 1 (Json.JString "paid") billedWorld) =
       Ok {| Routes.res_status := 200; Routes.res_body := Routes.InvoiceJson inv' |}
     /\ status inv' = "paid"
     /\ statusFrame inv' = statusFrame (scheduledInvoice sampleProperty 1))
  /\ Routes.putInvoiceStatus 1 (Json.JString "void") billedWorld =
     (Ok {| Routes.res_status := 400;
            Routes.res_body := Routes.Message "Invalid status" |}, billedWorld).
Proof.
  destruct (status_update_frame billedWorld 1 (Json.JString "paid")) as [Hok _].
  destruct (status_update_frame billedWorld 1 (Json.JString "void")) as [_ Hbad].
  split.
  - destruct (Hok ltac:(right; right; reflexivity)
                (scheduledInvoice sampleProperty 1) eq_refl)
      as (inv' & H1 & H2 & H3 & _).
    exists inv'. split; [exact H1 |]. split; [| exact H3].
    injection H2 as H2. exact H2.
  - apply Hbad. intros [H | [H | H]]; discriminate.
Defined.

(** The lease of Flat 1 ends 7 days after the sample clock, that of Flat 2
    much later: one mail, and none a day earlier or later; no mail with the
    toggle off or with no settings stored; the mail goes to the address of
    the settings. *)
Lemma lease_expiry_notifier_witness :
  outbox (snd (NotificationService.checkAndSendLeaseExpiryNotifications sampleWorld))
    = [{| m_to := "fullardpropertymgmt@gmail.com";
          m_cc := None;
          m_subject := "Lease Expiry Alert - Flat 1";
          m_body := LeaseExpiryAlert sampleProperty 7 |}]
  /\ outbox (snd (NotificationService.checkAndSendLeaseExpiryNotifications
                    (withSettings quietSettings sampleWorld))) = []
  /\ outbox (snd (NotificationService.checkAndSendLeaseExpiryNotifications
                    (withoutSettings sampleWorld))) = []
  /\ outbox (snd (NotificationService.checkAndSendLeaseExpiryNotifications
                    (withSettings officeSettings sampleWorld)))
     = [{| m_to := "office@example.com";
           m_cc := None;
           m_subject := "Lease Expiry Alert - Flat 1";
           m_body := LeaseExpiryAlert sampleProperty 7 |}]
  /\ NotificationService.daysUntilExpiry 1794211200000 1793606400000 = 7
  /\ leaseAlertDue 1793606400000 exemptProperty = false
  /\ leaseAlertDue (1793606400000 + 1) sampleProperty = true
  /\ leaseAlertDue (1793606400000 + 86400000) sampleProperty = false
  /\ leaseAlertDue (1793606400000 - 86400000) sampleProperty = false.
Proof.
  destruct (lease_expiry_notifier sampleWorld) as (_ & Hout & _).
  destruct (lease_expiry_notifier (withSettings quietSettings sampleWorld))
    as (_ & Hquiet & _).
  destruct (lease_expiry_notifier (withoutSettings sampleWorld))
    as (_ & Hnone & _).
  destruct (lease_expiry_notifier (withSettings officeSettings sampleWorld))
    as (_ & Hoffice & _).
  split; [rewrite Hout; vm_compute; reflexivity |].
  split; [rewrite Hquiet; vm_compute; reflexivity |].
  split; [rewrite Hnone; vm_compute; reflexivity |].
  split; [rewrite Hoffice; vm_compute; reflexivity |].
  repeat split; vm_compute; reflexivity.
Defined.

(** The documents of the two sample invoices at a rate of 15. *)
Lemma pdf_amount_breakdown_witness :
  (exists doc,
     PdfService.generateInvoicePDF (scheduledInvoice sampleProperty 1)
       sampleProperty billedWorld = (Ok doc, billedWorld)
     /\ pdf_amountLines doc =
        [(LRentExcludingVat, S754_finite false 8796093022208001 (-43));
         (LVat (JsNumber.ofZ 15), S754_finite false 5277655813324796 (-45));
         (LAmountIncludingVat, JsNumber.ofZ 1150)])
  /\ (exists doc,
        PdfService.generateInvoicePDF (scheduledInvoice sampleProperty 1)
          sampleProperty (withSettings quietSettings billedWorld)
        = (Ok doc, withSettings quietSettings billedWorld)
        /\ pdf_amountLines doc =
           [(LRentExcludingVat, S754_finite false 8873251732929122 (-43));
            (LVat (JsNumber.ofZ 14), S754_finite false 4969020970440312 (-45));
            (LAmountIncludingVat, JsNumber.ofZ 1150)])
  /\ (exists doc,
        PdfService.generateInvoicePDF (scheduledInvoice exemptProperty 2)
          exemptProperty billedWorld = (Ok doc, billedWorld)
        /\ pdf_amountLines doc = [(LAmount, JsNumber.ofZ 1150)]).
Proof.
  split; [| split].
  - destruct (pdf_amount_breakdown billedWorld (scheduledInvoice sampleProperty 1)
                sampleProperty) as (doc & Hrun & _ & Hlines).
    exists doc. split; [exact Hrun |]. rewrite Hlines. vm_compute. reflexivity.
  - destruct (pdf_amount_breakdown (withSettings quietSettings billedWorld)
                (scheduledInvoice sampleProperty 1) sampleProperty)
      as (doc & Hrun & _ & Hlines).
    exists doc. split; [exact Hrun |]. rewrite Hlines. vm_compute. reflexivity.
  - destruct (pdf_amount_breakdown billedWorld (scheduledInvoice exemptProperty 2)
                exemptProperty) as (doc & Hrun & _ & Hlines).
    exists doc. split; [exact Hrun |]. rewrite Hlines. vm_compute. reflexivity.
Defined.

(** No settings, an empty rate, and a rate of 14.50. *)
Lemma vat_rate_fallback_witness :
  PdfService.vatRate None = JsNumber.ofZ 15
  /\ PdfService.vatRate (Some (settingsWithRate "")) = JsNumber.ofZ 15
  /\ PdfService.vatRate (Some (settingsWithRate "14.50"))
     = S754_finite false 8162774324609024 (-49)
  /\ Client.getVatMultiplier None = S754_finite false 5179139571476070 (-52).
Proof.
  destruct (vat_rate_fallback None) as (H1 & _ & _ & _ & H5 & _).
  destruct (vat_rate_fallback (Some (settingsWithRate ""))) as (_ & H2 & _).
  destruct (vat_rate_fallback (Some (settingsWithRate "14.50"))) as (_ & _ & H3 & _).
  split; [exact (H1 eq_refl) |].
  split; [exact (H2 _ eq_refl eq_refl) |].
  split; [rewrite (H3 _ eq_refl ltac:(discriminate)); vm_compute; reflexivity |].
  exact (H5 (H1 eq_refl)).
Defined.

(** ** The monthly job: what a run creates and what it mails *)

Lemma besidesInvoices_inv w1 w :
  besidesInvoices w1 = besidesInvoices w ->
  db_properties w1 = db_properties w /\ db_notifications w1 = db_notifications w
  /\ db_companySettings w1 = db_companySettings w
  /\ seq_notifications w1 = seq_notifications w
  /\ clock w1 = clock w /\ tza w1 = tza w /\ smtp w1 = smtp w
  /\ outbox w1 = outbox w.
Proof.
  unfold besidesInvoices. intros H. inversion H.
  repeat match goal with |- _ /\ _ => split end; reflexivity.
Qed.

Lemma besidesOutbox_inv w1 w :
  besidesOutbox w1 = besidesOutbox w ->
  db_properties w1 = db_properties w /\ db_invoices w1 = db_invoices w
  /\ db_notifications w1 = db_notifications w
  /\ db_companySettings w1 = db_companySettings w
  /\ seq_invoices w1 = seq_invoices w
  /\ seq_notifications w1 = seq_notifications w
  /\ clock w1 = clock w /\ tza w1 = tza w /\ smtp w1 = smtp w.
Proof.
  unfold besidesOutbox. intros H. inversion H.
  repeat match goal with |- _ /\ _ => split end; reflexivity.
Qed.

Lemma monthlyStep_created acc p w :
  let z := tza w in
  let y := getFullYear z (clock w) in
  let mo := getMonth z (clock w) in
  let r := monthlyStep acc p w in
  besidesInvoices (snd r) = besidesInvoices w
  /\ ((db_invoices (snd r) = db_invoices w
       /\ (fst r = Ok acc \/ exists e, fst r = Throw e))
      \/ (exists inv,
            db_invoices (snd r) = (db_invoices w ++ [inv])%list
            /\ fst r = Ok (fst acc + 1, (snd acc ++ [summaryLine (p, inv)])%list)
            /\ inv = Storage.invoiceRow (seq_invoices w + 1) (clock w)
                       (newInvoice z y mo (scheduledNumber y mo (p_id p)) (ofRow p)))).
Proof.
  intros z y mo r. unfold r, monthlyStep, bind.
  rewrite createInvoiceForProperty_unfold. cbn zeta. fold z y mo.
  change (p_id (row (ofRow p))) with (p_id p).
  destruct (existsb _ _).
  - split; [reflexivity |]. left. split; [reflexivity | left; reflexivity].
  - destruct (Storage.createInvoice _ w) as [[a | e] w1] eqn:Hc.
    + apply createInvoice_ok in Hc. destruct Hc as (_ & _ & Hrow & Hw1).
      subst w1. split; [reflexivity |]. right. exists a.
      split; [reflexivity |]. split; [reflexivity | exact Hrow].
    + apply createInvoice_throw in Hc. destruct Hc as [_ Hw1]. subst w1.
      split; [reflexivity |]. left. split; [reflexivity |].
      right. eexists. reflexivity.
Qed.

Lemma monthly_loop_created l : forall acc w,
  let z := tza w in
  let y := getFullYear z (clock w) in
  let mo := getMonth z (clock w) in
  let r := foldOf l acc monthlyStep w in
  exists billed : list (Property * Invoice),
    besidesInvoices (snd r) = besidesInvoices w
    /\ db_invoices (snd r) = (db_invoices w ++ map snd billed)%list
    /\ (forall b, In b billed ->
          In (fst b) l
          /\ exists newId,
               snd b = Storage.invoiceRow newId (clock w)
                         (newInvoice z y mo (scheduledNumber y mo (p_id (fst b)))
                            (ofRow (fst b))))
    /\ (forall acc', fst r = Ok acc' ->
          acc' = (fst acc + Z.of_nat (List.length billed),
                  (snd acc ++ map summaryLine billed)%list)).
Proof.
  induction l as [| p l IH]; intros acc w z y mo r.
  - exists []. unfold r. cbn. repeat match goal with |- _ /\ _ => split end.
    + reflexivity.
    + symmetry. apply app_nil_r.
    + intros b [].
    + intros acc' H. inversion H. subst acc'. rewrite Z.add_0_r, app_nil_r.
      destruct acc; reflexivity.
  - assert (Hr : r = match monthlyStep acc p w with
                      | (Ok acc1, w1) => foldOf l acc1 monthlyStep w1
                      | (Throw e, w1) => (Throw e, w1)
                      end) by reflexivity.
    clearbody r. subst r.
    pose proof (monthlyStep_created acc p w) as Hs. cbv zeta in Hs.
    fold z y mo in Hs.
    destruct (monthlyStep acc p w) as [[acc1 | e] w1]; cbn [fst snd] in Hs.
    + destruct Hs as [Hb Hs].
      destruct (besidesInvoices_inv _ _ Hb) as (_ & _ & _ & _ & Hc & Hz & _).
      destruct (IH acc1 w1) as (billed & Hb' & Hinv & Hall & Hacc).
      rewrite Hc, Hz in Hall. fold z y mo in Hall.
      destruct Hs as [[Hi [Ha | [e Ha]]] | (inv & Hi & Ha & Hrow)];
        [inversion Ha; subst acc1 | discriminate Ha | inversion Ha; subst acc1].
      * exists billed. repeat match goal with |- _ /\ _ => split end.
        -- congruence.
        -- rewrite Hinv, Hi. reflexivity.
        -- intros b Hin. destruct (Hall b Hin) as [H1 H2]. split; [right |]; assumption.
        -- exact Hacc.
      * exists ((p, inv) :: billed). repeat match goal with |- _ /\ _ => split end.
        -- congruence.
        -- rewrite Hinv, Hi, <- app_assoc. reflexivity.
        -- intros b [<- | Hin].
           ++ split; [left; reflexivity |]. eexists. exact Hrow.
           ++ destruct (Hall b Hin) as [H1 H2]. split; [right |]; assumption.
        -- intros acc' H. rewrite (Hacc acc' H). cbn [fst snd List.length map].
           rewrite <- app_assoc. f_equal. lia.
    + destruct Hs as [Hb [[Hi _] | (inv & _ & Ha & _)]]; [| discriminate Ha].
      exists []. cbn [fst snd map]. repeat match goal with |- _ /\ _ => split end.
      * exact Hb.
      * rewrite app_nil_r. exact Hi.
      * intros b [].
      * intros acc' H. discriminate H.
Qed.

Lemma sendInvoiceCreationSummary_unfold n lines w :
  sendInvoiceCreationSummary n lines w =
  let cs := hd_error (db_companySettings w) in
  let mail :=
    {| m_to := operatorAddress cs;
       m_cc := None;
       m_subject := "Monthly Invoices Created - " ++ toLocaleMonthYear (tza w) (clock w);
       m_body := MonthlySummary n lines |} in
  if NotificationService.settingOn cs cs_notifyInvoiceGeneration then
    if smtp w mail then (Ok true, setOutbox (outbox w ++ [mail]) w)
    else (Ok false, w)
  else (Ok false, w).
Proof.
  cbv beta iota zeta delta
    [sendInvoiceCreationSummary tryCatch bind ret throw now localTza
     Storage.getCompanySettings EmailService.sendNotificationEmail
     EmailService.sendMail].
  rewrite operatorAddress_spec.
  destruct (NotificationService.settingOn _ _); cbn [negb]; [| reflexivity].
  match goal with |- context [smtp w ?m] => destruct (smtp w m) end; reflexivity.
Qed.

Lemma keys_unique_after_filter {T K} (keep : T -> bool) (key : T -> K)
  (rows : list T) (Hrows : NoDup (map key rows)) :
  NoDup (map key (filter keep rows)).
Proof.
  induction rows as [| a l IH]; cbn [map filter]; [constructor |].
  cbn [map] in Hrows. inversion Hrows as [| ? ? Hn Hl]; subst.
  destruct (keep a); [| apply IH; exact Hl].
  cbn [map]. constructor; [| apply IH; exact Hl].
  intros Hin. apply Hn. apply in_map_iff in Hin. destruct Hin as (b & E & Hb).
  apply filter_In in Hb. apply in_map_iff. exists b. tauto.
Qed.

Lemma numbersConsistent_new_row z y mo props invs p newId created :
  ~ (0 <= y <= 99) -> 0 <= mo <= 11 ->
  (forall q, In q props -> 0 < p_id q) ->
  In p props ->
  numbersConsistent z y mo props invs ->
  numbersConsistent z y mo props
    (invs ++ [Storage.invoiceRow newId created
                (newInvoice z y mo (scheduledNumber y mo (p_id p)) (ofRow p))]).
Proof.
  intros Hny Hmo Hpos Hp Hcons i q Hi Hq Hn.
  apply in_app_or in Hi. destruct Hi as [Hi | [<- | []]].
  - exact (Hcons i q Hi Hq Hn).
  - destruct (new_row_in_month z y mo (scheduledNumber y mo (p_id p)) (ofRow p)
                newId created Hny Hmo) as [Hin Hpid].
    change (invoiceNumber
              (Storage.invoiceRow newId created
                 (newInvoice z y mo (scheduledNumber y mo (p_id p)) (ofRow p))))
      with (scheduledNumber y mo (p_id p)) in Hn.
    apply scheduledNumber_inj in Hn; [| apply Hpos; assumption ..].
    split; [rewrite Hpid, <- Hn; reflexivity | exact Hin].
Qed.

(** One turn of the loop of the monthly job where no insert is refused. *)
Lemma monthlyStep_exact acc p w :
  99 < getFullYear (tza w) (clock w) ->
  In p (db_properties w) ->
  let z := tza w in
  let y := getFullYear z (clock w) in
  let mo := getMonth z (clock w) in
  numbersConsistent z y mo (db_properties w) (db_invoices w) ->
  let r := Storage.invoiceRow (seq_invoices w + 1) (clock w)
             (newInvoice z y mo (scheduledNumber y mo (p_id p)) (ofRow p)) in
  monthlyStep acc p w =
  if Nat.eqb (monthCount z y mo (p_id p) (db_invoices w)) 0
  then (Ok (fst acc + 1, (snd acc ++ [summaryLine (p, r)])%list),
        setInvoices (db_invoices w ++ [r]) (seq_invoices w + 1) w)
  else (Ok acc, w).
Proof.
  intros Hy Hp z y mo Hcons r.
  unfold monthlyStep, bind. rewrite createInvoiceForProperty_unfold. cbn zeta.
  fold z y mo. change (p_id (row (ofRow p))) with (p_id p).
  rewrite existsb_filter_length.
  fold (monthCount z y mo (p_id p) (db_invoices w)).
  destruct (Nat.eqb_spec (monthCount z y mo (p_id p) (db_invoices w)) 0)
    as [H0 | H0]; cbn [negb]; [| reflexivity].
  assert (Hex : Storage.propertyExists (p_id p) w = true).
  { apply existsb_exists. exists p. split; [exact Hp | apply Z.eqb_refl]. }
  assert (Hfree : Storage.invoiceNumberTaken
                    (scheduledNumber y mo (p_id p)) (db_invoices w) = false).
  { destruct (Storage.invoiceNumberTaken _ _) eqn:E; [| reflexivity].
    apply existsb_exists in E. destruct E as (i & Hi & Hn).
    apply String.eqb_eq in Hn.
    destruct (Hcons i p Hi Hp Hn) as [Hpid Hm].
    pose proof (monthCount_pos_intro z y mo (p_id p) _ i Hi Hpid Hm). lia. }
  unfold Storage.createInvoice.
  change (i_propertyId (newInvoice z y mo (scheduledNumber y mo (p_id p)) (ofRow p)))
    with (p_id p).
  change (i_invoiceNumber (newInvoice z y mo (scheduledNumber y mo (p_id p)) (ofRow p)))
    with (scheduledNumber y mo (p_id p)).
  rewrite Hex, Hfree. reflexivity.
Qed.

Lemma billedRows_fst z y mo t due : forall next,
  map fst (billedRows z y mo t next due) = due.
Proof.
  induction due as [| p l IH]; intros next; [reflexivity |].
  cbn [billedRows map fst]. rewrite IH. reflexivity.
Qed.

Lemma billedRows_length z y mo t next due :
  List.length (billedRows z y mo t next due) = List.length due.
Proof.
  rewrite <- (billedRows_fst z y mo t due next) at 2.
  rewrite length_map. reflexivity.
Qed.

Lemma billedRows_In z y mo t due : forall next p inv,
  In (p, inv) (billedRows z y mo t next due) ->
  In p due
  /\ exists newId,
       inv = Storage.invoiceRow newId t
               (newInvoice z y mo (scheduledNumber y mo (p_id p)) (ofRow p)).
Proof.
  induction due as [| q l IH]; intros next p inv H; [destruct H |].
  cbn [billedRows] in H. destruct H as [H | H].
  - inversion H; subst. split; [left; reflexivity | eexists; reflexivity].
  - destruct (IH _ _ _ H) as [Hin Hrow]. split; [right; exact Hin | exact Hrow].
Qed.

(** The loop of the monthly job where no insert is refused: it bills, in
    order, the properties that have no invoice of the month. *)
Lemma monthly_loop_exact l : forall acc w,
  99 < getFullYear (tza w) (clock w) ->
  (forall q, In q l -> In q (db_properties w)) ->
  (forall q, In q (db_properties w) -> 0 < p_id q) ->
  NoDup (map p_id l) ->
  let z := tza w in
  let y := getFullYear z (clock w) in
  let mo := getMonth z (clock w) in
  numbersConsistent z y mo (db_properties w) (db_invoices w) ->
  let due :=
    filter (fun p => Nat.eqb (monthCount z y mo (p_id p) (db_invoices w)) 0) l in
  let billed := billedRows z y mo (clock w) (seq_invoices w + 1) due in
  foldOf l acc monthlyStep w =
  (Ok (fst acc + Z.of_nat (List.length due),
       (snd acc ++ map summaryLine billed)%list),
   setInvoices (db_invoices w ++ map snd billed)
     (seq_invoices w + Z.of_nat (List.length due)) w).
Proof.
  induction l as [| p l IH]; intros acc w Hy Hl Hpos Hnd z y mo Hcons due billed.
  - unfold billed, due. destruct acc as [n lines], w.
    cbn [foldOf filter billedRows map List.length fst snd Z.of_nat
         db_invoices seq_invoices setInvoices db_properties db_notifications
         db_companySettings seq_notifications clock tza smtp outbox].
    rewrite !Z.add_0_r, !app_nil_r. reflexivity.
  - assert (Hmo : 0 <= mo <= 11) by apply MonthFromTime_range.
    assert (Hny : ~ (0 <= y <= 99)) by (unfold y, z; lia).
    cbn [map] in Hnd. inversion Hnd as [| ? ? Hnotin Hnd']; subst.
    cbn [foldOf]. unfold bind at 1.
    rewrite (monthlyStep_exact acc p w Hy (Hl p (or_introl eq_refl)) Hcons).
    cbn zeta. fold z y mo. unfold billed, due. cbn [filter].
    destruct (Nat.eqb_spec (monthCount z y mo (p_id p) (db_invoices w)) 0)
      as [H0 | H0].
    + set (r := Storage.invoiceRow (seq_invoices w + 1) (clock w)
                  (newInvoice z y mo (scheduledNumber y mo (p_id p)) (ofRow p))).
      assert (Hcons1 : numbersConsistent z y mo (db_properties w)
                         (db_invoices w ++ [r])).
      { apply numbersConsistent_new_row; try assumption.
        apply Hl. left. reflexivity. }
      assert (Hsame :
        filter (fun q => Nat.eqb (monthCount z y mo (p_id q) (db_invoices w ++ [r])) 0) l
        = filter (fun q => Nat.eqb (monthCount z y mo (p_id q) (db_invoices w)) 0) l).
      { apply filter_ext_in. intros q Hq. rewrite monthCount_app.
        assert (Hr : monthCount z y mo (p_id q) [r] = 0%nat).
        { unfold monthCount. cbn [filter].
          change (propertyId r) with (p_id p).
          destruct (Z.eqb_spec (p_id p) (p_id q)) as [E | _]; [| reflexivity].
          exfalso. apply Hnotin. rewrite E. apply in_map. exact Hq. }
        rewrite Hr, Nat.add_0_r. reflexivity. }
      pose proof (IH (fst acc + 1, (snd acc ++ [summaryLine (p, r)])%list)
                    (setInvoices (db_invoices w ++ [r]) (seq_invoices w + 1) w)
                    Hy (fun q Hq => Hl q (or_intror Hq)) Hpos Hnd' Hcons1) as Hrest.
      cbv zeta in Hrest.
      cbn [tza clock db_invoices seq_invoices setInvoices fst snd] in Hrest.
      fold z y mo in Hrest. rewrite Hsame in Hrest. rewrite Hrest.
      cbn [billedRows map List.length fst snd]. fold r.
      unfold setInvoices.
      cbn [db_properties db_notifications db_companySettings seq_notifications
           clock tza smtp outbox].
      rewrite <- !app_assoc. cbn [app].
      replace (fst acc + 1 + Z.of_nat (List.length
                 (filter (fun q => Nat.eqb (monthCount z y mo (p_id q) (db_invoices w)) 0) l)))
        with (fst acc + Z.of_nat (S (List.length
                 (filter (fun q => Nat.eqb (monthCount z y mo (p_id q) (db_invoices w)) 0) l))))
        by lia.
      replace (seq_invoices w + 1 + Z.of_nat (List.length
                 (filter (fun q => Nat.eqb (monthCount z y mo (p_id q) (db_invoices w)) 0) l)))
        with (seq_invoices w + Z.of_nat (S (List.length
                 (filter (fun q => Nat.eqb (monthCount z y mo (p_id q) (db_invoices w)) 0) l))))
        by lia.
      reflexivity.
    + exact (IH acc w Hy (fun q Hq => Hl q (or_intror Hq)) Hpos Hnd' Hcons).
Qed.

(** X3.  A run of the monthly job in a table whose ids are positive and
    distinct and whose invoice numbers fit the properties never throws and
    bills exactly the due properties: the rows of the table that pass the
    filter of the job (a tenant name that is not blank, both lease dates, a
    lease end after the run) and have no invoice dated in the month.  It
    appends one invoice per due property, in table order, with the next ids
    of the sequence: a draft, unsent and flagged new, carrying the
    scheduled number of the month.  When at least one property is due,
    invoice notifications are on in the stored settings and the transport
    accepts it, the outbox gains exactly one mail, the summary of the
    invoices created, sent to the notification address; otherwise the
    outbox is unchanged.  Properties and notifications are left as they
    were. *)
Theorem monthly_job_batch (w : World) :
  let z := tza w in
  let t := clock w in
  let y := getFullYear z t in
  let mo := getMonth z t in
  let cs := hd_error (db_companySettings w) in
  let due :=
    filter (fun p => Nat.eqb (monthCount z y mo (p_id p) (db_invoices w)) 0)
      (filter (isBillable t) (db_properties w)) in
  let billed := billedRows z y mo t (seq_invoices w + 1) due in
  let notify :=
    match cs with Some c => cs_notifyInvoiceGeneration c | None => false end in
  let mail := summaryMail cs z t billed in
  let w' := snd (generateMonthlyInvoices w) in
  99 < y ->
  (forall q, In q (db_properties w) -> 0 < p_id q) ->
  NoDup (map p_id (db_properties w)) ->
  numbersConsistent z y mo (db_properties w) (db_invoices w) ->
  fst (generateMonthlyInvoices w) = Ok tt
  /\ db_invoices w' = (db_invoices w ++ map snd billed)%list
  /\ seq_invoices w' = seq_invoices w + Z.of_nat (List.length due)
  /\ map fst billed = due
  /\ map id (map snd billed)
     = map (fun k => seq_invoices w + 1 + Z.of_nat k) (seq 0 (List.length due))
  /\ (forall p inv, In (p, inv) billed ->
        In p (db_properties w) /\ isBillable t p = true
        /\ propertyId inv = p_id p
        /\ invoiceNumber inv = scheduledNumber y mo (p_id p)
        /\ status inv = "draft" /\ sentDate inv = None /\ isNew inv = true)
  /\ outbox w' =
     match due with
     | [] => outbox w
     | _ :: _ =>
         if (notify && smtp w mail)%bool then (outbox w ++ [mail])%list
         else outbox w
     end
  /\ db_properties w' = db_properties w
  /\ db_notifications w' = db_notifications w.
Proof.
  intros z t y mo cs due billed notify mail w' Hy Hpos Hnd Hcons.
  assert (Hloop := monthly_loop_exact (filter (isBillable t) (db_properties w))
                     (0, []) w Hy
                     (fun q Hq => proj1 (proj1 (filter_In _ _ _) Hq)) Hpos
                     (keys_unique_after_filter _ _ _ Hnd) Hcons).
  cbv zeta in Hloop. fold z t y mo due in Hloop. fold billed in Hloop.
  cbn [fst snd app] in Hloop. rewrite Z.add_0_l in Hloop.
  assert (Hids : forall l next,
            map id (map snd (billedRows z y mo t next l))
            = map (fun k => next + Z.of_nat k) (seq 0 (List.length l))).
  { induction l as [| q l IHl]; intros next; [reflexivity |].
    cbn [billedRows map snd List.length seq]. rewrite IHl.
    cbn [id Storage.invoiceRow]. f_equal; [lia |].
    rewrite <- seq_shift, map_map. apply map_ext. intros k. lia. }
  assert (Hrows : forall p inv, In (p, inv) billed ->
            In p (db_properties w) /\ isBillable t p = true
            /\ propertyId inv = p_id p
            /\ invoiceNumber inv = scheduledNumber y mo (p_id p)
            /\ status inv = "draft" /\ sentDate inv = None /\ isNew inv = true).
  { intros p inv Hin. apply billedRows_In in Hin. destruct Hin as [Hp [newId ->]].
    unfold due in Hp. apply filter_In in Hp. destruct Hp as [Hp _].
    apply filter_In in Hp. destruct Hp as [Hp1 Hp2].
    repeat match goal with |- _ /\ _ => split end;
      solve [assumption | reflexivity]. }
  assert (Hrun : generateMonthlyInvoices w =
            (Ok tt,
             match due with
             | [] => setInvoices (db_invoices w ++ map snd billed)
                       (seq_invoices w + Z.of_nat (List.length due)) w
             | _ :: _ =>
                 if (notify && smtp w mail)%bool
                 then setOutbox (outbox w ++ [mail])
                        (setInvoices (db_invoices w ++ map snd billed)
                           (seq_invoices w + Z.of_nat (List.length due)) w)
                 else setInvoices (db_invoices w ++ map snd billed)
                        (seq_invoices w + Z.of_nat (List.length due)) w
             end)).
  { cbv beta iota zeta delta [generateMonthlyInvoices tryCatch bind ret now
      Storage.getProperties].
    fold t. rewrite Hloop. cbn [fst snd].
    destruct due as [| d due'] eqn:Hdue; [reflexivity |].
    replace (0 <? Z.of_nat (List.length (d :: due'))) with true
      by (symmetry; apply Z.ltb_lt; cbn [List.length]; lia).
    rewrite sendInvoiceCreationSummary_unfold. cbv zeta.
    cbn [db_companySettings tza clock smtp outbox setInvoices].
    fold cs z t.
    assert (Hmail :
      {| m_to := operatorAddress cs;
         m_cc := None;
         m_subject := "Monthly Invoices Created - " ++ toLocaleMonthYear z t;
         m_body := MonthlySummary (Z.of_nat (List.length (d :: due')))
                     (map summaryLine billed) |} = mail).
    { unfold mail, summaryMail. unfold billed at 2.
      rewrite billedRows_length. reflexivity. }
    rewrite Hmail.
    change (NotificationService.settingOn cs cs_notifyInvoiceGeneration) with notify.
    destruct notify; cbn [andb]; [| reflexivity].
    destruct (smtp w mail); reflexivity. }
  unfold w'. rewrite Hrun. cbn [fst snd].
  split; [reflexivity |].
  assert (Hshape :
    forall u, (u = setInvoices (db_invoices w ++ map snd billed)
                     (seq_invoices w + Z.of_nat (List.length due)) w
               \/ u = setOutbox (outbox w ++ [mail])
                        (setInvoices (db_invoices w ++ map snd billed)
                           (seq_invoices w + Z.of_nat (List.length due)) w)) ->
      db_invoices u = (db_invoices w ++ map snd billed)%list
      /\ seq_invoices u = seq_invoices w + Z.of_nat (List.length due)
      /\ db_properties u = db_properties w
      /\ db_notifications u = db_notifications w).
  { intros u [-> | ->]; repeat split. }
  match goal with
  | |- db_invoices ?u = _ /\ _ =>
      assert (Hu : db_invoices u = (db_invoices w ++ map snd billed)%list
                   /\ seq_invoices u = seq_invoices w + Z.of_nat (List.length due)
                   /\ db_properties u = db_properties w
                   /\ db_notifications u = db_notifications w)
        by (apply Hshape; destruct due; [left; reflexivity |];
            destruct (notify && smtp w mail)%bool; [right | left]; reflexivity)
  end.
  destruct Hu as (U1 & U2 & U3 & U4).
  repeat match goal with |- _ /\ _ => split end.
  - exact U1.
  - exact U2.
  - apply billedRows_fst.
  - apply Hids.
  - exact Hrows.
  - destruct due; [reflexivity |].
    destruct (notify && smtp w mail)%bool; reflexivity.
  - exact U3.
  - exact U4.
Qed.

Lemma foldOf_app {A S} (l1 l2 : list A) (body : S -> A -> M S) : forall s w,
  foldOf (l1 ++ l2) s body w =
  match foldOf l1 s body w with
  | (Ok s1, w1) => foldOf l2 s1 body w1
  | (Throw e, w1) => (Throw e, w1)
  end.
Proof.
  induction l1 as [| x l1 IH]; intros s w; [reflexivity |].
  cbn [app foldOf]. unfold bind.
  destruct (body s x w) as [[s1 | e] w1]; [apply IH | reflexivity].
Qed.

Lemma monthCount_none_created z y mo pid (billed : list (Property * Invoice)) :
  (forall b, In b billed -> propertyId (snd b) <> pid) ->
  monthCount z y mo pid (map snd billed) = 0%nat.
Proof.
  intros H. unfold monthCount.
  induction billed as [| b l IH]; [reflexivity |].
  cbn [map filter].
  destruct (Z.eqb_spec (propertyId (snd b)) pid) as [E | _].
  - exfalso. exact (H b (or_introl eq_refl) E).
  - apply IH. intros b' Hb'. apply H. right. exact Hb'.
Qed.

(** X4.  One refused insert stops the monthly job.  When the billable
    properties are [before], [p], [after] in table order, [p] has no
    invoice dated in the month, and the scheduled number of [p] for the
    month is already stored (on an invoice that was re-dated or
    re-numbered by an edit, say), the run ends at [p]: it still answers
    without throwing, every invoice it added belongs to a property of
    [before], no property of [after] is billed, and no summary mail is
    sent, not even for the invoices created before the stop. *)
Theorem monthly_job_stops_at_refused_insert (w : World)
  (before after : list Property) (p : Property) :
  let z := tza w in
  let y := getFullYear z (clock w) in
  let mo := getMonth z (clock w) in
  filter (isBillable (clock w)) (db_properties w) = (before ++ p :: after)%list ->
  (forall q, In q before -> p_id q <> p_id p) ->
  monthCount z y mo (p_id p) (db_invoices w) = 0%nat ->
  Storage.invoiceNumberTaken (scheduledNumber y mo (p_id p)) (db_invoices w) = true ->
  let w' := snd (generateMonthlyInvoices w) in
  fst (generateMonthlyInvoices w) = Ok tt
  /\ outbox w' = outbox w
  /\ exists billed : list (Property * Invoice),
       db_invoices w' = (db_invoices w ++ map snd billed)%list
       /\ forall b, In b billed -> In (fst b) before /\ propertyId (snd b) = p_id (fst b).
Proof.
  intros z y mo Hl Hids H0 Htaken w'. unfold w'. clear w'.
  cbv beta iota zeta delta [generateMonthlyInvoices tryCatch bind ret now
    Storage.getProperties].
  rewrite Hl, foldOf_app.
  destruct (monthly_loop_created before (0, []) w) as (billed & Hb & Hinv & Hall & _).
  fold z y mo in Hall.
  assert (Hrows : forall b, In b billed ->
            In (fst b) before /\ propertyId (snd b) = p_id (fst b)).
  { intros b Hin. destruct (Hall b Hin) as [Hq [newId Hrow]].
    split; [exact Hq | rewrite Hrow; reflexivity]. }
  destruct (besidesInvoices_inv _ _ Hb) as (Hp & Hn & Hcs & Hsn & Hc & Hz & Hsm & Ho).
  destruct (foldOf before (0, []) monthlyStep w) as [[acc1 | e] w1];
    cbn [fst snd] in *.
  - assert (Hstop : exists e,
              foldOf (p :: after) acc1 monthlyStep w1 =
              (Throw e, setInvoices (db_invoices w1) (seq_invoices w1 + 1) w1)).
    { cbn [foldOf]. unfold bind at 1. unfold monthlyStep at 1. unfold bind at 1.
      rewrite createInvoiceForProperty_unfold. cbn zeta.
      rewrite Hz, Hc. fold z y mo. change (p_id (row (ofRow p))) with (p_id p).
      rewrite existsb_filter_length.
      fold (monthCount z y mo (p_id p) (db_invoices w1)).
      rewrite Hinv, monthCount_app, H0, monthCount_none_created.
      2:{ intros b Hin. destruct (Hrows b Hin) as [Hq E]. rewrite E.
          apply Hids. exact Hq. }
      cbn [Nat.add Nat.eqb negb].
      unfold Storage.createInvoice.
      match goal with
      | |- context [i_invoiceNumber (newInvoice ?a ?b ?c ?n ?q)] =>
          change (i_invoiceNumber (newInvoice a b c n q)) with n
      end.
      rewrite Hinv.
      assert (Ht : Storage.invoiceNumberTaken (scheduledNumber y mo (p_id p))
                     (db_invoices w ++ map snd billed) = true).
      { unfold Storage.invoiceNumberTaken in *.
        rewrite existsb_app, Htaken. reflexivity. }
      rewrite Ht.
      destruct (negb (Storage.propertyExists _ w1)); eexists; reflexivity. }
    destruct Hstop as [e Hstop]. rewrite Hstop. cbn [fst snd setInvoices
      outbox db_invoices].
    split; [reflexivity |]. split; [exact Ho |].
    exists billed. split; [exact Hinv | exact Hrows].
  - split; [reflexivity |]. split; [exact Ho |].
    exists billed. split; [exact Hinv | exact Hrows].
Qed.

(** ** Manual generation: the notification and the later monthly run *)

Lemma sendInvoiceGenerationNotification_outbox q n u :
  let r := NotificationService.sendInvoiceGenerationNotification q n u in
  let cs := hd_error (db_companySettings u) in
  let mail :=
    {| m_to := operatorAddress cs;
       m_cc := None;
       m_subject := "Invoice Generated - " ++ n;
       m_body := InvoiceGenerated q n |} in
  besidesOutbox (snd r) = besidesOutbox u
  /\ outbox (snd r) =
     if (NotificationService.settingOn cs cs_notifyInvoiceGeneration
         && smtp u mail)%bool
     then (outbox u ++ [mail])%list else outbox u.
Proof.
  cbv beta iota zeta delta
    [NotificationService.sendInvoiceGenerationNotification tryCatch bind ret
     throw Storage.getCompanySettings EmailService.sendNotificationEmail
     EmailService.sendMail].
  rewrite operatorAddress_spec.
  destruct (NotificationService.settingOn _ _); cbn [negb andb];
    [| split; reflexivity].
  match goal with |- context [smtp u ?m] => destruct (smtp u m) end;
    split; reflexivity.
Qed.

Lemma postPropertyInvoice_created w pid prop :
  find (fun p => p_id p =? pid) (db_properties w) = Some prop ->
  let z := tza w in
  let y := getFullYear z (clock w) in
  let mo := getMonth z (clock w) in
  let number := manualNumber y mo (p_id prop) (clock w) in
  Storage.invoiceNumberTaken number (db_invoices w) = false ->
  Routes.postPropertyInvoice pid w =
  (Ok {| Routes.res_status := 200;
         Routes.res_body := Routes.Message "Invoice generated successfully" |},
   snd (NotificationService.sendInvoiceGenerationNotification prop number
          (setInvoices
             (db_invoices w
              ++ [Storage.invoiceRow (seq_invoices w + 1) (clock w)
                    (newInvoice z y mo number (ofRow prop))])
             (seq_invoices w + 1) w))).
Proof.
  intros Hp z y mo number Hfree.
  pose proof (find_property_id _ _ _ Hp) as [Hid Hex].
  cbv beta iota zeta delta [Routes.postPropertyInvoice manualGenerateInvoice
    tryCatch bind ret throw Storage.getProperty Routes.respond].
  rewrite Hp, createManualInvoiceForProperty_unfold. cbn zeta.
  fold z y mo. change (p_id (row (ofRow prop))) with (p_id prop). fold number.
  unfold Storage.createInvoice.
  change (i_propertyId (newInvoice z y mo number (ofRow prop))) with (p_id prop).
  change (i_invoiceNumber (newInvoice z y mo number (ofRow prop))) with number.
  unfold Storage.propertyExists. rewrite Hex, Hfree. reflexivity.
Qed.

(** X7.  A manual generation that stores its invoice tells the operator by
    mail and nowhere else: the transport is handed exactly one mail, the
    "Invoice Generated" notice for the new number, addressed to the
    notification address stored in the settings (the default address when
    no settings are stored or the stored address is empty), when the stored
    settings have invoice notifications on and the transport accepts it,
    and none otherwise.  The route answers 200 and the invoice stays stored
    also when the notice is off or fails, and no row is added to the
    notifications table. *)
Theorem manual_generation_notifies_operator (w : World) (pid : Z) (prop : Property) :
  find (fun p => p_id p =? pid) (db_properties w) = Some prop ->
  let z := tza w in
  let y := getFullYear z (clock w) in
  let mo := getMonth z (clock w) in
  let number := manualNumber y mo (p_id prop) (clock w) in
  let cs := hd_error (db_companySettings w) in
  let notify :=
    match cs with Some c => cs_notifyInvoiceGeneration c | None => false end in
  let address :=
    match cs with
    | Some c =>
        if String.eqb (cs_notificationEmail c) ""
        then "fullardpropertymgmt@gmail.com" else cs_notificationEmail c
    | None => "fullardpropertymgmt@gmail.com"
    end in
  let mail :=
    {| m_to := address;
       m_cc := None;
       m_subject := "Invoice Generated - " ++ number;
       m_body := InvoiceGenerated prop number |} in
  Storage.invoiceNumberTaken number (db_invoices w) = false ->
  let w' := snd (Routes.postPropertyInvoice pid w) in
  Routes.res_status
    (match fst (Routes.postPropertyInvoice pid w) with
     | Ok r => r
     | Throw _ => {| Routes.res_status := 0; Routes.res_body := Routes.Message "" |}
     end) = 200
  /\ outbox w' =
     (if (notify && smtp w mail)%bool
      then (outbox w ++ [mail])%list else outbox w)
  /\ db_notifications w' = db_notifications w
  /\ map invoiceNumber (db_invoices w')
     = (map invoiceNumber (db_invoices w) ++ [number])%list.
Proof.
  intros Hp z y mo number cs notify address mail Hfree w'. unfold w'. clear w'.
  rewrite (postPropertyInvoice_created w pid prop Hp Hfree).
  fold z y mo number. cbn [fst snd Routes.res_status].
  match goal with
  | |- context [NotificationService.sendInvoiceGenerationNotification prop number ?u] =>
      pose proof (sendInvoiceGenerationNotification_outbox prop number u) as [Hf Ho];
      set (w1 := snd (NotificationService.sendInvoiceGenerationNotification
                        prop number u)) in *
  end.
  destruct (besidesOutbox_inv _ _ Hf) as (_ & Hi & Hn & _).
  split; [reflexivity |]. split; [exact Ho |]. split; [exact Hn |].
  rewrite Hi. cbn [db_invoices setInvoices]. rewrite map_app. reflexivity.
Qed.

(** X8.  A manual invoice takes the place of the scheduled one.  After a
    manual generation stored its invoice, the scheduled generator run for
    the same property at any later time of the same calendar month finds
    that invoice, returns nothing and changes nothing, and a run of the
    whole monthly job adds no invoice of the month for the property. *)
Theorem manual_invoice_suppresses_scheduled (w : World) (pid t2 : Z) (prop : Property) :
  find (fun p => p_id p =? pid) (db_properties w) = Some prop ->
  let z := tza w in
  let y := getFullYear z (clock w) in
  let mo := getMonth z (clock w) in
  Storage.invoiceNumberTaken (manualNumber y mo (p_id prop) (clock w))
    (db_invoices w) = false ->
  99 < y ->
  getFullYear z t2 = y ->
  getMonth z t2 = mo ->
  let w1 := setClock t2 (snd (Routes.postPropertyInvoice pid w)) in
  createInvoiceForProperty (ofRow prop) w1 = (Ok None, w1)
  /\ monthCount z y mo (p_id prop) (db_invoices (snd (generateMonthlyInvoices w1)))
     = monthCount z y mo (p_id prop) (db_invoices w1).
Proof.
  intros Hp z y mo Hfree Hy Hy2 Hm2 w1.
  assert (Hmo : 0 <= mo <= 11) by apply MonthFromTime_range.
  assert (Hny : ~ (0 <= y <= 99)) by lia.
  set (number := manualNumber y mo (p_id prop) (clock w)) in *.
  set (new := Storage.invoiceRow (seq_invoices w + 1) (clock w)
                (newInvoice z y mo number (ofRow prop))).
  assert (Hz1 : tza w1 = z /\ clock w1 = t2
                /\ db_invoices w1 = (db_invoices w ++ [new])%list).
  { unfold w1. rewrite (postPropertyInvoice_created w pid prop Hp Hfree).
    fold z y mo number new. cbn [snd].
    match goal with
    | |- context [NotificationService.sendInvoiceGenerationNotification prop number ?u] =>
        pose proof (sendInvoiceGenerationNotification_outbox prop number u) as [Hf _];
        destruct (besidesOutbox_inv _ _ Hf) as (_ & Hi & _ & _ & _ & _ & _ & Hz & _)
    end.
    cbn [tza clock db_invoices setClock]. rewrite Hz, Hi.
    repeat split. }
  destruct Hz1 as (Hz1 & Hc1 & Hi1).
  destruct (new_row_in_month z y mo number (ofRow prop) (seq_invoices w + 1)
              (clock w) Hny Hmo) as [Hin Hpid].
  fold new in Hin, Hpid. change (p_id (row (ofRow prop))) with (p_id prop) in Hpid.
  assert (Hone : (1 <= monthCount z y mo (p_id prop) (db_invoices w1))%nat).
  { apply (monthCount_pos_intro z y mo (p_id prop) _ new);
      [rewrite Hi1; apply in_or_app; right; left; reflexivity | exact Hpid | exact Hin]. }
  split.
  - rewrite createInvoiceForProperty_unfold. cbn zeta.
    rewrite Hz1, Hc1, Hy2, Hm2. change (p_id (row (ofRow prop))) with (p_id prop).
    rewrite existsb_filter_length.
    fold (monthCount z y mo (p_id prop) (db_invoices w1)).
    destruct (Nat.eqb_spec (monthCount z y mo (p_id prop) (db_invoices w1)) 0);
      [lia | reflexivity].
  - pose proof (generateMonthlyInvoices_step w1) as Hs.
    rewrite Hz1, Hc1, Hy2, Hm2 in Hs. destruct (Hs Hy) as (_ & _ & Hcount).
    specialize (Hcount (p_id prop)). lia.
Qed.

(** ** Invoice numbers as identifiers *)

Lemma string_app_assoc (a b c : string) : (a ++ b) ++ c = a ++ (b ++ c).
Proof. induction a as [| x a IH]; cbn; [reflexivity | rewrite IH; reflexivity]. Qed.

Lemma hasDash_app a b : hasDash (a ++ b) = (hasDash a || hasDash b)%bool.
Proof.
  induction a as [| c a IH]; cbn; [reflexivity |].
  rewrite IH, orb_assoc. reflexivity.
Qed.

Lemma hasDash_zeros k : hasDash (JsString.repeat_char "0" k) = false.
Proof. induction k as [| k IH]; cbn; [reflexivity | exact IH]. Qed.

Lemma hasDash_uint d : hasDash (NilEmpty.string_of_uint d) = false.
Proof. induction d; cbn; auto. Qed.

Lemma hasDash_toString z : 0 <= z -> hasDash (JsString.toString z) = false.
Proof.
  intros Hz. unfold JsString.toString.
  destruct z as [| p | p]; [reflexivity | | lia].
  cbn [Z.to_int Pos.to_int NilZero.string_of_int]. unfold NilZero.string_of_uint.
  pose proof (hasDash_uint (Pos.to_uint p)) as H.
  destruct (Pos.to_uint p); solve [reflexivity | exact H].
Qed.

Lemma hasDash_padStart n z :
  0 <= z -> hasDash (JsString.padStart n "0" (JsString.toString z)) = false.
Proof.
  intros Hz. unfold JsString.padStart.
  rewrite hasDash_app, hasDash_zeros, hasDash_toString by exact Hz. reflexivity.
Qed.

(** Two strings without a hyphen that are followed by a hyphen are cut at
    the same place. *)
Lemma split_at_dash a : forall a' b b',
  hasDash a = false -> hasDash a' = false ->
  a ++ String "-" b = a' ++ String "-" b' -> a = a' /\ b = b'.
Proof.
  induction a as [| c a IH]; intros [| c' a'] b b' Ha Ha' H; cbn in *.
  - inversion H. auto.
  - inversion H. subst c'. discriminate Ha'.
  - inversion H. subst c. discriminate Ha.
  - inversion H. subst c'. apply orb_false_elim in Ha, Ha'.
    destruct (IH a' b b') as [E1 E2]; try tauto. subst. auto.
Qed.

Lemma append_inv_tail a : forall a' b b',
  String.length b = String.length b' -> a ++ b = a' ++ b' -> a = a' /\ b = b'.
Proof.
  induction a as [| c a IH]; intros [| c' a'] b b' Hl H; cbn in *.
  - auto.
  - subst b. cbn in Hl. rewrite append_length in Hl. lia.
  - subst b'. cbn in Hl. rewrite append_length in Hl. lia.
  - inversion H. subst c'. destruct (IH a' b b' Hl) as [E1 E2]; [assumption |].
    subst. auto.
Qed.

Lemma scheduledNumber_parts y mo pid :
  scheduledNumber y mo pid =
  "INV-"
  ++ ((JsString.toString y ++ JsString.padStart 2 "0" (JsString.toString (mo + 1)))
      ++ String "-" (JsString.padStart 3 "0" (JsString.toString pid))).
Proof. unfold scheduledNumber. rewrite string_app_assoc. reflexivity. Qed.

(** X9.  The scheduled invoice number identifies the year, the month and
    the property it was built for: for years and property ids above zero
    and months 0..11, two scheduled numbers are equal only when all three
    agree.  A manual number (the scheduled number followed by a hyphen and
    a suffix) is never the scheduled number of any year, month and
    property, so a manual invoice never takes the number the monthly job
    will ask for. *)
Theorem scheduled_number_identifies (y1 mo1 p1 y2 mo2 p2 nowMs : Z) :
  0 < y1 -> 0 < y2 ->
  0 <= mo1 <= 11 -> 0 <= mo2 <= 11 ->
  0 < p1 -> 0 < p2 ->
  (scheduledNumber y1 mo1 p1 = scheduledNumber y2 mo2 p2 ->
   y1 = y2 /\ mo1 = mo2 /\ p1 = p2)
  /\ manualNumber y1 mo1 p1 nowMs <> scheduledNumber y2 mo2 p2.
Proof.
  intros Hy1 Hy2 Hm1 Hm2 Hp1 Hp2.
  assert (Hd : forall y mo, 0 < y -> 0 <= mo <= 11 ->
            hasDash (JsString.toString y
                     ++ JsString.padStart 2 "0" (JsString.toString (mo + 1))) = false).
  { intros y mo Hy Hm. rewrite hasDash_app, hasDash_toString, hasDash_padStart by lia.
    reflexivity. }
  split.
  - intros H. rewrite !scheduledNumber_parts in H. apply append_inv_head in H.
    apply split_at_dash in H; [| apply Hd; assumption ..].
    destruct H as [Hym Hp].
    apply append_inv_tail in Hym;
      [| rewrite !month_field_length by assumption; reflexivity].
    destruct Hym as [Ey Em].
    apply toString_inj_pos in Ey; [| assumption ..].
    apply padStart_toString_inj in Em; [| lia ..].
    apply padStart_toString_inj in Hp; [| assumption ..].
    repeat split; lia.
  - unfold manualNumber. rewrite !scheduledNumber_parts. intros H.
    rewrite (string_app_assoc "INV-") in H. apply append_inv_head in H.
    rewrite string_app_assoc in H.
    match type of H with
    | ?d ++ (String "-" ?p ++ ?x) = _ =>
        change (d ++ (String "-" p ++ x)) with (d ++ String "-" (p ++ x)) in H
    end.
    apply split_at_dash in H; [| apply Hd; assumption ..].
    destruct H as [_ H].
    assert (Hh : hasDash (JsString.padStart 3 "0" (JsString.toString p2)) = false)
      by (apply hasDash_padStart; lia).
    rewrite <- H, hasDash_app in Hh. cbn in Hh.
    rewrite orb_true_r in Hh. discriminate Hh.
Qed.

Lemma scheduled_number_identifies_witness :
  scheduledNumber 2026 10 1 = "INV-202611-001"
  /\ scheduledNumber 2026 0 11 = "INV-202601-011"
  /\ scheduledNumber 2026 10 1 <> scheduledNumber 2026 0 11
  /\ manualNumber 2026 10 1 1793606400000 <> scheduledNumber 2026 10 1.
Proof.
  destruct (scheduled_number_identifies 2026 10 1 2026 0 11 1793606400000
              ltac:(lia) ltac:(lia) ltac:(lia) ltac:(lia) ltac:(lia) ltac:(lia))
    as [Hinj _].
  destruct (scheduled_number_identifies 2026 10 1 2026 10 1 1793606400000
              ltac:(lia) ltac:(lia) ltac:(lia) ltac:(lia) ltac:(lia) ltac:(lia))
    as [_ Hman].
  split; [vm_compute; reflexivity |]. split; [vm_compute; reflexivity |].
  split; [| exact Hman].
  intros E. destruct (Hinj E) as (_ & Hm & _). discriminate Hm.
Defined.

(** ** Deleting invoices and properties *)

Lemma find_filter_other {A} (key : A -> Z) (k j : Z) (l : list A) :
  j <> k ->
  find (fun a => key a =? j) (filter (fun a => negb (key a =? k)) l)
  = find (fun a => key a =? j) l.
Proof.
  intros Hjk. induction l as [| a l IH]; [reflexivity |]. cbn [filter find].
  destruct (Z.eqb_spec (key a) k) as [E | E]; cbn [negb find].
  - destruct (Z.eqb_spec (key a) j) as [E' | _]; [lia | exact IH].
  - destruct (key a =? j); [reflexivity | exact IH].
Qed.

Lemma find_filter_same {A} (key : A -> Z) (k : Z) (l : list A) :
  find (fun a => key a =? k) (filter (fun a => negb (key a =? k)) l) = None.
Proof.
  induction l as [| a l IH]; [reflexivity |]. cbn [filter].
  destruct (Z.eqb_spec (key a) k) as [E | E]; cbn [negb find]; [exact IH |].
  destruct (Z.eqb_spec (key a) k); [contradiction | exact IH].
Qed.

Lemma existsb_filter_same {A} (key : A -> Z) (k : Z) (l : list A) :
  existsb (fun a => key a =? k) (filter (fun a => negb (key a =? k)) l) = false.
Proof.
  induction l as [| a l IH]; [reflexivity |]. cbn [filter].
  destruct (Z.eqb_spec (key a) k) as [E | E]; cbn [negb existsb]; [exact IH |].
  destruct (Z.eqb_spec (key a) k); [contradiction | exact IH].
Qed.

Lemma filter_absent {A} (key : A -> Z) (k : Z) (l : list A) :
  existsb (fun a => key a =? k) l = false ->
  filter (fun a => negb (key a =? k)) l = l.
Proof.
  induction l as [| a l IH]; [reflexivity |]. cbn [existsb filter].
  intros H. apply orb_false_elim in H. destruct H as [H1 H2].
  rewrite H1. cbn [negb]. rewrite (IH H2). reflexivity.
Qed.

Lemma filter_filter_other {A} (key : A -> Z) (k j : Z) (l : list A) :
  j <> k ->
  filter (fun a => key a =? j) (filter (fun a => negb (key a =? k)) l)
  = filter (fun a => key a =? j) l.
Proof.
  intros Hjk. induction l as [| a l IH]; [reflexivity |]. cbn [filter].
  destruct (Z.eqb_spec (key a) k) as [E | E]; cbn [negb filter].
  - destruct (Z.eqb_spec (key a) j) as [E' | _]; [lia | exact IH].
  - destruct (key a =? j); [rewrite IH |]; auto.
Qed.

(** X11.  DELETE /api/invoices/:id answers 200 when the invoice is stored
    and 404 "Invoice not found" when it is not, whatever the status of the
    invoice.  Afterwards the invoice cannot be read and a second delete
    answers 404; every other invoice reads as before; nothing else goes
    with it: properties, notifications (also the "invoice sent" notes about
    the deleted invoice) and the outbox are as before, and the id sequence
    keeps its value, so the id is not given out again. *)
Theorem delete_invoice_removes_only_that_invoice (w : World) (iid : Z) :
  let stored := existsb (fun i => id i =? iid) (db_invoices w) in
  let r := Api.deleteInvoice iid w in
  let w' := snd r in
  fst r =
    Ok (if stored
        then {| Routes.res_status := 200;
                Routes.res_body := Routes.Message "Invoice deleted successfully" |}
        else {| Routes.res_status := 404;
                Routes.res_body := Routes.Message "Invoice not found" |})
  /\ fst (Storage.getInvoice iid w') = Ok None
  /\ (forall j, j <> iid ->
        fst (Storage.getInvoice j w') = fst (Storage.getInvoice j w))
  /\ (stored = false -> db_invoices w' = db_invoices w)
  /\ besidesInvoices w' = besidesInvoices w
  /\ seq_invoices w' = seq_invoices w
  /\ fst (Api.deleteInvoice iid w') =
       Ok {| Routes.res_status := 404;
             Routes.res_body := Routes.Message "Invoice not found" |}.
Proof.
  intros stored r w'. unfold w', r, stored. clear w' r stored.
  cbv beta iota zeta delta [Api.deleteInvoice DatabaseStorage.deleteInvoice
    tryCatch bind ret Routes.respond Storage.getInvoice].
  cbn [fst snd db_invoices setInvoices seq_invoices].
  repeat match goal with |- _ /\ _ => split end.
  - destruct (existsb _ (db_invoices w)); reflexivity.
  - destruct (existsb _ (db_invoices w)); cbn [negb fst snd db_invoices setInvoices];
      rewrite (find_filter_same id); reflexivity.
  - intros j Hj.
    destruct (existsb _ (db_invoices w)); cbn [negb fst snd db_invoices setInvoices];
      rewrite (find_filter_other id) by exact Hj; reflexivity.
  - intros H. rewrite H. cbn [negb snd db_invoices setInvoices].
    apply (filter_absent id). exact H.
  - destruct (existsb _ (db_invoices w)); reflexivity.
  - destruct (existsb _ (db_invoices w)); reflexivity.
  - destruct (existsb _ (db_invoices w)); cbn [negb fst snd db_invoices setInvoices];
      rewrite (existsb_filter_same id); reflexivity.
Qed.

Lemma existsb_filter_other {A} (key : A -> Z) (k j : Z) (l : list A) :
  j <> k ->
  existsb (fun a => key a =? j) (filter (fun a => negb (key a =? k)) l)
  = existsb (fun a => key a =? j) l.
Proof.
  intros Hjk. induction l as [| a l IH]; [reflexivity |]. cbn [filter existsb].
  destruct (Z.eqb_spec (key a) k) as [E | E]; cbn [negb existsb].
  - destruct (Z.eqb_spec (key a) j) as [E' | _]; [lia | exact IH].
  - rewrite IH. reflexivity.
Qed.

Lemma filter_same_nil {A} (key : A -> Z) (k : Z) (l : list A) :
  filter (fun a => key a =? k) (filter (fun a => negb (key a =? k)) l) = [].
Proof.
  induction l as [| a l IH]; [reflexivity |]. cbn [filter].
  destruct (Z.eqb_spec (key a) k) as [E | E]; cbn [negb filter]; [exact IH |].
  destruct (Z.eqb_spec (key a) k); [contradiction | exact IH].
Qed.

Lemma deleteProperty_unfold pid w :
  DatabaseStorage.deleteProperty pid w =
  if Storage.propertyExists pid w then
    (Ok true,
     DatabaseStorage.setProperties
       (filter (fun p => negb (p_id p =? pid)) (db_properties w))
       (setNotifications
          (filter (fun n => negb (n_propertyId n =? pid)) (db_notifications w))
          (seq_notifications w)
          (setInvoices
             (filter (fun i => negb (propertyId i =? pid)) (db_invoices w))
             (seq_invoices w) w)))
  else (Ok false, w).
Proof.
  unfold DatabaseStorage.deleteProperty, tryCatch, Storage.propertyExists.
  rewrite (existsb_filter_length (fun p => p_id p =? pid) (db_properties w)).
  destruct (List.length (filter (fun p => p_id p =? pid) (db_properties w)))
    as [| k] eqn:E; cbn [Nat.eqb negb Z.of_nat Z.eqb]; [reflexivity |].
  cbn [db_properties setNotifications setInvoices].
  rewrite (existsb_filter_length (fun p => p_id p =? pid) (db_properties w)), E.
  reflexivity.
Qed.

(** X13.  DELETE /api/properties/:id answers 404 "Property not found" and
    leaves the world as it was when no such property is stored.  When it
    is stored the answer is 204 with no body, and the property goes with
    all its invoices and all its notifications: afterwards the property
    cannot be read, no invoice and no notification refers to it, every
    other property, invoice and notification reads as before, the outbox
    and both id sequences are untouched, and if every invoice and
    notification pointed at a stored property before, the same holds
    after. *)
Theorem delete_property_cascades (w : World) (pid : Z) :
  let stored := Storage.propertyExists pid w in
  let r := Api.deleteProperty pid w in
  let w' := snd r in
  fst r =
    Ok (if stored
        then {| Api.ans_status := 204; Api.ans_payload := Api.NoBody |}
        else {| Api.ans_status := 404;
                Api.ans_payload := Api.MessageJson "Property not found" |})
  /\ (stored = false -> w' = w)
  /\ fst (Storage.getProperty pid w') = Ok None
  /\ (stored = true ->
      fst (Storage.getInvoicesByProperty pid w') = Ok []
      /\ forall n, In n (db_notifications w') -> n_propertyId n <> pid)
  /\ (forall q, q <> pid ->
        fst (Storage.getProperty q w') = fst (Storage.getProperty q w)
        /\ fst (Storage.getInvoicesByProperty q w')
           = fst (Storage.getInvoicesByProperty q w)
        /\ filter (fun n => n_propertyId n =? q) (db_notifications w')
           = filter (fun n => n_propertyId n =? q) (db_notifications w))
  /\ (referencesHold w -> referencesHold w')
  /\ outbox w' = outbox w
  /\ seq_invoices w' = seq_invoices w
  /\ seq_notifications w' = seq_notifications w.
Proof.
  intros stored r w'.
  assert (Hr : r = if stored
                   then (Ok {| Api.ans_status := 204; Api.ans_payload := Api.NoBody |},
                         snd (DatabaseStorage.deleteProperty pid w))
                   else (Ok {| Api.ans_status := 404;
                               Api.ans_payload := Api.MessageJson "Property not found" |},
                         w)).
  { unfold r, stored, Api.deleteProperty, tryCatch, bind, Api.answer, ret.
    rewrite deleteProperty_unfold.
    destruct (Storage.propertyExists pid w); reflexivity. }
  assert (Hw : w' = if stored then snd (DatabaseStorage.deleteProperty pid w) else w)
    by (unfold w'; rewrite Hr; destruct stored; reflexivity).
  rewrite deleteProperty_unfold in Hw. fold stored in Hw.
  clearbody r w'. subst r.
  destruct stored eqn:Hs; cbn [fst snd] in *; subst w'.
  - unfold Storage.getProperty, Storage.getInvoicesByProperty.
    cbn [fst snd db_properties db_invoices db_notifications outbox seq_invoices
         seq_notifications DatabaseStorage.setProperties setNotifications setInvoices].
    repeat match goal with |- _ /\ _ => split end; try reflexivity.
    + intros H; discriminate H.
    + rewrite (find_filter_same p_id). reflexivity.
    + intros _. split.
      * rewrite (filter_same_nil propertyId). reflexivity.
      * intros n Hn. apply filter_In in Hn. destruct Hn as [_ Hn].
        destruct (Z.eqb_spec (n_propertyId n) pid); [discriminate Hn | assumption].
    + intros q Hq. split; [| split].
      * rewrite (find_filter_other p_id) by exact Hq. reflexivity.
      * rewrite (filter_filter_other propertyId) by exact Hq. reflexivity.
      * apply (filter_filter_other n_propertyId). exact Hq.
    + intros [Hi Hn]. unfold referencesHold, Storage.propertyExists.
      cbn [db_properties db_invoices db_notifications
           DatabaseStorage.setProperties setNotifications setInvoices].
      split.
      * intros i Hin. apply filter_In in Hin. destruct Hin as [Hin Hne].
        destruct (Z.eqb_spec (propertyId i) pid) as [| Hne']; [discriminate Hne |].
        rewrite (existsb_filter_other p_id) by exact Hne'. exact (Hi i Hin).
      * intros n Hin. apply filter_In in Hin. destruct Hin as [Hin Hne].
        destruct (Z.eqb_spec (n_propertyId n) pid) as [| Hne']; [discriminate Hne |].
        rewrite (existsb_filter_other p_id) by exact Hne'. exact (Hn n Hin).
  - unfold Storage.getProperty. cbn [fst snd].
    repeat match goal with |- _ /\ _ => split end; try reflexivity.
    + destruct (find _ (db_properties w)) as [p |] eqn:Hf; [| reflexivity].
      apply find_some in Hf. destruct Hf as [Hin Hp].
      assert (E : existsb (fun p => p_id p =? pid) (db_properties w) = true)
        by (apply existsb_exists; exists p; auto).
      unfold stored, Storage.propertyExists in Hs. congruence.
    + intros H; discriminate H.
    + intros q _. repeat split.
    + intros H. exact H.
Qed.

(** ** Notifications: marking as read and clearing *)

Lemma map_markRead_idem nid (l : list Notification) :
  map (fun n => if n_id n =? nid then DatabaseStorage.markRead n else n)
    (map (fun n => if n_id n =? nid then DatabaseStorage.markRead n else n) l)
  = map (fun n => if n_id n =? nid then DatabaseStorage.markRead n else n) l.
Proof.
  rewrite map_map. apply map_ext. intros n.
  destruct (n_id n =? nid) eqn:E; [| rewrite E; reflexivity].
  change (n_id (DatabaseStorage.markRead n)) with (n_id n). rewrite E. reflexivity.
Qed.

Lemma existsb_map_markRead nid (l : list Notification) :
  existsb (fun n => n_id n =? nid)
    (map (fun n => if n_id n =? nid then DatabaseStorage.markRead n else n) l)
  = existsb (fun n => n_id n =? nid) l.
Proof.
  induction l as [| n l IH]; [reflexivity |]. cbn [map existsb]. rewrite IH.
  destruct (n_id n =? nid) eqn:E; [| rewrite E; reflexivity].
  change (n_id (DatabaseStorage.markRead n)) with (n_id n). rewrite E. reflexivity.
Qed.

(** X14.  PUT /api/notifications/:id/read answers 200 when a notification
    with the id is stored, already read or not, and 404 "Notification not
    found" otherwise.  It keeps the rows and their order, changes nothing
    but the read flag, sets the flag of the rows with that id and leaves
    the flag of every other row; repeating the request gives the same
    answer and the same table. *)
Theorem mark_notification_read (w : World) (nid : Z) :
  let stored := existsb (fun n => n_id n =? nid) (db_notifications w) in
  let r := Api.putNotificationRead nid w in
  let w' := snd r in
  let unread (n : Notification) :=
    (n_id n, n_propertyId n, n_type n, n_message n, n_createdAt n) in
  fst r =
    Ok (if stored
        then {| Routes.res_status := 200;
                Routes.res_body := Routes.Message "Notification marked as read" |}
        else {| Routes.res_status := 404;
                Routes.res_body := Routes.Message "Notification not found" |})
  /\ map unread (db_notifications w') = map unread (db_notifications w)
  /\ map n_isRead (db_notifications w')
     = map (fun n => ((n_id n =? nid) || n_isRead n)%bool) (db_notifications w)
  /\ Api.putNotificationRead nid w' = (fst r, w')
  /\ db_invoices w' = db_invoices w
  /\ db_properties w' = db_properties w
  /\ outbox w' = outbox w.
Proof.
  intros stored r w' unread.
  assert (Hrun : forall u,
            Api.putNotificationRead nid u =
            (Ok (if existsb (fun n => n_id n =? nid) (db_notifications u)
                 then {| Routes.res_status := 200;
                         Routes.res_body := Routes.Message "Notification marked as read" |}
                 else {| Routes.res_status := 404;
                         Routes.res_body := Routes.Message "Notification not found" |}),
             setNotifications
               (map (fun n => if n_id n =? nid then DatabaseStorage.markRead n else n)
                  (db_notifications u))
               (seq_notifications u) u)).
  { intros u.
    cbv beta iota zeta delta [Api.putNotificationRead
      DatabaseStorage.markNotificationAsRead tryCatch bind ret Routes.respond].
    destruct (existsb _ (db_notifications u)); reflexivity. }
  unfold w', r, stored. clear w' r stored. rewrite !Hrun.
  cbn [fst snd db_notifications db_invoices db_properties outbox
       seq_notifications setNotifications].
  repeat match goal with |- _ /\ _ => split end; try reflexivity.
  - rewrite map_map. apply map_ext. intros n.
    destruct (n_id n =? nid); reflexivity.
  - rewrite map_map. apply map_ext. intros n.
    destruct (n_id n =? nid); reflexivity.
  - rewrite existsb_map_markRead, map_markRead_idem. reflexivity.
Qed.

(** X15.  DELETE /api/notifications on an empty table answers 404 "No
    notifications to clear"; otherwise it answers 200 and empties the
    table, whichever rows were unread.  Either way the table is empty
    afterwards, so a second request answers 404; the id sequence keeps its
    value, so the next notification gets an id that was never used, and
    invoices, properties and the outbox are untouched. *)
Theorem clear_notifications (w : World) (ins : InsertNotification) :
  let r := Api.deleteNotifications w in
  let w' := snd r in
  fst r =
    Ok (match db_notifications w with
        | [] => {| Routes.res_status := 404;
                   Routes.res_body := Routes.Message "No notifications to clear" |}
        | _ :: _ =>
            {| Routes.res_status := 200;
               Routes.res_body :=
                 Routes.Message "All notifications cleared successfully" |}
        end)
  /\ db_notifications w' = []
  /\ fst (Api.deleteNotifications w') =
       Ok {| Routes.res_status := 404;
             Routes.res_body := Routes.Message "No notifications to clear" |}
  /\ (forall n, fst (Storage.createNotification ins w') = Ok n ->
        n_id n = seq_notifications w + 1)
  /\ db_invoices w' = db_invoices w
  /\ db_properties w' = db_properties w
  /\ outbox w' = outbox w.
Proof.
  intros r w'. unfold w', r. clear w' r.
  cbv beta iota zeta delta [Api.deleteNotifications
    DatabaseStorage.clearAllNotifications tryCatch bind ret Routes.respond].
  destruct (db_notifications w) as [| n0 l] eqn:E.
  - cbn [negb fst snd db_notifications db_invoices db_properties outbox
         setNotifications List.length Z.of_nat Z.ltb Z.compare].
    repeat match goal with |- _ /\ _ => split end; try reflexivity.
    intros n. unfold Storage.createNotification.
    cbn [seq_notifications setNotifications].
    destruct (negb _); cbn [fst]; intros H; inversion H. reflexivity.
  - assert (Hpos : (0 <? Z.of_nat (List.length (n0 :: l))) = true)
      by (apply Z.ltb_lt; cbn [List.length]; lia).
    rewrite Hpos. cbn [negb fst snd db_notifications db_invoices db_properties
      outbox setNotifications List.length Z.of_nat Z.ltb Z.compare].
    repeat match goal with |- _ /\ _ => split end; try reflexivity.
    intros n. unfold Storage.createNotification.
    cbn [seq_notifications setNotifications].
    destruct (negb _); cbn [fst]; intros H; inversion H. reflexivity.
Qed.

(** ** The PDF preview and the attachment *)

Lemma postInvoiceSend_outbox w iid bodyCc inv prop :
  find (fun i => id i =? iid) (db_invoices w) = Some inv ->
  find (fun p => p_id p =? propertyId inv) (db_properties w) = Some prop ->
  JsString.truthyOpt (p_tenantEmail prop) = true ->
  let cc := match bodyCc with Some l => l | None => [] end in
  let mail :=
    EmailService.mailOptions inv prop cc
      (PdfService.document (hd_error (db_companySettings w)) inv prop) in
  outbox (snd (Routes.postInvoiceSend iid bodyCc w)) =
  if smtp w mail then (outbox w ++ [mail])%list else outbox w.
Proof.
  intros Hinv Hprop Hmail cc mail.
  pose proof (find_property_id _ _ _ Hprop) as [Hpid Hex].
  run_route. rewrite Hinv, Hprop, Hmail. cbn [negb]. fold cc.
  rewrite (sendInvoice_unfold inv prop cc w Hmail). cbn zeta. fold mail.
  destruct (smtp w mail); cbn [negb fst snd]; [| reflexivity].
  unfold Storage.updateInvoice.
  change (db_invoices (setOutbox (outbox w ++ [mail]) w)) with (db_invoices w).
  rewrite Hinv. cbn [Routes.sentUpdates u_propertyId u_invoiceNumber].
  unfold Storage.createNotification.
  cbv beta iota zeta delta [in_propertyId Storage.propertyExists].
  change (db_properties (setInvoices _ _ (setOutbox _ w))) with (db_properties w).
  rewrite Hex. reflexivity.
Qed.

(** X16.  The preview is the attachment.  For a stored invoice whose
    property is stored, GET /api/invoices/:id/pdf answers 200 with the
    document of the invoice under the file name invoice-{number}.pdf and
    changes nothing; when the tenant has an email address and the transport
    accepts the mail, POST /api/invoices/:id/send in the same world hands
    the transport exactly one mail, addressed to the tenant, whose
    attachment is that same document. *)
Theorem pdf_preview_is_the_attachment (w : World) (iid : Z)
  (bodyCc : option (list string)) (inv : Invoice) (prop : Property) :
  find (fun i => id i =? iid) (db_invoices w) = Some inv ->
  find (fun p => p_id p =? propertyId inv) (db_properties w) = Some prop ->
  let cc := match bodyCc with Some l => l | None => [] end in
  let doc := PdfService.document (hd_error (db_companySettings w)) inv prop in
  Api.getInvoicePdf iid w =
    (Ok {| Api.ans_status := 200;
           Api.ans_payload :=
             Api.InlinePdf ("invoice-" ++ invoiceNumber inv ++ ".pdf") doc |}, w)
  /\ (JsString.truthyOpt (p_tenantEmail prop) = true ->
      smtp w (EmailService.mailOptions inv prop cc doc) = true ->
      exists m,
        outbox (snd (Routes.postInvoiceSend iid bodyCc w)) = (outbox w ++ [m])%list
        /\ m_body m = InvoiceMail inv prop doc
        /\ m_to m = JsString.orOpt (p_tenantEmail prop) "").
Proof.
  intros Hinv Hprop cc doc. split.
  - cbv beta iota zeta delta [Api.getInvoicePdf tryCatch bind ret Api.answer
      Storage.getInvoice Storage.getProperty PdfService.generateInvoicePDF
      Storage.getCompanySettings].
    rewrite Hinv, Hprop. reflexivity.
  - intros Hmail Hsmtp.
    pose proof (postInvoiceSend_outbox w iid bodyCc inv prop Hinv Hprop Hmail) as Ho.
    cbv zeta in Ho. fold cc doc in Ho. rewrite Hsmtp in Ho.
    eexists. split; [exact Ho |]. split; reflexivity.
Qed.

Lemma pdf_preview_is_the_attachment_witness :
  let doc :=
    PdfService.document (Some (settingsWithRate "15.00"))
      (scheduledInvoice sampleProperty 1) sampleProperty in
  fst (Api.getInvoicePdf 1 billedWorld) =
    Ok {| Api.ans_status := 200;
          Api.ans_payload := Api.InlinePdf "invoice-INV-202611-001.pdf" doc |}
  /\ map m_body (outbox (snd (Routes.postInvoiceSend 1 None billedWorld)))
     = [InvoiceMail (scheduledInvoice sampleProperty 1) sampleProperty doc].
Proof.
  destruct (pdf_preview_is_the_attachment billedWorld 1 None
              (scheduledInvoice sampleProperty 1) sampleProperty
              eq_refl eq_refl) as [Hget Hsend].
  destruct (Hsend eq_refl eq_refl) as (m & Ho & Hb & _).
  cbv zeta. split.
  - rewrite Hget. reflexivity.
  - rewrite Ho. cbn [map outbox billedWorld setInvoices sampleWorld app].
    rewrite Hb. reflexivity.
Defined.

(** ** The lease clock: dashboard counts and the statuses of the client *)

Lemma ceilDiv_le a b d : 0 < b -> (JsNumber.ceilDiv a b <= d <-> a <= d * b).
Proof.
  intros Hb. unfold JsNumber.ceilDiv. split; intros H.
  - Z.to_euclidean_division_equations. nia.
  - Z.to_euclidean_division_equations. nia.
Qed.

Lemma ceilDiv_pos a b : 0 < b -> (0 < JsNumber.ceilDiv a b <-> 0 < a).
Proof.
  intros Hb. pose proof (ceilDiv_le a b 0 Hb). lia.
Qed.


Lemma expiresWithin_spec limit nowMs p :
  Api.expiresWithin limit nowMs p = true
  <-> exists e, p_leaseEndDate p = Some e /\ 0 < e - nowMs <= limit * 86400000.
Proof.
  unfold Api.expiresWithin. destruct (p_leaseEndDate p) as [e |].
  - change (1000 * 60 * 60 * 24) with 86400000.
    rewrite andb_true_iff, Z.leb_le, Z.ltb_lt.
    rewrite (ceilDiv_le _ 86400000 limit) by lia.
    rewrite (ceilDiv_pos _ 86400000) by lia.
    split.
    + intros [H1 H2]. exists e. split; [reflexivity | lia].
    + intros (e' & E & H). inversion E. subst e'. lia.
  - split; [discriminate | intros (e & E & _); discriminate E].
Qed.


Lemma ceilDiv_neg a b : 0 < b -> (JsNumber.ceilDiv a b < 0 <-> a <= - b).
Proof.
  intros Hb. pose proof (ceilDiv_le a b (-1) Hb). lia.
Qed.

Lemma getDaysUntilExpiry_le nowMs e d :
  DateUtils.getDaysUntilExpiry nowMs e <= d <-> e - nowMs <= d * 86400000.
Proof.
  unfold DateUtils.getDaysUntilExpiry. change (1000 * 60 * 60 * 24) with 86400000.
  apply ceilDiv_le. lia.
Qed.

(** X18.  The status the client shows for a property, in terms of the time
    left on the lease.  A property that is not occupied is available
    whatever its lease dates.  An occupied one is critical exactly when it
    has a lease end date at most 30 days ahead, which includes every lease
    that has already ended (there is no status for an ended lease);
    expiring-soon exactly when the end is more than 30 and at most 60 days
    ahead; leased when it has no end date or the end is more than 60 days
    ahead.  For an occupied property whose lease has not ended yet the
    status is critical exactly when the dashboard counts the property as
    expiringCritical. *)
Theorem property_status_thresholds (nowMs : Z) (p : Property) :
  let s := PropertyUtils.getPropertyStatus nowMs p in
  let day := 86400000 in
  (s = PropertyUtils.Available <-> p_isOccupied p = false)
  /\ (s = PropertyUtils.Critical <->
      p_isOccupied p = true
      /\ exists e, p_leaseEndDate p = Some e /\ e - nowMs <= 30 * day)
  /\ (s = PropertyUtils.ExpiringSoon <->
      p_isOccupied p = true
      /\ exists e, p_leaseEndDate p = Some e /\ 30 * day < e - nowMs <= 60 * day)
  /\ (s = PropertyUtils.Leased <->
      p_isOccupied p = true
      /\ (p_leaseEndDate p = None
          \/ exists e, p_leaseEndDate p = Some e /\ 60 * day < e - nowMs))
  /\ (p_isOccupied p = true ->
      (forall e, p_leaseEndDate p = Some e -> nowMs < e) ->
      (s = PropertyUtils.Critical <-> Api.expiresWithin 30 nowMs p = true)).
Proof.
  intros s day. unfold s, day. clear s day.
  unfold PropertyUtils.getPropertyStatus.
  destruct (p_isOccupied p); cbn [negb].
  2:{ repeat match goal with |- _ /\ _ => split end;
        try (split; [discriminate | intros [H _]; discriminate H]).
      - split; reflexivity.
      - intros H; discriminate H. }
  destruct (p_leaseEndDate p) as [e |] eqn:He.
  2:{ repeat match goal with |- _ /\ _ => split end.
      - split; discriminate.
      - split; [discriminate | intros (_ & e & E & _); discriminate E].
      - split; [discriminate | intros (_ & e & E & _); discriminate E].
      - split; [intros _; split; [reflexivity | left; reflexivity] | reflexivity].
      - intros _ _. unfold Api.expiresWithin. rewrite He.
        split; discriminate. }
  cbv zeta.
  pose proof (getDaysUntilExpiry_le nowMs e 30) as H30.
  pose proof (getDaysUntilExpiry_le nowMs e 60) as H60.
  assert (Hex : forall P : Z -> Prop,
            (exists e', Some e = Some e' /\ P e') <-> P e).
  { intros P. split; [intros (e' & E & H); inversion E; subst; exact H |].
    intros H. exists e. split; [reflexivity | exact H]. }
  destruct (Z.leb_spec (DateUtils.getDaysUntilExpiry nowMs e) 30) as [L30 | L30];
    [| destruct (Z.leb_spec (DateUtils.getDaysUntilExpiry nowMs e) 60) as [L60 | L60]].
  - repeat match goal with |- _ /\ _ => split end.
    + split; discriminate.
    + rewrite (Hex (fun e => e - nowMs <= 30 * 86400000)).
      split; [intros _; split; [reflexivity | lia] | reflexivity].
    + rewrite (Hex (fun e => 30 * 86400000 < e - nowMs <= 60 * 86400000)).
      split; [discriminate | intros [_ H]; lia].
    + rewrite (Hex (fun e => 60 * 86400000 < e - nowMs)).
      split; [discriminate | intros [_ [H | H]]; [discriminate H | lia]].
    + intros _ Hfuture. specialize (Hfuture e eq_refl).
      split; [intros _ | reflexivity].
      apply expiresWithin_spec. exists e. split; [exact He | lia].
  - repeat match goal with |- _ /\ _ => split end.
    + split; discriminate.
    + rewrite (Hex (fun e => e - nowMs <= 30 * 86400000)).
      split; [discriminate | intros [_ H]; lia].
    + rewrite (Hex (fun e => 30 * 86400000 < e - nowMs <= 60 * 86400000)).
      split; [intros _; split; [reflexivity | lia] | reflexivity].
    + rewrite (Hex (fun e => 60 * 86400000 < e - nowMs)).
      split; [discriminate | intros [_ [H | H]]; [discriminate H | lia]].
    + intros _ _. split; [discriminate |]. intros H.
      apply expiresWithin_spec in H. destruct H as (e' & E & H).
      rewrite He in E. inversion E. subst e'. lia.
  - repeat match goal with |- _ /\ _ => split end.
    + split; discriminate.
    + rewrite (Hex (fun e => e - nowMs <= 30 * 86400000)).
      split; [discriminate | intros [_ H]; lia].
    + rewrite (Hex (fun e => 30 * 86400000 < e - nowMs <= 60 * 86400000)).
      split; [discriminate | intros [_ H]; lia].
    + rewrite (Hex (fun e => 60 * 86400000 < e - nowMs)).
      split; [intros _; split; [reflexivity | right; lia] | reflexivity].
    + intros _ _. split; [discriminate |]. intros H.
      apply expiresWithin_spec in H. destruct H as (e' & E & H).
      rewrite He in E. inversion E. subst e'. lia.
Qed.

(** X19.  The lease status of the client, in terms of the two dates.  With
    either date missing the status is active.  Otherwise it is not-started
    exactly when the start lies ahead; for a started lease it is expired
    exactly when the end lies a full day or more behind, critical when the
    end is less than one day behind and at most 30 days ahead (so a lease
    that ended within the last 24 hours still shows as critical),
    expiring-soon when the end is more than 30 and at most 60 days ahead,
    and active beyond that. *)
Theorem lease_status_thresholds (nowMs startDate endDate : Z) :
  let s := DateUtils.getLeaseStatus nowMs (Some startDate) (Some endDate) in
  let day := 86400000 in
  let left := endDate - nowMs in
  (forall d, DateUtils.getLeaseStatus nowMs None d = DateUtils.LeaseActive
             /\ DateUtils.getLeaseStatus nowMs d None = DateUtils.LeaseActive)
  /\ (s = DateUtils.LeaseNotStarted <-> nowMs < startDate)
  /\ (s = DateUtils.LeaseExpired <-> startDate <= nowMs /\ left <= - day)
  /\ (s = DateUtils.LeaseCritical <->
      startDate <= nowMs /\ - day < left <= 30 * day)
  /\ (s = DateUtils.LeaseExpiringSoon <->
      startDate <= nowMs /\ 30 * day < left <= 60 * day)
  /\ (s = DateUtils.LeaseActive <-> startDate <= nowMs /\ 60 * day < left).
Proof.
  intros s day left. unfold s, day, left. clear s day left.
  split; [intros d; split; [reflexivity | destruct d; reflexivity] |].
  unfold DateUtils.getLeaseStatus.
  pose proof (getDaysUntilExpiry_le nowMs endDate 30) as H30.
  pose proof (getDaysUntilExpiry_le nowMs endDate 60) as H60.
  assert (Hneg : DateUtils.getDaysUntilExpiry nowMs endDate < 0
                 <-> endDate - nowMs <= - 86400000).
  { unfold DateUtils.getDaysUntilExpiry. change (1000 * 60 * 60 * 24) with 86400000.
    apply ceilDiv_neg. lia. }
  cbv zeta.
  destruct (Z.ltb_spec nowMs startDate) as [Ls | Ls];
    [| destruct (Z.ltb_spec (DateUtils.getDaysUntilExpiry nowMs endDate) 0) as [L0 | L0];
       [| destruct (Z.leb_spec (DateUtils.getDaysUntilExpiry nowMs endDate) 30) as [L30 | L30];
          [| destruct (Z.leb_spec (DateUtils.getDaysUntilExpiry nowMs endDate) 60)
               as [L60 | L60]]]];
    repeat match goal with |- _ /\ _ => split end;
    try (split; [discriminate | intros H; lia]);
    try (split; [intros _; lia | reflexivity]).
Qed.

(** ** Sorting the properties by status *)

Lemma insertByKey_perm {A} (key : A -> Z) (x : A) (l : list A) :
  Permutation (x :: l) (PropertyUtils.insertByKey key x l).
Proof.
  induction l as [| y r IH]; cbn [PropertyUtils.insertByKey]; [apply Permutation_refl |].
  destruct (key x <=? key y); [apply Permutation_refl |].
  apply perm_trans with (y :: x :: r); [apply perm_swap | apply perm_skip; exact IH].
Qed.

Lemma insertByKey_sorted {A} (key : A -> Z) (x : A) (l : list A) :
  StronglySorted (fun a b => key a <= key b) l ->
  StronglySorted (fun a b => key a <= key b) (PropertyUtils.insertByKey key x l).
Proof.
  induction l as [| y r IH]; intros Hs; cbn [PropertyUtils.insertByKey].
  - constructor; constructor.
  - inversion Hs as [| ? ? Hr Hall]; subst.
    destruct (Z.leb_spec (key x) (key y)) as [Hle | Hgt].
    + constructor; [exact Hs |]. constructor; [exact Hle |].
      eapply Forall_impl; [| exact Hall]. cbn. intros a Ha. lia.
    + constructor; [apply IH; exact Hr |].
      eapply Permutation_Forall; [apply insertByKey_perm |].
      constructor; [lia | exact Hall].
Qed.

Lemma insertByKey_filter {A} (key : A -> Z) (k : Z) (x : A) (l : list A) :
  filter (fun a => key a =? k) (PropertyUtils.insertByKey key x l)
  = filter (fun a => key a =? k) (x :: l).
Proof.
  induction l as [| y r IH]; cbn [PropertyUtils.insertByKey]; [reflexivity |].
  destruct (Z.leb_spec (key x) (key y)) as [Hle | Hgt]; [reflexivity |].
  cbn [filter] in *. rewrite IH.
  destruct (Z.eqb_spec (key x) k) as [Ex | Ex]; [| reflexivity].
  destruct (Z.eqb_spec (key y) k) as [Ey | Ey]; [lia | reflexivity].
Qed.

Lemma statusEqb_priority a b :
  PropertyUtils.statusEqb a b
  = (PropertyUtils.statusPriority a =? PropertyUtils.statusPriority b).
Proof. destruct a, b; reflexivity. Qed.

(** X20.  sortPropertiesByStatus rearranges and loses nothing: the result
    is a permutation of the argument, in the order critical,
    expiring-soon, leased, available.  The sort is stable, so filtering
    the sorted list by a status gives the same list as filtering the
    argument: within one status the properties keep the order they came
    in. *)
Theorem sort_by_status_is_stable (nowMs : Z) (properties : list Property)
  (s : PropertyUtils.PropertyStatus) :
  let sorted := PropertyUtils.sortPropertiesByStatus nowMs properties in
  let priority p :=
    PropertyUtils.statusPriority (PropertyUtils.getPropertyStatus nowMs p) in
  Permutation properties sorted
  /\ StronglySorted (fun a b => priority a <= priority b) sorted
  /\ PropertyUtils.filterPropertiesByStatus nowMs sorted (Some s)
     = PropertyUtils.filterPropertiesByStatus nowMs properties (Some s)
  /\ PropertyUtils.filterPropertiesByStatus nowMs sorted None = sorted.
Proof.
  intros sorted priority. unfold sorted. clear sorted.
  unfold PropertyUtils.sortPropertiesByStatus, PropertyUtils.sortByKey.
  fold priority.
  repeat match goal with |- _ /\ _ => split end.
  - induction properties as [| p l IH]; cbn [fold_right]; [constructor |].
    eapply perm_trans; [apply perm_skip; exact IH | apply insertByKey_perm].
  - induction properties as [| p l IH]; cbn [fold_right]; [constructor |].
    apply insertByKey_sorted. exact IH.
  - unfold PropertyUtils.filterPropertiesByStatus.
    assert (Hext : forall l : list Property,
              filter (fun property =>
                        PropertyUtils.statusEqb
                          (PropertyUtils.getPropertyStatus nowMs property) s) l
              = filter (fun p => priority p =? PropertyUtils.statusPriority s) l)
      by (intros l; apply filter_ext; intros p; apply statusEqb_priority).
    rewrite !Hext.
    induction properties as [| p l IH]; cbn [fold_right]; [reflexivity |].
    rewrite insertByKey_filter. cbn [filter]. rewrite IH. reflexivity.
  - reflexivity.
Qed.

(** ** The keys of the tables under every request and job *)

Lemma keeps_ret {A} (a : A) : keeps (ret a).
Proof. intros w H. exact H. Qed.

Lemma keeps_throw {A} (e : string) : keeps (@throw A e).
Proof. intros w H. exact H. Qed.

Lemma keeps_bind {A B} (m : M A) (k : A -> M B) :
  keeps m -> (forall a, keeps (k a)) -> keeps (bind m k).
Proof.
  intros Hm Hk w H. unfold bind. specialize (Hm w H).
  destruct (m w) as [[a | e] w1]; cbn [snd] in *; [apply Hk; exact Hm | exact Hm].
Qed.

Lemma keeps_tryCatch {A} (m : M A) (h : string -> M A) :
  keeps m -> (forall e, keeps (h e)) -> keeps (tryCatch m h).
Proof.
  intros Hm Hh w H. unfold tryCatch. specialize (Hm w H).
  destruct (m w) as [[a | e] w1]; cbn [snd] in *; [exact Hm | apply Hh; exact Hm].
Qed.

Lemma keeps_forOf {A} (l : list A) (body : A -> M unit) :
  (forall a, keeps (body a)) -> keeps (forOf l body).
Proof.
  intros Hb. induction l as [| x l IH]; cbn [forOf]; [apply keeps_ret |].
  apply keeps_bind; [apply Hb | intros _; exact IH].
Qed.

Lemma keeps_foldOf {A S} (l : list A) (body : S -> A -> M S) :
  (forall s a, keeps (body s a)) -> forall s, keeps (foldOf l s body).
Proof.
  intros Hb. induction l as [| x l IH]; intros s; cbn [foldOf]; [apply keeps_ret |].
  apply keeps_bind; [apply Hb | intros s'; apply IH].
Qed.

(** A computation that reads the world and gives it back keeps anything. *)
Lemma keeps_read {A} (f : World -> A) : keeps (fun w => (Ok (f w), w)).
Proof. intros w H. exact H. Qed.

Lemma NoDup_snoc {A} (l : list A) (x : A) :
  NoDup l -> ~ In x l -> NoDup (l ++ [x]).
Proof.
  intros Hl Hx. apply NoDup_rev in Hl. rewrite <- (rev_involutive (l ++ [x])).
  apply NoDup_rev. rewrite rev_app_distr. cbn. constructor; [| exact Hl].
  rewrite <- in_rev. exact Hx.
Qed.

Lemma keeps_createInvoice ins : keeps (Storage.createInvoice ins).
Proof.
  intros w (Hid & Hnum & Hseq & Hnid & Hnseq & Hi & Hn).
  unfold Storage.createInvoice.
  destruct (Storage.propertyExists (i_propertyId ins) w) eqn:Hfk; cbn [negb].
  2:{ cbn [snd]. unfold tablesSound, referencesHold, Storage.propertyExists in *.
      cbn [db_invoices db_notifications db_properties seq_invoices
           seq_notifications setInvoices].
      repeat match goal with |- _ /\ _ => split end; try assumption.
      intros i Hin. specialize (Hseq i Hin). lia. }
  destruct (Storage.invoiceNumberTaken _ _) eqn:Htaken; cbn [snd].
  { unfold tablesSound, referencesHold, Storage.propertyExists in *.
    cbn [db_invoices db_notifications db_properties seq_invoices
         seq_notifications setInvoices].
    repeat match goal with |- _ /\ _ => split end; try assumption.
    intros i Hin. specialize (Hseq i Hin). lia. }
  unfold tablesSound, referencesHold, Storage.propertyExists in *.
  cbn [db_invoices db_notifications db_properties seq_invoices
       seq_notifications setInvoices].
  repeat match goal with |- _ /\ _ => split end; try assumption.
  - rewrite map_app. apply NoDup_snoc; [exact Hid |]. cbn [map Storage.invoiceRow id].
    intros Hin. apply in_map_iff in Hin. destruct Hin as (i & E & Hin).
    specialize (Hseq i Hin). lia.
  - rewrite map_app. apply NoDup_snoc; [exact Hnum |].
    cbn [map Storage.invoiceRow invoiceNumber].
    intros Hin. apply in_map_iff in Hin. destruct Hin as (i & E & Hin).
    assert (Ht : Storage.invoiceNumberTaken (i_invoiceNumber ins) (db_invoices w) = true).
    { apply existsb_exists. exists i. split; [exact Hin |].
      apply String.eqb_eq. exact E. }
    congruence.
  - intros i Hin. apply in_app_or in Hin. destruct Hin as [Hin | [<- | []]].
    + specialize (Hseq i Hin). lia.
    + cbn [Storage.invoiceRow id]. lia.
  - intros i Hin. apply in_app_or in Hin. destruct Hin as [Hin | [<- | []]].
    + exact (Hi i Hin).
    + exact Hfk.
Qed.

Lemma keeps_createNotification ins : keeps (Storage.createNotification ins).
Proof.
  intros w (Hid & Hnum & Hseq & Hnid & Hnseq & Hi & Hn).
  unfold Storage.createNotification.
  destruct (Storage.propertyExists (in_propertyId ins) w) eqn:Hfk; cbn [negb snd];
    unfold tablesSound, referencesHold, Storage.propertyExists in *;
    cbn [db_invoices db_notifications db_properties seq_invoices
         seq_notifications setNotifications];
    repeat match goal with |- _ /\ _ => split end; try assumption.
  - rewrite map_app. apply NoDup_snoc; [exact Hnid |]. cbn [map n_id].
    intros Hin. apply in_map_iff in Hin. destruct Hin as (n & E & Hin).
    specialize (Hnseq n Hin). lia.
  - intros n Hin. apply in_app_or in Hin. destruct Hin as [Hin | [<- | []]].
    + specialize (Hnseq n Hin). lia.
    + cbn [n_id]. lia.
  - intros n Hin. apply in_app_or in Hin. destruct Hin as [Hin | [<- | []]].
    + exact (Hn n Hin).
    + exact Hfk.
  - intros n Hin. specialize (Hnseq n Hin). lia.
Qed.

Lemma map_key_updateWhere {B} (key : Invoice -> B) iid f l :
  (forall i, key (f i) = key i) ->
  map key (Storage.updateWhere iid f l) = map key l.
Proof.
  intros Hf. unfold Storage.updateWhere. rewrite map_map. apply map_ext.
  intros i. destruct (id i =? iid); [apply Hf | reflexivity].
Qed.

Lemma updateWhere_absent iid f l :
  ~ In iid (map id l) -> Storage.updateWhere iid f l = l.
Proof.
  intros H. unfold Storage.updateWhere. rewrite <- (map_id l) at 2.
  apply map_ext_in. intros i Hin.
  destruct (Z.eqb_spec (id i) iid) as [E | _]; [| reflexivity].
  exfalso. apply H. apply in_map_iff. exists i. auto.
Qed.

Lemma In_updateWhere iid f l i' :
  In i' (Storage.updateWhere iid f l) ->
  exists i, In i l /\ (i' = i \/ (id i = iid /\ i' = f i)).
Proof.
  unfold Storage.updateWhere. intros H. apply in_map_iff in H.
  destruct H as (i & E & Hin). exists i. split; [exact Hin |].
  destruct (Z.eqb_spec (id i) iid); [right | left]; auto.
Qed.

Lemma numbers_updateWhere iid f n l :
  (forall i, invoiceNumber (f i) = n) ->
  NoDup (map id l) -> NoDup (map invoiceNumber l) ->
  Storage.invoiceNumberTaken n (filter (fun i => negb (id i =? iid)) l) = false ->
  NoDup (map invoiceNumber (Storage.updateWhere iid f l)).
Proof.
  intros Hf. induction l as [| a r IH]; intros Hid Hnum Hfree; [constructor |].
  inversion Hid as [| ? ? Ha Hr]; subst. inversion Hnum as [| ? ? Hna Hnr]; subst.
  cbn [Storage.updateWhere map]. cbn [filter] in Hfree.
  destruct (Z.eqb_spec (id a) iid) as [E | E]; cbn [negb] in Hfree.
  - fold (Storage.updateWhere iid f r).
    rewrite updateWhere_absent by (rewrite <- E; exact Ha).
    rewrite (filter_absent id) in Hfree.
    2:{ destruct (existsb _ r) eqn:Ex; [| reflexivity].
        apply existsb_exists in Ex. destruct Ex as (i & Hin & Hi).
        apply Z.eqb_eq in Hi. exfalso. apply Ha. apply in_map_iff.
        exists i. split; [lia | exact Hin]. }
    constructor; [| exact Hnr]. rewrite Hf. intros Hin.
    apply in_map_iff in Hin. destruct Hin as (i & Ei & Hin).
    assert (Ht : Storage.invoiceNumberTaken n r = true).
    { apply existsb_exists. exists i. split; [exact Hin |].
      apply String.eqb_eq. exact Ei. }
    congruence.
  - cbn [Storage.invoiceNumberTaken existsb] in Hfree.
    apply orb_false_elim in Hfree. destruct Hfree as [Hn1 Hn2].
    fold (Storage.updateWhere iid f r).
    constructor; [| apply IH; assumption].
    intros Hin. apply in_map_iff in Hin. destruct Hin as (i' & Ei & Hin).
    apply In_updateWhere in Hin. destruct Hin as (i & Hi & [-> | [_ ->]]).
    + apply Hna. apply in_map_iff. exists i. auto.
    + rewrite Hf in Ei. rewrite <- Ei, String.eqb_refl in Hn1. discriminate Hn1.
Qed.

Lemma keeps_updateInvoice iid u : keeps (Storage.updateInvoice iid u).
Proof.
  intros w Hw. pose proof Hw as (Hid & Hnum & Hseq & Hnid & Hnseq & Hi & Hn).
  unfold Storage.updateInvoice.
  destruct (find _ (db_invoices w)) as [old |]; [| exact Hw].
  destruct (match u_propertyId u with
            | Some pid => negb (Storage.propertyExists pid w)
            | None => false
            end) eqn:Hfk; [exact Hw |].
  destruct (match u_invoiceNumber u with
            | Some n => Storage.invoiceNumberTaken n _
            | None => false
            end) eqn:Hun; [exact Hw |].
  cbn [snd]. unfold tablesSound, referencesHold, Storage.propertyExists in *.
  cbn [db_invoices db_notifications db_properties seq_invoices
       seq_notifications setInvoices].
  repeat match goal with |- _ /\ _ => split end; try assumption.
  - rewrite map_key_updateWhere; [exact Hid | reflexivity].
  - destruct (u_invoiceNumber u) as [n |] eqn:En.
    + apply (numbers_updateWhere iid _ n); try assumption.
      intros i. cbn [Storage.applyUpdates invoiceNumber]. rewrite En. reflexivity.
    + rewrite map_key_updateWhere; [exact Hnum |].
      intros i. cbn [Storage.applyUpdates invoiceNumber]. rewrite En. reflexivity.
  - intros i' Hin. apply In_updateWhere in Hin.
    destruct Hin as (i & Hin & [-> | [_ ->]]); exact (Hseq i Hin).
  - intros i' Hin. apply In_updateWhere in Hin.
    destruct Hin as (i & Hin & [-> | [_ ->]]); [exact (Hi i Hin) |].
    cbn [Storage.applyUpdates propertyId].
    destruct (u_propertyId u) as [pid |]; cbn [Storage.setField].
    + apply negb_false_iff in Hfk. exact Hfk.
    + exact (Hi i Hin).
Qed.

Lemma keeps_updateInvoiceStatus iid st : keeps (Storage.updateInvoiceStatus iid st).
Proof.
  intros w Hw. pose proof Hw as (Hid & Hnum & Hseq & Hnid & Hnseq & Hi & Hn).
  unfold Storage.updateInvoiceStatus.
  destruct (find _ (db_invoices w)) as [old |]; [| exact Hw].
  cbn [snd]. unfold tablesSound, referencesHold, Storage.propertyExists in *.
  cbn [db_invoices db_notifications db_properties seq_invoices
       seq_notifications setInvoices].
  repeat match goal with |- _ /\ _ => split end; try assumption.
  - rewrite map_key_updateWhere; [exact Hid | reflexivity].
  - rewrite map_key_updateWhere; [exact Hnum | reflexivity].
  - intros i' Hin. apply In_updateWhere in Hin.
    destruct Hin as (i & Hin & [-> | [_ ->]]); exact (Hseq i Hin).
  - intros i' Hin. apply In_updateWhere in Hin.
    destruct Hin as (i & Hin & [-> | [_ ->]]); exact (Hi i Hin).
Qed.

Lemma keeps_deleteInvoice iid : keeps (DatabaseStorage.deleteInvoice iid).
Proof.
  intros w (Hid & Hnum & Hseq & Hnid & Hnseq & Hi & Hn).
  unfold DatabaseStorage.deleteInvoice. cbn [snd].
  unfold tablesSound, referencesHold, Storage.propertyExists in *.
  cbn [db_invoices db_notifications db_properties seq_invoices
       seq_notifications setInvoices].
  repeat match goal with |- _ /\ _ => split end; try assumption.
  - apply keys_unique_after_filter. exact Hid.
  - apply keys_unique_after_filter. exact Hnum.
  - intros i Hin. apply filter_In in Hin. apply Hseq. tauto.
  - intros i Hin. apply filter_In in Hin. apply Hi. tauto.
Qed.

Lemma keeps_markNotificationAsRead nid :
  keeps (DatabaseStorage.markNotificationAsRead nid).
Proof.
  intros w (Hid & Hnum & Hseq & Hnid & Hnseq & Hi & Hn).
  unfold DatabaseStorage.markNotificationAsRead. cbn [snd].
  unfold tablesSound, referencesHold, Storage.propertyExists in *.
  cbn [db_invoices db_notifications db_properties seq_invoices
       seq_notifications setNotifications].
  assert (Hin' : forall n',
            In n' (map (fun n => if n_id n =? nid then DatabaseStorage.markRead n else n)
                     (db_notifications w)) ->
            exists n, In n (db_notifications w) /\ n_id n' = n_id n
                      /\ n_propertyId n' = n_propertyId n).
  { intros n' H. apply in_map_iff in H. destruct H as (n & E & H).
    exists n. split; [exact H |]. subst n'.
    destruct (n_id n =? nid); split; reflexivity. }
  repeat match goal with |- _ /\ _ => split end; try assumption.
  - rewrite map_map.
    rewrite (map_ext _ n_id); [exact Hnid |].
    intros n. destruct (n_id n =? nid); reflexivity.
  - intros n' H. destruct (Hin' n' H) as (n & Hin & E & _). rewrite E.
    exact (Hnseq n Hin).
  - intros n' H. destruct (Hin' n' H) as (n & Hin & _ & E). rewrite E.
    exact (Hn n Hin).
Qed.

Lemma keeps_clearAllNotifications : keeps DatabaseStorage.clearAllNotifications.
Proof.
  intros w (Hid & Hnum & Hseq & Hnid & Hnseq & Hi & Hn).
  unfold DatabaseStorage.clearAllNotifications. cbn [snd].
  unfold tablesSound, referencesHold, Storage.propertyExists in *.
  cbn [db_invoices db_notifications db_properties seq_invoices
       seq_notifications setNotifications].
  repeat match goal with |- _ /\ _ => split end; try assumption.
  - constructor.
  - intros n [].
  - intros n [].
Qed.

Lemma keeps_deleteProperty pid : keeps (DatabaseStorage.deleteProperty pid).
Proof.
  intros w Hw. pose proof Hw as (Hid & Hnum & Hseq & Hnid & Hnseq & Hi & Hn).
  rewrite deleteProperty_unfold.
  destruct (Storage.propertyExists pid w); [| exact Hw].
  cbn [snd]. unfold tablesSound, referencesHold, Storage.propertyExists in *.
  cbn [db_invoices db_notifications db_properties seq_invoices seq_notifications
       setInvoices setNotifications DatabaseStorage.setProperties].
  repeat match goal with |- _ /\ _ => split end.
  - apply keys_unique_after_filter. exact Hid.
  - apply keys_unique_after_filter. exact Hnum.
  - intros i Hin. apply filter_In in Hin. apply Hseq. tauto.
  - apply keys_unique_after_filter. exact Hnid.
  - intros n Hin. apply filter_In in Hin. apply Hnseq. tauto.
  - intros i Hin. apply filter_In in Hin. destruct Hin as [Hin Hne].
    destruct (Z.eqb_spec (propertyId i) pid) as [| Hne']; [discriminate Hne |].
    rewrite (existsb_filter_other p_id) by exact Hne'. exact (Hi i Hin).
  - intros n Hin. apply filter_In in Hin. destruct Hin as [Hin Hne].
    destruct (Z.eqb_spec (n_propertyId n) pid) as [| Hne']; [discriminate Hne |].
    rewrite (existsb_filter_other p_id) by exact Hne'. exact (Hn n Hin).
Qed.

Lemma keeps_sendMail m : keeps (EmailService.sendMail m).
Proof.
  intros w Hw. unfold EmailService.sendMail.
  destruct (smtp w m); exact Hw.
Qed.

Ltac keeping :=
  repeat first
    [ apply keeps_ret | apply keeps_throw
    | apply keeps_createInvoice | apply keeps_createNotification
    | apply keeps_updateInvoice | apply keeps_updateInvoiceStatus
    | apply keeps_deleteInvoice | apply keeps_deleteProperty
    | apply keeps_markNotificationAsRead | apply keeps_clearAllNotifications
    | apply keeps_sendMail | apply keeps_read
    | apply keeps_bind; [| intros ?]
    | apply keeps_tryCatch; [| intros ?]
    | apply keeps_forOf; intros ?
    | apply keeps_foldOf; intros ? ?
    | match goal with
      | |- keeps (if ?b then _ else _) => destruct b
      | |- keeps (match ?x with _ => _ end) => destruct x
      end ].

Ltac open_services :=
  unfold Routes.postPropertyInvoice, Routes.postPropertyGenerateInvoice,
    Routes.postInvoiceSend, Routes.putInvoiceStatus, Routes.respond,
    Api.deleteInvoice, Api.deleteProperty, Api.putNotificationRead,
    Api.deleteNotifications, Api.answer,
    manualGenerateInvoice, createManualInvoiceForProperty,
    generateMonthlyInvoices, monthlyStep, createInvoiceForProperty,
    sendInvoiceCreationSummary,
    NotificationService.checkAndSendLeaseExpiryNotifications,
    NotificationService.checkProperty,
    NotificationService.sendLeaseExpiryNotification,
    NotificationService.sendInvoiceGenerationNotification,
    EmailService.sendInvoice, EmailService.sendNotificationEmail,
    PdfService.generateInvoicePDF,
    Storage.getProperties, Storage.getProperty, Storage.getInvoice,
    Storage.getInvoicesByProperty, Storage.getCompanySettings, now, localTza.

Lemma keeps_manualGenerateInvoice pid : keeps (manualGenerateInvoice pid).
Proof. open_services. keeping. Qed.

Lemma keeps_postInvoiceSend iid cc : keeps (Routes.postInvoiceSend iid cc).
Proof. open_services. keeping. Qed.

Lemma keeps_generateMonthlyInvoices : keeps generateMonthlyInvoices.
Proof. open_services. keeping. Qed.

Lemma keeps_leaseNotifier :
  keeps NotificationService.checkAndSendLeaseExpiryNotifications.
Proof. open_services. keeping. Qed.

(** X21.  No request and no job breaks the keys of the tables.  From a
    world in which invoice ids, invoice numbers and notification ids are
    unique, no id exceeds its sequence and every invoice and notification
    points at a stored property, the same holds after either route of
    manual generation, the send route, the status route, the deletion of
    an invoice or of a property, marking or clearing notifications, the
    monthly job, the lease notifier, and after any update of an invoice
    through the storage layer, whatever the answer was. *)
Theorem tables_stay_sound (w : World) :
  tablesSound w ->
  (forall pid, tablesSound (snd (Routes.postPropertyInvoice pid w)))
  /\ (forall pid, tablesSound (snd (Routes.postPropertyGenerateInvoice pid w)))
  /\ (forall iid cc, tablesSound (snd (Routes.postInvoiceSend iid cc w)))
  /\ (forall iid st, tablesSound (snd (Routes.putInvoiceStatus iid st w)))
  /\ (forall iid, tablesSound (snd (Api.deleteInvoice iid w)))
  /\ (forall pid, tablesSound (snd (Api.deleteProperty pid w)))
  /\ (forall nid, tablesSound (snd (Api.putNotificationRead nid w)))
  /\ tablesSound (snd (Api.deleteNotifications w))
  /\ tablesSound (snd (generateMonthlyInvoices w))
  /\ tablesSound (snd (NotificationService.checkAndSendLeaseExpiryNotifications w))
  /\ (forall iid u, tablesSound (snd (Storage.updateInvoice iid u w))).
Proof.
  intros H.
  repeat match goal with |- _ /\ _ => split end; intros.
  - apply (keeps_tryCatch _ _); [| intros ?; apply keeps_ret | exact H].
    apply keeps_bind; [apply keeps_manualGenerateInvoice |].
    intros b. destruct (negb b); apply keeps_ret.
  - apply (keeps_tryCatch _ _); [| intros ?; apply keeps_ret | exact H].
    apply keeps_bind; [apply keeps_manualGenerateInvoice |].
    intros b. destruct (negb b); apply keeps_ret.
  - apply keeps_postInvoiceSend. exact H.
  - assert (K : keeps (Routes.putInvoiceStatus iid st))
      by (open_services; keeping).
    apply K. exact H.
  - assert (K : keeps (Api.deleteInvoice iid)) by (open_services; keeping).
    apply K. exact H.
  - assert (K : keeps (Api.deleteProperty pid)) by (open_services; keeping).
    apply K. exact H.
  - assert (K : keeps (Api.putNotificationRead nid)) by (open_services; keeping).
    apply K. exact H.
  - assert (K : keeps Api.deleteNotifications) by (open_services; keeping).
    apply K. exact H.
  - apply keeps_generateMonthlyInvoices. exact H.
  - apply keeps_leaseNotifier. exact H.
  - apply keeps_updateInvoice. exact H.
Qed.

(** X12.  An id with no invoice behind it.  With no invoice stored under
    the id, the send route, the status route (given a valid status), the
    PDF preview and the delete route all answer 404 "Invoice not found",
    hand nothing to the mail transport and leave invoices and
    notifications as they were. *)
Theorem missing_invoice_is_404 (w : World) (iid : Z)
  (cc : option (list string)) (st : Json.value) :
  find (fun i => id i =? iid) (db_invoices w) = None ->
  Json.includes ["draft"; "sent"; "paid"] st = true ->
  let notFound :=
    {| Routes.res_status := 404;
       Routes.res_body := Routes.Message "Invoice not found" |} in
  Routes.postInvoiceSend iid cc w = (Ok notFound, w)
  /\ Routes.putInvoiceStatus iid st w = (Ok notFound, w)
  /\ Api.getInvoicePdf iid w =
       (Ok {| Api.ans_status := 404;
              Api.ans_payload := Api.MessageJson "Invoice not found" |}, w)
  /\ fst (Api.deleteInvoice iid w) = Ok notFound
  /\ db_invoices (snd (Api.deleteInvoice iid w)) = db_invoices w
  /\ besidesInvoices (snd (Api.deleteInvoice iid w)) = besidesInvoices w.
Proof.
  intros Hnone Hst notFound.
  assert (Hex : existsb (fun i => id i =? iid) (db_invoices w) = false).
  { destruct (existsb _ _) eqn:E; [| reflexivity].
    apply existsb_exists in E. destruct E as (i & Hin & Hi).
    pose proof (find_none _ _ Hnone i Hin) as Hn. cbn in Hn. congruence. }
  assert (Htruthy : Json.truthy st = true).
  { destruct st; try discriminate Hst. cbn in Hst |- *.
    destruct s; [cbn in Hst; discriminate Hst | reflexivity]. }
  repeat match goal with |- _ /\ _ => split end.
  - run_route. rewrite Hnone. reflexivity.
  - run_route. rewrite Htruthy, Hst. cbn [negb orb].
    unfold Storage.updateInvoiceStatus. rewrite Hnone. reflexivity.
  - cbv beta iota zeta delta [Api.getInvoicePdf tryCatch bind ret Api.answer
      Storage.getInvoice].
    rewrite Hnone. reflexivity.
  - cbv beta iota zeta delta [Api.deleteInvoice DatabaseStorage.deleteInvoice
      tryCatch bind ret Routes.respond].
    rewrite Hex. reflexivity.
  - cbv beta iota zeta delta [Api.deleteInvoice DatabaseStorage.deleteInvoice
      tryCatch bind ret Routes.respond].
    rewrite Hex. cbn [negb snd db_invoices setInvoices].
    apply (filter_absent id). exact Hex.
  - cbv beta iota zeta delta [Api.deleteInvoice DatabaseStorage.deleteInvoice
      tryCatch bind ret Routes.respond].
    rewrite Hex. reflexivity.
Qed.

Lemma missing_invoice_is_404_witness :
  fst (Routes.putInvoiceStatus 7 (Json.JString "paid") billedWorld)
  = Ok {| Routes.res_status := 404;
          Routes.res_body := Routes.Message "Invoice not found" |}
  /\ snd (Routes.postInvoiceSend 7 None billedWorld) = billedWorld.
Proof.
  destruct (missing_invoice_is_404 billedWorld 7 None (Json.JString "paid")
              eq_refl eq_refl) as (Hsend & Hput & _).
  rewrite Hsend, Hput. split; reflexivity.
Defined.

(** ** The theorems at the sample data *)

(** The two properties of the sample world, billed on 2 November and again
    at the run of 3 November. *)
Lemma monthly_job_exactly_one_witness :
  let twice :=
    snd (generateMonthlyInvoices
           (setClock (1793606400000 + 86400000)
              (snd (generateMonthlyInvoices sampleWorld)))) in
  monthCount 7200000 2026 10 1 (db_invoices twice) = 1%nat.
Proof.
  assert (Hpos : forall q, In q (db_properties sampleWorld) -> 0 < p_id q)
    by (intros q [<- | [<- | []]]; reflexivity).
  pose proof (monthly_job_exactly_one sampleWorld (1793606400000 + 86400000)
                sampleProperty) as H1.
  cbv zeta in H1.
  specialize (H1 ltac:(vm_compute; reflexivity) ltac:(vm_compute; reflexivity)
                 ltac:(vm_compute; reflexivity) Hpos ltac:(intros i q [])
                 ltac:(left; reflexivity) ltac:(vm_compute; reflexivity)
                 ltac:(vm_compute; reflexivity)).
  vm_compute in H1. vm_compute. apply H1.
Defined.

Lemma monthly_job_at_most_one_per_month_witness :
  let twice :=
    snd (generateMonthlyInvoices
           (setClock (1793606400000 + 86400000)
              (snd (generateMonthlyInvoices sampleWorld)))) in
  (monthCount 7200000 2026 10 2 (db_invoices twice) <= 1)%nat.
Proof.
  pose proof (monthly_job_at_most_one_per_month sampleWorld
                (1793606400000 + 86400000) 2) as H.
  cbv zeta in H.
  specialize (H ltac:(vm_compute; reflexivity) ltac:(vm_compute; reflexivity)
                ltac:(vm_compute; reflexivity)).
  vm_compute in H. vm_compute. apply H.
Defined.

(** Flat 1 is billable but its November number is taken by the re-dated
    invoice: the run adds nothing, also not for Flat 2, and mails nothing. *)
Lemma monthly_job_stops_at_refused_insert_witness :
  db_invoices (snd (generateMonthlyInvoices redatedWorld)) = [redatedInvoice]
  /\ outbox (snd (generateMonthlyInvoices redatedWorld)) = []
  /\ isBillable (clock redatedWorld) exemptProperty = true
  /\ monthCount 7200000 2026 10 2 (db_invoices redatedWorld) = 0%nat.
Proof.
  destruct (monthly_job_stops_at_refused_insert redatedWorld [] [exemptProperty]
              sampleProperty
              ltac:(vm_compute; reflexivity) ltac:(intros q [])
              ltac:(vm_compute; reflexivity) ltac:(vm_compute; reflexivity))
    as (_ & Ho & billed & Hinv & Hall).
  destruct billed as [| b l]; [| destruct (Hall b (or_introl eq_refl)) as [[] _]].
  split; [rewrite Hinv; reflexivity |].
  split; [rewrite Ho; reflexivity |].
  split; vm_compute; reflexivity.
Defined.

(** Flat 1 has its November invoice; a manual generation adds a second. *)
Lemma manual_generation_bypasses_month_check_witness :
  monthCount 7200000 2026 10 1 (db_invoices billedWorld) = 1%nat
  /\ map invoiceNumber (db_invoices (snd (Routes.postPropertyInvoice 1 billedWorld)))
     = ["INV-202611-001"; "INV-202611-002"; "INV-202611-001-0000"].
Proof.
  destruct (manual_generation_bypasses_month_check billedWorld 1 sampleProperty
              eq_refl ltac:(vm_compute; reflexivity)) as [_ H].
  split; [vm_compute; reflexivity |].
  rewrite H. vm_compute. reflexivity.
Defined.

(** Ten seconds after a manual generation the number is the same one. *)
Lemma manual_generation_same_number_refused_witness :
  let later :=
    setClock (1793606400000 + 10000)
      (snd (Routes.postPropertyInvoice 1 sampleWorld)) in
  Routes.res_status
    (match fst (Routes.postPropertyInvoice 1 later) with
     | Ok r => r
     | Throw _ => {| Routes.res_status := 0; Routes.res_body := Routes.Message "" |}
     end) = 500
  /\ db_invoices (snd (Routes.postPropertyInvoice 1 later)) = db_invoices later.
Proof.
  intros later.
  destruct (manual_generation_same_number_refused later 1 sampleProperty
              ltac:(vm_compute; reflexivity) ltac:(vm_compute; reflexivity))
    as [H1 H2].
  rewrite H1. split; [reflexivity | exact H2].
Defined.

(** With the transport down, or with invoice notifications off, the
    invoice is stored and nothing is mailed; with both up the operator
    gets one notice, at the address stored in the settings. *)
Lemma manual_generation_notifies_operator_witness :
  map (fun m => (m_to m, m_subject m))
    (outbox (snd (Routes.postPropertyInvoice 1 sampleWorld)))
  = [("fullardpropertymgmt@gmail.com", "Invoice Generated - INV-202611-001-0000")]
  /\ map (fun m => (m_to m, m_subject m))
       (outbox (snd (Routes.postPropertyInvoice 1
                       (withSettings officeSettings sampleWorld))))
     = [("office@example.com", "Invoice Generated - INV-202611-001-0000")]
  /\ outbox (snd (Routes.postPropertyInvoice 1
                    (withSettings quietSettings sampleWorld))) = []
  /\ map invoiceNumber
       (db_invoices (snd (Routes.postPropertyInvoice 1
                            (withSettings quietSettings sampleWorld))))
     = ["INV-202611-001-0000"]
  /\ outbox (snd (Routes.postPropertyInvoice 1 (withoutSettings sampleWorld))) = []
  /\ outbox (snd (Routes.postPropertyInvoice 1 (offlineWorld sampleWorld))) = []
  /\ map invoiceNumber
       (db_invoices (snd (Routes.postPropertyInvoice 1 (offlineWorld sampleWorld))))
     = ["INV-202611-001-0000"].
Proof.
  destruct (manual_generation_notifies_operator sampleWorld 1 sampleProperty
              eq_refl ltac:(vm_compute; reflexivity)) as (_ & Ho & _).
  destruct (manual_generation_notifies_operator
              (withSettings officeSettings sampleWorld) 1 sampleProperty
              eq_refl ltac:(vm_compute; reflexivity)) as (_ & Hoffice & _).
  destruct (manual_generation_notifies_operator
              (withSettings quietSettings sampleWorld) 1 sampleProperty
              eq_refl ltac:(vm_compute; reflexivity)) as (_ & Hquiet & _ & Hiq).
  destruct (manual_generation_notifies_operator
              (withoutSettings sampleWorld) 1 sampleProperty
              eq_refl ltac:(vm_compute; reflexivity)) as (_ & Hnone & _).
  destruct (manual_generation_notifies_operator (offlineWorld sampleWorld) 1
              sampleProperty eq_refl ltac:(vm_compute; reflexivity))
    as (_ & Ho' & _ & Hi').
  split; [rewrite Ho; vm_compute; reflexivity |].
  split; [rewrite Hoffice; vm_compute; reflexivity |].
  split; [rewrite Hquiet; vm_compute; reflexivity |].
  split; [rewrite Hiq; vm_compute; reflexivity |].
  split; [rewrite Hnone; vm_compute; reflexivity |].
  split; [rewrite Ho'; vm_compute; reflexivity |].
  rewrite Hi'. vm_compute. reflexivity.
Defined.

(** The monthly job of 2 November 2026 bills both flats and mails one
    summary, to the address stored in the settings; with invoice
    notifications off it bills them and mails nothing; run on the billed
    table it adds and mails nothing; a flat whose tenant name is blank is
    passed over. *)
Lemma monthly_job_batch_witness :
  (map (fun i => (id i, invoiceNumber i, status i))
     (db_invoices (snd (generateMonthlyInvoices sampleWorld)))
   = [(1, "INV-202611-001", "draft"); (2, "INV-202611-002", "draft")]
   /\ seq_invoices (snd (generateMonthlyInvoices sampleWorld)) = 2
   /\ map (fun m => (m_to m, m_subject m))
        (outbox (snd (generateMonthlyInvoices sampleWorld)))
      = [("fullardpropertymgmt@gmail.com",
          "Monthly Invoices Created - November 2026")])
  /\ map (fun m => (m_to m, m_subject m))
       (outbox (snd (generateMonthlyInvoices
                       (withSettings officeSettings sampleWorld))))
     = [("office@example.com", "Monthly Invoices Created - November 2026")]
  /\ (map invoiceNumber
        (db_invoices (snd (generateMonthlyInvoices
                             (withSettings quietSettings sampleWorld))))
      = ["INV-202611-001"; "INV-202611-002"]
      /\ outbox (snd (generateMonthlyInvoices
                        (withSettings quietSettings sampleWorld))) = [])
  /\ (db_invoices (snd (generateMonthlyInvoices billedWorld))
      = db_invoices billedWorld
      /\ outbox (snd (generateMonthlyInvoices billedWorld)) = [])
  /\ (isBillable (clock blankTenantWorld) blankTenantProperty = false
      /\ map (fun i => (id i, invoiceNumber i))
           (db_invoices (snd (generateMonthlyInvoices blankTenantWorld)))
         = [(1, "INV-202611-001"); (2, "INV-202611-002")]).
Proof.
  assert (Hblank :
    map (fun i => (id i, invoiceNumber i))
      (db_invoices (snd (generateMonthlyInvoices blankTenantWorld)))
    = [(1, "INV-202611-001"); (2, "INV-202611-002")]).
  { pose proof (monthly_job_batch blankTenantWorld) as H. cbv zeta in H.
    assert (Hnd : NoDup [1; 4; 2]).
    { constructor; [intros [H' | [H' | []]]; discriminate |].
      constructor; [intros [H' | []]; discriminate |].
      constructor; [intros [] | constructor]. }
    specialize (H ltac:(vm_compute; reflexivity)
                  ltac:(intros q [<- | [<- | [<- | []]]]; reflexivity)
                  Hnd ltac:(intros i q [])).
    destruct H as (_ & Hi & _). rewrite Hi. vm_compute. reflexivity. }
  assert (Hnd : NoDup [1; 2]).
  { constructor; [intros [H | []]; discriminate |].
    constructor; [intros [] | constructor]. }
  assert (Hids : forall q, In q [sampleProperty; exemptProperty] -> 0 < p_id q)
    by (intros q [<- | [<- | []]]; reflexivity).
  pose proof (monthly_job_batch sampleWorld) as H1.
  pose proof (monthly_job_batch (withSettings officeSettings sampleWorld)) as H2.
  pose proof (monthly_job_batch (withSettings quietSettings sampleWorld)) as H3.
  pose proof (monthly_job_batch billedWorld) as H4.
  cbv zeta in H1, H2, H3, H4.
  specialize (H1 ltac:(vm_compute; reflexivity) Hids Hnd ltac:(intros i q [])).
  specialize (H2 ltac:(vm_compute; reflexivity) Hids Hnd ltac:(intros i q [])).
  specialize (H3 ltac:(vm_compute; reflexivity) Hids Hnd ltac:(intros i q [])).
  assert (Hfit : numbersConsistent (tza billedWorld)
                   (getFullYear (tza billedWorld) (clock billedWorld))
                   (getMonth (tza billedWorld) (clock billedWorld))
                   (db_properties billedWorld) (db_invoices billedWorld)).
  { intros i q [<- | [<- | []]] [<- | [<- | []]] Hn;
      vm_compute in Hn; try discriminate Hn; split; vm_compute; reflexivity. }
  specialize (H4 ltac:(vm_compute; reflexivity) Hids Hnd Hfit).
  destruct H1 as (_ & Hi1 & Hs1 & _ & _ & _ & Ho1 & _).
  destruct H2 as (_ & _ & _ & _ & _ & _ & Ho2 & _).
  destruct H3 as (_ & Hi3 & _ & _ & _ & _ & Ho3 & _).
  destruct H4 as (_ & Hi4 & _ & _ & _ & _ & Ho4 & _).
  split; [split; [| split] |].
  - rewrite Hi1. vm_compute. reflexivity.
  - rewrite Hs1. vm_compute. reflexivity.
  - rewrite Ho1. vm_compute. reflexivity.
  - split; [rewrite Ho2; vm_compute; reflexivity |].
    split; [split |]; [rewrite Hi3 | rewrite Ho3 |]; try (vm_compute; reflexivity).
    split; [split; [rewrite Hi4 | rewrite Ho4]; vm_compute; reflexivity |].
    split; [vm_compute; reflexivity | exact Hblank].
Defined.

(** A manual invoice on 2 November; the monthly job of 3 November adds
    nothing for Flat 1. *)
Lemma manual_invoice_suppresses_scheduled_witness :
  let w1 :=
    setClock (1793606400000 + 86400000)
      (snd (Routes.postPropertyInvoice 1 sampleWorld)) in
  fst (createInvoiceForProperty (ofRow sampleProperty) w1) = Ok None
  /\ monthCount 7200000 2026 10 1 (db_invoices (snd (generateMonthlyInvoices w1)))
     = 1%nat.
Proof.
  intros w1.
  pose proof (manual_invoice_suppresses_scheduled sampleWorld 1
                (1793606400000 + 86400000) sampleProperty eq_refl) as H.
  cbv zeta in H.
  specialize (H ltac:(vm_compute; reflexivity) ltac:(vm_compute; reflexivity)
                ltac:(vm_compute; reflexivity) ltac:(vm_compute; reflexivity)).
  destruct H as [H1 H2]. fold w1 in H1, H2.
  split; [rewrite H1; reflexivity |].
  vm_compute in H2. vm_compute. exact H2.
Defined.

Lemma tables_stay_sound_witness :
  tablesSound billedWorld
  /\ tablesSound (snd (Routes.postInvoiceSend 1 None billedWorld))
  /\ tablesSound (snd (Api.deleteProperty 1 billedWorld)).
Proof.
  assert (H : tablesSound billedWorld).
  { unfold tablesSound, referencesHold, billedWorld, sampleWorld, setInvoices.
    cbn [db_invoices db_notifications db_properties seq_invoices
         seq_notifications map].
    repeat match goal with |- _ /\ _ => split end.
    - repeat constructor; cbn; intuition discriminate.
    - repeat constructor; vm_compute; intuition discriminate.
    - intros i [<- | [<- | []]]; vm_compute; discriminate.
    - constructor.
    - intros n [].
    - intros i [<- | [<- | []]]; reflexivity.
    - intros n []. }
  pose proof (tables_stay_sound billedWorld H) as (_ & _ & Hsend & _ & _ & Hdel & _).
  split; [exact H |]. split; [apply Hsend | apply Hdel].
Defined.

(** ** The lease notifier from one daily run to the next *)

Lemma ceilDiv_shift a b k :
  0 < b -> JsNumber.ceilDiv (a - k * b) b = JsNumber.ceilDiv a b - k.
Proof.
  intros Hb. apply ceilDiv_spec; [exact Hb |].
  pose proof (proj1 (ceilDiv_spec a b (JsNumber.ceilDiv a b) Hb) eq_refl). nia.
Qed.

(** X22.  From one run of the lease notifier to a run exactly k days later
    the number of days until expiry drops by exactly k.  So among runs that
    are whole days apart a property is due for an alert on exactly three
    of them, those that find 30, 7 and 1 days left: if a run at time t
    finds d days left, the run k days later is due exactly when the
    property is occupied and k is d - 30, d - 7 or d - 1. *)
Theorem lease_alert_days (t k : Z) (p : Property) (e : Z) :
  p_leaseEndDate p = Some e ->
  let d := NotificationService.daysUntilExpiry e t in
  NotificationService.daysUntilExpiry e (t + k * 86400000) = d - k
  /\ (leaseAlertDue (t + k * 86400000) p = true
      <-> p_isOccupied p = true /\ (k = d - 30 \/ k = d - 7 \/ k = d - 1)).
Proof.
  intros He d.
  assert (Hd : NotificationService.daysUntilExpiry e (t + k * 86400000) = d - k).
  { unfold d, NotificationService.daysUntilExpiry.
    change (1000 * 3600 * 24) with 86400000.
    replace (e - (t + k * 86400000)) with (e - t - k * 86400000) by lia.
    apply ceilDiv_shift. lia. }
  split; [exact Hd |].
  unfold leaseAlertDue. rewrite He, Hd, andb_true_iff, isTriggerDay_spec.
  split; intros [Ho H]; (split; [exact Ho | lia]).
Qed.

(** Flat 1, seven days before the end of its lease on 2 November: due
    that day and six days later, not on the days between. *)
Lemma lease_alert_days_witness :
  NotificationService.daysUntilExpiry 1794211200000 1793606400000 = 7
  /\ leaseAlertDue (1793606400000 + 0 * 86400000) sampleProperty = true
  /\ leaseAlertDue (1793606400000 + 6 * 86400000) sampleProperty = true
  /\ forall k, 0 < k < 6 ->
       leaseAlertDue (1793606400000 + k * 86400000) sampleProperty = false.
Proof.
  assert (H7 : NotificationService.daysUntilExpiry 1794211200000 1793606400000 = 7)
    by (vm_compute; reflexivity).
  split; [exact H7 |].
  split; [vm_compute; reflexivity |]. split; [vm_compute; reflexivity |].
  intros k Hk.
  destruct (lease_alert_days 1793606400000 k sampleProperty 1794211200000 eq_refl)
    as [_ Hdue].
  cbv zeta in Hdue. rewrite H7 in Hdue.
  destruct (leaseAlertDue _ sampleProperty); [| reflexivity].
  destruct (proj1 Hdue eq_refl) as [_ Hcases]. lia.
Defined.
